(** * stratux-radar-display: the traffic table of [radar.py]

    A shallow embedding of the traffic-ingest callback [new_traffic], the
    own-ship callback [new_situation], the eviction sweep at the end of
    [display_and_cutoff], the drawing functions [draw_all_ac] and
    [draw_display], the helpers they call ([radians_rel],
    [calc_gps_distance], [speaktraffic]) and the shutdown dialogue of
    [shutdownui.py], followed by the properties proved about them.

    Conventions of the embedding.
    - Python numbers (JSON ints and floats, [time.time()]) are real numbers:
      arithmetic is exact, [math.sin], [math.cos], [math.atan], [math.sqrt]
      and [math.pi] are the functions of the real-number library.  Values
      produced by [round()] are Python ints and are integers here.
    - A Python dict with a fixed set of possible keys is a record of
      options: a key is present exactly when its field is [Some].  The
      table [all_ac] is a finite map from ICAO addresses to such records.
    - Module globals form the record [state]; the functions run in a state
      monad with exceptions, so that the writes made before a [KeyError] or
      a [ZeroDivisionError] stay visible, as they do in Python.
    - [radarbluez.speak] is an external sink: each call appends its text to
      the field [spoken]. *)

From Stdlib Require Import Reals Lra Lia ZArith String DecimalString Sorted.
From stdpp Require Import gmap.

Open Scope R_scope.

(** ** Numbers *)

#[global] Instance Rle_decision : RelDecision Rle := Rle_dec.
#[global] Instance Rlt_decision : RelDecision Rlt := Rlt_dec.
#[global] Instance Req_decision : EqDecision R := Req_dec_T.

(** [a <= b], [a < b] and [a == b] on Python numbers. *)
Definition Rleb (a b : R) : bool := bool_decide (a <= b).
Definition Rltb (a b : R) : bool := bool_decide (a < b).
Definition Reqb (a b : R) : bool := bool_decide (a = b).

(** Python 3 [round(x)] with one argument: the nearest integer, ties going
    to the even one. *)
Definition py_round (v : R) : Z :=
  let f := Int_part v in
  if Rltb (frac_part v) (1 / 2) then f
  else if Rltb (1 / 2) (frac_part v) then (f + 1)%Z
  else if Z.even f then f else (f + 1)%Z.

(** [str(n)] for a Python int. *)
Definition str (n : Z) : string := NilZero.string_of_int (Z.to_int n).

(** [math.radians] and [math.degrees]. *)
Definition radians (a : R) : R := a * PI / 180.
Definition degrees (a : R) : R := a * 180 / PI.

(** ** Constants (lines 55-62) *)

Definition RADAR_CUTOFF : R := 29.
Definition ARCPOSITION_EXCLUDE_FROM : Z := 130.
Definition ARCPOSITION_EXCLUDE_TO : Z := 230.
Definition SPEED_ARROW_TIME : R := 60.

(** ** Data *)

(** The global dict [situation] (line 74): every key is always present. *)
Record situation_t := {
  was_changed : bool;
  connected : bool;
  gps_active : bool;
  course : Z;
  own_altitude : R;
  latitude : R;
  longitude : R;
  RadarRange : R;
  RadarLimits : R
}.

(** One entry of [all_ac].  [ac_x] and [ac_y] are the keys ['x'] and ['y']. *)
Record track := {
  gps_distance : option R;
  was_spoken : option bool;
  last_contact_timestamp : option R;
  height : option Z;
  nspeed : option R;
  vspeed : option R;
  circradius : option Z;
  arcposition : option Z;
  direction : option R;
  ac_x : option Z;
  ac_y : option Z;
  nspeed_length : option Z
}.

(** A decoded radar-feed message, restricted to the keys [new_traffic]
    reads.  [msg_RadarRange] and [msg_RadarLimits] are the keys
    ['RadarRange'] and ['RadarLimits']. *)
Record message := {
  msg_RadarRange : option R;
  msg_RadarLimits : option R;
  Icao_addr : option Z;
  Age : option R;
  AgeLastAlt : option R;
  Alt : option R;
  Speed_valid : option bool;
  Speed : option R;
  Vvel : option R;
  Position_valid : option bool;
  Lat : option R;
  Lng : option R;
  Track : option R;
  DistanceEstimated : option R
}.

(** A decoded situation-feed message. *)
Record sit_message := {
  GPSHorizontalAccuracy : option R;
  GPSTrueCourse : option R;
  BaroPressureAltitude : option R;
  GPSLatitude : option R;
  GPSLongitude : option R
}.

(** The module globals the modelled functions read or write.  [max_pixel],
    [zerox] and [zeroy] come from the display driver's [init()]. *)
Record state := {
  all_ac : gmap Z track;
  aircraft_changed : bool;
  situation : situation_t;
  max_pixel : R;
  zerox : R;
  zeroy : R;
  last_arcposition : Z;
  spoken : list string
}.

(** *** Field updates *)

Definition set_gps_distance (v : R) (t : track) : track :=
  {| gps_distance := Some v; was_spoken := was_spoken t;
     last_contact_timestamp := last_contact_timestamp t; height := height t;
     nspeed := nspeed t; vspeed := vspeed t; circradius := circradius t;
     arcposition := arcposition t; direction := direction t;
     ac_x := ac_x t; ac_y := ac_y t; nspeed_length := nspeed_length t |}.

Definition set_was_spoken (v : bool) (t : track) : track :=
  {| gps_distance := gps_distance t; was_spoken := Some v;
     last_contact_timestamp := last_contact_timestamp t; height := height t;
     nspeed := nspeed t; vspeed := vspeed t; circradius := circradius t;
     arcposition := arcposition t; direction := direction t;
     ac_x := ac_x t; ac_y := ac_y t; nspeed_length := nspeed_length t |}.

Definition set_last_contact_timestamp (v : R) (t : track) : track :=
  {| gps_distance := gps_distance t; was_spoken := was_spoken t;
     last_contact_timestamp := Some v; height := height t;
     nspeed := nspeed t; vspeed := vspeed t; circradius := circradius t;
     arcposition := arcposition t; direction := direction t;
     ac_x := ac_x t; ac_y := ac_y t; nspeed_length := nspeed_length t |}.

Definition set_height (v : Z) (t : track) : track :=
  {| gps_distance := gps_distance t; was_spoken := was_spoken t;
     last_contact_timestamp := last_contact_timestamp t; height := Some v;
     nspeed := nspeed t; vspeed := vspeed t; circradius := circradius t;
     arcposition := arcposition t; direction := direction t;
     ac_x := ac_x t; ac_y := ac_y t; nspeed_length := nspeed_length t |}.

Definition set_nspeed (v : R) (t : track) : track :=
  {| gps_distance := gps_distance t; was_spoken := was_spoken t;
     last_contact_timestamp := last_contact_timestamp t; height := height t;
     nspeed := Some v; vspeed := vspeed t; circradius := circradius t;
     arcposition := arcposition t; direction := direction t;
     ac_x := ac_x t; ac_y := ac_y t; nspeed_length := nspeed_length t |}.

Definition set_vspeed (v : R) (t : track) : track :=
  {| gps_distance := gps_distance t; was_spoken := was_spoken t;
     last_contact_timestamp := last_contact_timestamp t; height := height t;
     nspeed := nspeed t; vspeed := Some v; circradius := circradius t;
     arcposition := arcposition t; direction := direction t;
     ac_x := ac_x t; ac_y := ac_y t; nspeed_length := nspeed_length t |}.

(** [ac['circradius'] = v] for [Some v], [del ac['circradius']] for [None]. *)
Definition set_circradius (v : option Z) (t : track) : track :=
  {| gps_distance := gps_distance t; was_spoken := was_spoken t;
     last_contact_timestamp := last_contact_timestamp t; height := height t;
     nspeed := nspeed t; vspeed := vspeed t; circradius := v;
     arcposition := arcposition t; direction := direction t;
     ac_x := ac_x t; ac_y := ac_y t; nspeed_length := nspeed_length t |}.

Definition set_arcposition (v : Z) (t : track) : track :=
  {| gps_distance := gps_distance t; was_spoken := was_spoken t;
     last_contact_timestamp := last_contact_timestamp t; height := height t;
     nspeed := nspeed t; vspeed := vspeed t; circradius := circradius t;
     arcposition := Some v; direction := direction t;
     ac_x := ac_x t; ac_y := ac_y t; nspeed_length := nspeed_length t |}.

Definition set_direction (v : R) (t : track) : track :=
  {| gps_distance := gps_distance t; was_spoken := was_spoken t;
     last_contact_timestamp := last_contact_timestamp t; height := height t;
     nspeed := nspeed t; vspeed := vspeed t; circradius := circradius t;
     arcposition := arcposition t; direction := Some v;
     ac_x := ac_x t; ac_y := ac_y t; nspeed_length := nspeed_length t |}.

Definition set_x (v : Z) (t : track) : track :=
  {| gps_distance := gps_distance t; was_spoken := was_spoken t;
     last_contact_timestamp := last_contact_timestamp t; height := height t;
     nspeed := nspeed t; vspeed := vspeed t; circradius := circradius t;
     arcposition := arcposition t; direction := direction t;
     ac_x := Some v; ac_y := ac_y t; nspeed_length := nspeed_length t |}.

Definition set_y (v : Z) (t : track) : track :=
  {| gps_distance := gps_distance t; was_spoken := was_spoken t;
     last_contact_timestamp := last_contact_timestamp t; height := height t;
     nspeed := nspeed t; vspeed := vspeed t; circradius := circradius t;
     arcposition := arcposition t; direction := direction t;
     ac_x := ac_x t; ac_y := Some v; nspeed_length := nspeed_length t |}.

Definition set_nspeed_length (v : Z) (t : track) : track :=
  {| gps_distance := gps_distance t; was_spoken := was_spoken t;
     last_contact_timestamp := last_contact_timestamp t; height := height t;
     nspeed := nspeed t; vspeed := vspeed t; circradius := circradius t;
     arcposition := arcposition t; direction := direction t;
     ac_x := ac_x t; ac_y := ac_y t; nspeed_length := Some v |}.

(** [{'gps_distance': 0, 'was_spoken': False}] (line 192). *)
Definition fresh_track : track :=
  {| gps_distance := Some 0; was_spoken := Some false;
     last_contact_timestamp := None; height := None; nspeed := None;
     vspeed := None; circradius := None; arcposition := None;
     direction := None; ac_x := None; ac_y := None; nspeed_length := None |}.

Definition with_all_ac (f : gmap Z track → gmap Z track) (s : state) : state :=
  {| all_ac := f (all_ac s); aircraft_changed := aircraft_changed s;
     situation := situation s; max_pixel := max_pixel s; zerox := zerox s;
     zeroy := zeroy s; last_arcposition := last_arcposition s;
     spoken := spoken s |}.

Definition with_aircraft_changed (b : bool) (s : state) : state :=
  {| all_ac := all_ac s; aircraft_changed := b;
     situation := situation s; max_pixel := max_pixel s; zerox := zerox s;
     zeroy := zeroy s; last_arcposition := last_arcposition s;
     spoken := spoken s |}.

Definition with_situation (f : situation_t → situation_t) (s : state) : state :=
  {| all_ac := all_ac s; aircraft_changed := aircraft_changed s;
     situation := f (situation s); max_pixel := max_pixel s; zerox := zerox s;
     zeroy := zeroy s; last_arcposition := last_arcposition s;
     spoken := spoken s |}.

Definition with_last_arcposition (p : Z) (s : state) : state :=
  {| all_ac := all_ac s; aircraft_changed := aircraft_changed s;
     situation := situation s; max_pixel := max_pixel s; zerox := zerox s;
     zeroy := zeroy s; last_arcposition := p; spoken := spoken s |}.

Definition with_spoken (f : list string → list string) (s : state) : state :=
  {| all_ac := all_ac s; aircraft_changed := aircraft_changed s;
     situation := situation s; max_pixel := max_pixel s; zerox := zerox s;
     zeroy := zeroy s; last_arcposition := last_arcposition s;
     spoken := f (spoken s) |}.

Definition sit_set_was_changed (b : bool) (c : situation_t) : situation_t :=
  {| was_changed := b; connected := connected c; gps_active := gps_active c;
     course := course c; own_altitude := own_altitude c;
     latitude := latitude c; longitude := longitude c;
     RadarRange := RadarRange c; RadarLimits := RadarLimits c |}.

Definition sit_set_connected (b : bool) (c : situation_t) : situation_t :=
  {| was_changed := was_changed c; connected := b; gps_active := gps_active c;
     course := course c; own_altitude := own_altitude c;
     latitude := latitude c; longitude := longitude c;
     RadarRange := RadarRange c; RadarLimits := RadarLimits c |}.

Definition sit_set_gps_active (b : bool) (c : situation_t) : situation_t :=
  {| was_changed := was_changed c; connected := connected c; gps_active := b;
     course := course c; own_altitude := own_altitude c;
     latitude := latitude c; longitude := longitude c;
     RadarRange := RadarRange c; RadarLimits := RadarLimits c |}.

Definition sit_set_course (v : Z) (c : situation_t) : situation_t :=
  {| was_changed := was_changed c; connected := connected c;
     gps_active := gps_active c; course := v; own_altitude := own_altitude c;
     latitude := latitude c; longitude := longitude c;
     RadarRange := RadarRange c; RadarLimits := RadarLimits c |}.

Definition sit_set_own_altitude (v : R) (c : situation_t) : situation_t :=
  {| was_changed := was_changed c; connected := connected c;
     gps_active := gps_active c; course := course c; own_altitude := v;
     latitude := latitude c; longitude := longitude c;
     RadarRange := RadarRange c; RadarLimits := RadarLimits c |}.

Definition sit_set_latitude (v : R) (c : situation_t) : situation_t :=
  {| was_changed := was_changed c; connected := connected c;
     gps_active := gps_active c; course := course c;
     own_altitude := own_altitude c; latitude := v; longitude := longitude c;
     RadarRange := RadarRange c; RadarLimits := RadarLimits c |}.

Definition sit_set_longitude (v : R) (c : situation_t) : situation_t :=
  {| was_changed := was_changed c; connected := connected c;
     gps_active := gps_active c; course := course c;
     own_altitude := own_altitude c; latitude := latitude c; longitude := v;
     RadarRange := RadarRange c; RadarLimits := RadarLimits c |}.

Definition sit_set_RadarRange (v : R) (c : situation_t) : situation_t :=
  {| was_changed := was_changed c; connected := connected c;
     gps_active := gps_active c; course := course c;
     own_altitude := own_altitude c; latitude := latitude c;
     longitude := longitude c; RadarRange := v; RadarLimits := RadarLimits c |}.

Definition sit_set_RadarLimits (v : R) (c : situation_t) : situation_t :=
  {| was_changed := was_changed c; connected := connected c;
     gps_active := gps_active c; course := course c;
     own_altitude := own_altitude c; latitude := latitude c;
     longitude := longitude c; RadarRange := RadarRange c; RadarLimits := v |}.

(** ** Effects: module state and exceptions *)

Inductive exn :=
  | KeyError (key : string)
  | ZeroDivisionError.

Inductive result (A : Type) :=
  | Ok (a : A)
  | Raise (e : exn).
Arguments Ok {A} a.
Arguments Raise {A} e.

(** A computation reads and writes the globals and either returns or
    raises; the state it leaves is kept in both cases. *)
Definition M (A : Type) : Type := state → result A * state.

Definition ret {A} (a : A) : M A := λ s, (Ok a, s).
Definition raise {A} (e : exn) : M A := λ s, (Raise e, s).
Definition bind {A B} (m : M A) (k : A → M B) : M B :=
  λ s, match m s with
       | (Ok a, s') => k a s'
       | (Raise e, s') => (Raise e, s')
       end.

Notation "v <- m ;; k" := (bind m (λ v, k))
  (at level 100, m at next level, right associativity).
Notation "m ;; k" := (bind m (λ _, k))
  (at level 100, right associativity).

Definition modify (f : state → state) : M unit := λ s, (Ok tt, f s).
Definition gets {A} (f : state → A) : M A := λ s, (Ok (f s), s).

(** [d[key]] on a decoded dict: [KeyError] when the key is missing. *)
Definition getitem {A} (key : string) (o : option A) : M A :=
  match o with
  | Some v => ret v
  | None => raise (KeyError key)
  end.

(** [ac[key]], [key in ac] and [ac[key] = v] / [del ac[key]] where [ac] is
    the dict stored at [all_ac[icao]]: reads and writes go to the entry in
    the table, which is what the alias [ac] of the source refers to. *)
Definition ac_read {A} (key : string) (field : track → option A) (icao : Z) : M A :=
  tbl <- gets all_ac ;;
  getitem key (tbl !! icao ≫= field).

Definition ac_has {A} (field : track → option A) (icao : Z) : M bool :=
  tbl <- gets all_ac ;;
  ret (bool_decide (is_Some (tbl !! icao ≫= field))).

Definition ac_write (icao : Z) (f : track → track) : M unit :=
  modify (with_all_ac (alter f icao)).

(** True division: [a / b] raises on a zero divisor. *)
Definition pydiv (a b : R) : M R :=
  if Reqb b 0 then raise ZeroDivisionError else ret (a / b).

(** [radarbluez.speak(txt)]. *)
Definition speak (txt : string) : M unit :=
  modify (with_spoken (λ l, l ++ [txt])).

(** ** Geometry (lines 129-149) *)

Definition radians_rel (angle : R) : R :=
  let angle := if Rltb 180 angle then angle - 360 else angle in
  let angle := if Rleb angle (-180) then angle + 360 else angle in
  angle * PI / 180.

(** The body of [calc_gps_distance]; the own position is read from the
    global [situation]. *)
Definition distance_and_bearing (own_lat own_lng lat lng : R) : R * R :=
  let radius_earth := 6371008.8 in
  let avglat := radians_rel ((own_lat + lat) / 2) in
  let distlat := (radians_rel (lat - own_lat) * radius_earth) / 1852 in
  let distlng :=
    ((radians_rel (lng - own_lng) * radius_earth) / 1852) * Rabs (cos avglat) in
  let distradius := sqrt ((distlat * distlat) + (distlng * distlng)) in
  let angle :=
    if Rltb distlat 0 then degrees (PI - atan (distlng / (- distlat)))
    else if Rltb 0 distlat then degrees (- atan (distlng / (- distlat)))
    else 0 in
  (distradius, angle).

Definition calc_gps_distance (sit : situation_t) (lat lng : R) : R * R :=
  distance_and_bearing (latitude sit) (longitude sit) lat lng.

(** ** Speech (lines 152-161) *)

(** The text built at lines 153-160.  [direction] is [None] for the default
    argument; [if direction:] also skips the integer 0. *)
Definition traffic_text (hdiff : Z) (direction : option Z) : string :=
  let feet := (hdiff * 100)%Z in
  let sign := if (hdiff <? 0)%Z then "minus"%string else "plus"%string in
  let txt := "Traffic "%string in
  let txt :=
    match direction with
    | Some d => if (d =? 0)%Z then txt else (txt ++ str d ++ " o'clock ")%string
    | None => txt
    end in
  (txt ++ sign ++ " " ++ str (Z.abs feet) ++ " feet")%string.

Definition speaktraffic (hdiff : Z) (direction : option Z) : M unit :=
  speak (traffic_text hdiff direction).

(** ** Traffic ingest (lines 164-269) *)

(** Lines 172-182: the body of the range/limits branch. *)
Definition control_update (traffic : message) : M unit :=
  sit <- gets situation ;;
  rr <- getitem "RadarRange" (msg_RadarRange traffic) ;;
  changed1 <-
    (if negb (Reqb (RadarRange sit) rr)
     then modify (with_situation (sit_set_RadarRange rr)) ;; ret true
     else ret false) ;;
  sit <- gets situation ;;
  rl <- getitem "RadarLimits" (msg_RadarLimits traffic) ;;
  changed2 <-
    (if negb (Reqb (RadarLimits sit) rl)
     then modify (with_situation (sit_set_RadarLimits rl)) ;; ret true
     else ret changed1) ;;
  if changed2 then modify (with_all_ac (λ _, ∅)) else ret tt.

(** Lines 189-203: look the track up or create it, then store the fields
    every aircraft report carries.  Returns [is_new]. *)
Definition track_bookkeeping (now : R) (traffic : message) (icao : Z) : M bool :=
  tbl <- gets all_ac ;;
  is_new <-
    (if bool_decide (is_Some (tbl !! icao)) then ret false
     else modify (with_all_ac (<[icao := fresh_track]>)) ;; ret true) ;;
  age <- getitem "Age" (Age traffic) ;;
  agelast <- getitem "AgeLastAlt" (AgeLastAlt traffic) ;;
  (if Rleb age agelast
   then ac_write icao (set_last_contact_timestamp (now - age))
   else ac_write icao (set_last_contact_timestamp (now - agelast))) ;;
  alt <- getitem "Alt" (Alt traffic) ;;
  sit <- gets situation ;;
  ac_write icao (set_height (py_round ((alt - own_altitude sit) / 100))) ;;
  speed_valid <- getitem "Speed_valid" (Speed_valid traffic) ;;
  (if speed_valid : bool
   then speed <- getitem "Speed" (Speed traffic) ;; ac_write icao (set_nspeed speed)
   else ret tt) ;;
  vvel <- getitem "Vvel" (Vvel traffic) ;;
  ac_write icao (set_vspeed vvel) ;;
  ret is_new.

(** Lines 227-231: the clock position spoken with an ADS-B alert. *)
Definition clock_position (res_angle : R) : Z :=
  let oclock := py_round (res_angle / 30) in
  let oclock := if (oclock <=? 0)%Z then (oclock + 12)%Z else oclock in
  if (12 <? oclock)%Z then (oclock - 12)%Z else oclock.

(** Lines 226-238: the alert of the ADS-B branch. *)
Definition adsb_alert (icao : Z) (gps_rad res_angle : R) : M unit :=
  sit <- gets situation ;;
  if Rleb gps_rad (RadarRange sit / 2) then
    let oclock := clock_position res_angle in
    ws <- ac_read "was_spoken" was_spoken icao ;;
    if negb ws then
      h <- ac_read "height" height icao ;;
      speaktraffic h (Some oclock) ;;
      ac_write icao (set_was_spoken true)
    else ret tt
  else
    if Rleb (RadarRange sit * 0.75) gps_rad
    then ac_write icao (set_was_spoken false)
    else ret tt.

(** Lines 206-242: the branch taken when the report has a valid position
    and the own GPS is valid. *)
Definition adsb_update (traffic : message) (icao : Z) : M unit :=
  _ <- ac_read "height" height icao ;;
  has_circ <- ac_has circradius icao ;;
  (if has_circ : bool then ac_write icao (set_circradius None) else ret tt) ;;
  lat <- getitem "Lat" (Lat traffic) ;;
  lng <- getitem "Lng" (Lng traffic) ;;
  sit <- gets situation ;;
  let '(gps_rad, gps_angle) := calc_gps_distance sit lat lng in
  ac_write icao (set_gps_distance gps_rad) ;;
  (match Track traffic with
   | Some tr => ac_write icao (set_direction (tr - IZR (course sit)))
   | None => ret tt
   end) ;;
  h <- ac_read "height" height icao ;;
  if Rleb gps_rad (RadarRange sit) && Rleb (IZR (Z.abs h)) (RadarLimits sit) then
    let res_angle := gps_angle - IZR (course sit) in
    let gpsx := sin (radians res_angle) * gps_rad in
    let gpsy := - cos (radians res_angle) * gps_rad in
    mp <- gets max_pixel ;;
    zx <- gets zerox ;;
    zy <- gets zeroy ;;
    px <- pydiv (mp / 2 * gpsx) (RadarRange sit) ;;
    ac_write icao (set_x (py_round (px + zx))) ;;
    py <- pydiv (mp / 2 * gpsy) (RadarRange sit) ;;
    ac_write icao (set_y (py_round (py + zy))) ;;
    has_nspeed <- ac_has nspeed icao ;;
    (if has_nspeed : bool then
       ns <- ac_read "nspeed" nspeed icao ;;
       let nspeed_rad := ns * SPEED_ARROW_TIME / 3600 in
       pl <- pydiv (mp / 2 * nspeed_rad) (RadarRange sit) ;;
       ac_write icao (set_nspeed_length (py_round pl))
     else ret tt) ;;
    adsb_alert icao gps_rad res_angle
  else
    ac_write icao (set_x (-1)) ;;
    ac_write icao (set_y (-1)).

(** Lines 255-257: the rotating pointer of the range-only display slots. *)
Definition next_arcposition (p : Z) : Z :=
  let p := ((p + 210) mod 360)%Z in
  if (p <=? ARCPOSITION_EXCLUDE_TO)%Z && (ARCPOSITION_EXCLUDE_FROM <=? p)%Z
  then ((p + 210) mod 360)%Z
  else p.

(** Lines 262-269: the alert of the range-only branch. *)
Definition modes_alert (icao : Z) : M unit :=
  sit <- gets situation ;;
  d <- ac_read "gps_distance" gps_distance icao ;;
  if Rleb d (RadarRange sit / 2) then
    ws <- ac_read "was_spoken" was_spoken icao ;;
    if negb ws then
      h <- ac_read "height" height icao ;;
      speaktraffic h None ;;
      ac_write icao (set_was_spoken true)
    else ret tt
  else
    d <- ac_read "gps_distance" gps_distance icao ;;
    if Rltb (RadarRange sit * 0.75) d
    then ac_write icao (set_was_spoken false)
    else ret tt.

(** Lines 245-269: the branch taken otherwise. *)
Definition modes_update (traffic : message) (icao : Z) (is_new : bool) : M unit :=
  de <- getitem "DistanceEstimated" (DistanceEstimated traffic) ;;
  alt <- (if Reqb de 0 then ret 0 else getitem "Alt" (Alt traffic)) ;;
  if Reqb de 0 || Reqb alt 0 then ret tt
  else
    let distcirc := de / 1852 in
    sit <- gets situation ;;
    mp <- gets max_pixel ;;
    q <- pydiv (mp / 2 * distcirc) (RadarRange sit) ;;
    let distx := py_round q in
    has_circ <- ac_has circradius icao ;;
    (if is_new || negb has_circ then
       p <- gets last_arcposition ;;
       modify (with_last_arcposition (next_arcposition p)) ;;
       p <- gets last_arcposition ;;
       ac_write icao (set_arcposition p)
     else ret tt) ;;
    ac_write icao (set_gps_distance distcirc) ;;
    ac_write icao (set_circradius (Some distx)) ;;
    modes_alert icao.

Definition new_traffic (now : R) (traffic : message) : M unit :=
  modify (with_aircraft_changed true) ;;
  if bool_decide (is_Some (msg_RadarRange traffic))
     || bool_decide (is_Some (msg_RadarLimits traffic))
  then control_update traffic
  else
    match Icao_addr traffic with
    | None => ret tt
    | Some icao =>
        is_new <- track_bookkeeping now traffic icao ;;
        position_valid <- getitem "Position_valid" (Position_valid traffic) ;;
        sit <- gets situation ;;
        if position_valid && gps_active sit
        then adsb_update traffic icao
        else modes_update traffic icao is_new
    end.

(** ** Own-ship updates (lines 272-294) *)

Definition sit_changed (f : situation_t → situation_t) : M unit :=
  modify (with_situation f) ;;
  modify (with_situation (sit_set_was_changed true)).

Definition new_situation (sit : sit_message) : M unit :=
  cur <- gets situation ;;
  (if negb (connected cur) then sit_changed (sit_set_connected true) else ret tt) ;;
  acc <- getitem "GPSHorizontalAccuracy" (GPSHorizontalAccuracy sit) ;;
  let gps_active' := Rltb acc 19999 in
  cur <- gets situation ;;
  (if negb (eqb (gps_active cur) gps_active')
   then sit_changed (sit_set_gps_active gps_active') else ret tt) ;;
  crs <- getitem "GPSTrueCourse" (GPSTrueCourse sit) ;;
  cur <- gets situation ;;
  (if negb (course cur =? py_round crs)%Z
   then sit_changed (sit_set_course (py_round crs)) else ret tt) ;;
  baro <- getitem "BaroPressureAltitude" (BaroPressureAltitude sit) ;;
  cur <- gets situation ;;
  (if negb (Reqb (own_altitude cur) baro)
   then sit_changed (sit_set_own_altitude baro) else ret tt) ;;
  lat <- getitem "GPSLatitude" (GPSLatitude sit) ;;
  cur <- gets situation ;;
  (if negb (Reqb (latitude cur) lat)
   then sit_changed (sit_set_latitude lat) else ret tt) ;;
  lng <- getitem "GPSLongitude" (GPSLongitude sit) ;;
  cur <- gets situation ;;
  (if negb (Reqb (longitude cur) lng)
   then sit_changed (sit_set_longitude lng) else ret tt).

(** ** Eviction (lines 401-410 of [display_and_cutoff]) *)

(** The loop of lines 404-408 over [all_ac.items()]; returns [to_delete]. *)
Fixpoint cutoff_loop (cutoff : R) (items : list (Z * track)) : M (list Z) :=
  match items with
  | [] => ret []
  | (icao, ac) :: rest =>
      ts <- getitem "last_contact_timestamp" (last_contact_timestamp ac) ;;
      if Rltb ts cutoff then
        modify (with_aircraft_changed true) ;;
        to_delete <- cutoff_loop cutoff rest ;;
        ret (icao :: to_delete)
      else cutoff_loop cutoff rest
  end.

(** One sweep; [now] is the value of [time.time()] at line 403. *)
Definition cutoff_sweep (now : R) : M unit :=
  let cutoff := now - RADAR_CUTOFF in
  tbl <- gets all_ac ;;
  to_delete <- cutoff_loop cutoff (map_to_list tbl) ;;
  modify (with_all_ac (λ m, foldr delete m to_delete)).

(** ** Drawing the table (lines 90-106) *)

(** The calls made on the display driver. *)
Inductive draw_call :=
  | modesaircraft (radius : Z) (hgt : Z) (arcpos : Z)
  | aircraft (px py : Z) (dir : R) (hgt : Z) (vs : R) (line_length : Z).

(** [sorted(..., key=..., reverse=True)]: descending, equal keys keeping
    their order.  The keys are computed first, one per item. *)
Fixpoint sort_keys (items : list (Z * track)) : M (list (R * track)) :=
  match items with
  | [] => ret []
  | (_, ac) :: rest =>
      key <- getitem "gps_distance" (gps_distance ac) ;;
      keyed <- sort_keys rest ;;
      ret ((key, ac) :: keyed)
  end.

Fixpoint insert_desc (e : R * track) (l : list (R * track)) : list (R * track) :=
  match l with
  | [] => [e]
  | e' :: l' => if Rltb e.1 e'.1 then e' :: insert_desc e l' else e :: l
  end.

Definition sort_desc (l : list (R * track)) : list (R * track) :=
  foldr insert_desc [] l.

Fixpoint draw_modes (l : list (R * track)) : M (list draw_call) :=
  match l with
  | [] => ret []
  | (_, ac) :: rest =>
      mp <- gets max_pixel ;;
      here <-
        (match circradius ac with
         | Some r =>
             if Rleb (IZR r) (mp / 2) then
               h <- getitem "height" (height ac) ;;
               a <- getitem "arcposition" (arcposition ac) ;;
               ret [modesaircraft r h a]
             else ret []
         | None => ret []
         end) ;;
      more <- draw_modes rest ;;
      ret (here ++ more)
  end.

Fixpoint draw_adsb (l : list (R * track)) : M (list draw_call) :=
  match l with
  | [] => ret []
  | (_, ac) :: rest =>
      mp <- gets max_pixel ;;
      here <-
        (match ac_x ac with
         | Some px =>
             if Rltb 0 (IZR px) && Rleb (IZR px) mp then
               py <- getitem "y" (ac_y ac) ;;
               if Rleb (IZR py) mp then
                 let line_length := default 0%Z (nspeed_length ac) in
                 d <- getitem "direction" (direction ac) ;;
                 h <- getitem "height" (height ac) ;;
                 v <- getitem "vspeed" (vspeed ac) ;;
                 ret [aircraft px py d h v line_length]
               else ret []
             else ret []
         | None => ret []
         end) ;;
      more <- draw_adsb rest ;;
      ret (here ++ more)
  end.

(** The table is walked in the order of [map_to_list]; the source walks it
    in insertion order, which only matters for the order of equal keys. *)
Definition draw_all_ac (allac : gmap Z track) : M (list draw_call) :=
  keyed <- sort_keys (map_to_list allac) ;;
  let dist_sorted := sort_desc keyed in
  first <- draw_modes dist_sorted ;;
  second <- draw_adsb dist_sorted ;;
  ret (first ++ second).

(** ** Redrawing the display (lines 109-126 of [radar.py]) *)

(** The globals of [radar.py] that [draw_display] reads or writes: those of
    [state] and the user-interface ones of lines 73, 84 and 85. *)
Record display_globals := {
  core : state;
  ui_changed : bool;
  bt_devices : Z;
  sound_on : bool
}.

Definition with_core (s : state) (a : display_globals) : display_globals :=
  {| core := s; ui_changed := ui_changed a; bt_devices := bt_devices a;
     sound_on := sound_on a |}.

(** The calls [draw_display] makes on the display driver. *)
Inductive display_call :=
  | d_clear
  | d_situation (is_connected is_gps_active : bool) (altitude : R) (crs : Z)
      (range limits : R) (devices : Z) (sound : bool)
  | d_track (c : draw_call)
  | d_display.

(** Line 116: one of the three change flags is set. *)
Definition needs_redraw (a : display_globals) : bool :=
  was_changed (situation (core a)) || aircraft_changed (core a) || ui_changed a.

(** The calls are returned when the function returns; when [draw_all_ac]
    raises, the exception leaves [draw_display] before line 123 and the
    flags keep their values. *)
Definition draw_display (a : display_globals)
    : result (list display_call) * display_globals :=
  let s := core a in
  let sit := situation s in
  if needs_redraw a then
    let head :=
      [d_clear;
       d_situation (connected sit) (gps_active sit) (own_altitude sit)
         (course sit) (RadarRange sit) (RadarLimits sit) (bt_devices a)
         (sound_on a)] in
    match draw_all_ac (all_ac s) s with
    | (Ok tracks, s') =>
        (Ok (head ++ map d_track tracks ++ [d_display]),
         {| core := with_aircraft_changed false
                      (with_situation (sit_set_was_changed false) s');
            ui_changed := false; bt_devices := bt_devices a;
            sound_on := sound_on a |})
    | (Raise e, s') => (Raise e, with_core s' a)
    end
  else (Ok [], a).

(** ** The shutdown dialogue ([shutdownui.py]) *)

Module shutdownui.

Definition SHUTDOWN_WAIT_TIME : R := 6.

(** The module globals (lines 40-41). *)
Record globals := {
  shutdown_time : R;
  clear_before_shutoff : bool
}.

Definition initial : globals :=
  {| shutdown_time := 0; clear_before_shutoff := false |}.

Definition set_shutdown_time (v : R) (g : globals) : globals :=
  {| shutdown_time := v; clear_before_shutoff := clear_before_shutoff g |}.

Definition set_clear_before_shutoff (b : bool) (g : globals) : globals :=
  {| shutdown_time := shutdown_time g; clear_before_shutoff := b |}.

(** What [draw_shutdown] does to the outside: the calls on the display
    driver, and [Poweroff] for [os.popen("sudo shutdown --poweroff now")]. *)
Inductive call :=
  | Clear
  | Shutdown (rest_time : Z)
  | Display
  | Cleanup
  | Poweroff.

(** [int(x)] on a float: truncation toward zero. *)
Definition py_int (v : R) : Z :=
  if Rleb 0 v then Int_part v else (- Int_part (- v))%Z.

(** [draw_shutdown] (lines 44-62); [now] is the value of [time.time()] at
    line 49.  Returns the calls made and the result. *)
Definition draw_shutdown (now : R) (g : globals) : list call * bool * globals :=
  let shown :=
    if Rltb 0 (shutdown_time g) then
      let rest_time := py_int (shutdown_time g - now) in
      let rest_time := if (rest_time <? 0)%Z then 0%Z else rest_time in
      [Clear; Shutdown rest_time; Display]
    else [] in
  if clear_before_shutoff g
  then (shown ++ [Cleanup; Poweroff], true, set_clear_before_shutoff false g)
  else (shown, false, g).

(** [user_input] (lines 65-79); [t_start] and [t_check] are the values of
    [time.time()] at lines 70 and 75, [btime] is the first component of
    [radarbuttons.check_buttons()]. *)
Definition user_input (t_start btime t_check : R) (g : globals) : Z * globals :=
  let g :=
    if Reqb (shutdown_time g) 0
    then set_shutdown_time (t_start + SHUTDOWN_WAIT_TIME) g else g in
  if Rltb 0 btime then (1%Z, set_shutdown_time 0 g)
  else
    let g :=
      if Rltb (shutdown_time g) t_check
      then set_clear_before_shutoff true g else g in
    (3%Z, g).

(** The user interface polls [user_input] while no button is pressed; each
    poll reads the clock at [t_start] and [t_check]. *)
Fixpoint idle_polls (polls : list (R * R)) (g : globals) : globals :=
  match polls with
  | [] => g
  | (t_start, t_check) :: rest =>
      idle_polls rest (user_input t_start 0 t_check g).2
  end.

End shutdownui.

(** * Closed forms, invariants and sample data *)

(** ** Running the monad *)

(** The state after [all_ac[icao] = t]. *)
Definition put_ac (icao : Z) (t : track) (s : state) : state :=
  with_all_ac (<[icao := t]>) s.

(** ** Closed forms of the blocks of [new_traffic]

    Each block of [new_traffic] writes to one entry of the table.  The
    functions below give the entry a block leaves as a function of the
    entry it found, and the lemmas named [_run] show that the block, run on
    a table holding the entry, returns normally and leaves exactly that
    state. *)

Definition last_contact (now age agelast : R) : R :=
  if Rleb age agelast then now - age else now - agelast.

Definition bookkept (now age agelast alt own_alt : R) (speed : option R)
    (vvel : R) (t : track) : track :=
  let t := set_last_contact_timestamp (last_contact now age agelast) t in
  let t := set_height (py_round ((alt - own_alt) / 100)) t in
  let t := match speed with Some v => set_nspeed v t | None => t end in
  set_vspeed vvel t.

(** The flag [was_spoken] after the alert block of the ADS-B branch. *)
Definition adsb_alerted (range gps_rad : R) (t : track) : track :=
  if Rleb gps_rad (range / 2) then
    match was_spoken t with
    | Some false => set_was_spoken true t
    | _ => t
    end
  else if Rleb (range * 0.75) gps_rad then set_was_spoken false t else t.

(** The texts the alert block of the ADS-B branch speaks. *)
Definition adsb_texts (range gps_rad res_angle : R) (t : track) : list string :=
  if Rleb gps_rad (range / 2) then
    match was_spoken t, height t with
    | Some false, Some h => [traffic_text h (Some (clock_position res_angle))]
    | _, _ => []
    end
  else [].

(** The same for the range-only branch. *)
Definition modes_alerted (range d : R) (t : track) : track :=
  if Rleb d (range / 2) then
    match was_spoken t with
    | Some false => set_was_spoken true t
    | _ => t
    end
  else if Rltb (range * 0.75) d then set_was_spoken false t else t.

Definition modes_texts (range d : R) (t : track) : list string :=
  if Rleb d (range / 2) then
    match was_spoken t, height t with
    | Some false, Some h => [traffic_text h None]
    | _, _ => []
    end
  else [].

(** Line 216: inside the configured range and altitude band. *)
Definition in_limits (sit : situation_t) (gps_rad : R) (h : Z) : bool :=
  Rleb gps_rad (RadarRange sit) && Rleb (IZR (Z.abs h)) (RadarLimits sit).

(** Lines 217-221: the pixel a target is drawn at. *)
Definition screen_x (mp zx range : R) (crs : Z) (gps_rad gps_angle : R) : Z :=
  py_round (mp / 2 * (sin (radians (gps_angle - IZR crs)) * gps_rad) / range + zx).

Definition screen_y (mp zy range : R) (crs : Z) (gps_rad gps_angle : R) : Z :=
  py_round (mp / 2 * (- cos (radians (gps_angle - IZR crs)) * gps_rad) / range + zy).

(** The entry after lines 208-214 of the ADS-B branch: the range-only
    radius is deleted, distance and direction are stored. *)
Definition adsb_located (s : state) (m : message) (lat lng : R) (t : track) : track :=
  let sit := situation s in
  let gps_rad := (calc_gps_distance sit lat lng).1 in
  let t := if bool_decide (is_Some (circradius t)) then set_circradius None t else t in
  let t := set_gps_distance gps_rad t in
  match Track m with
  | Some tr => set_direction (tr - IZR (course sit)) t
  | None => t
  end.

(** The entry left by the whole ADS-B branch. *)
Definition adsb_tracked (s : state) (m : message) (lat lng : R) (t : track) : track :=
  let sit := situation s in
  let gps_rad := (calc_gps_distance sit lat lng).1 in
  let gps_angle := (calc_gps_distance sit lat lng).2 in
  let t := adsb_located s m lat lng t in
  if in_limits sit gps_rad (default 0%Z (height t)) then
    let t := set_x (screen_x (max_pixel s) (zerox s) (RadarRange sit) (course sit)
                      gps_rad gps_angle) t in
    let t := set_y (screen_y (max_pixel s) (zeroy s) (RadarRange sit) (course sit)
                      gps_rad gps_angle) t in
    let t :=
      match nspeed t with
      | Some ns =>
          set_nspeed_length
            (py_round (max_pixel s / 2 * (ns * SPEED_ARROW_TIME / 3600) / RadarRange sit)) t
      | None => t
      end in
    adsb_alerted (RadarRange sit) gps_rad t
  else set_y (-1) (set_x (-1) t).

(** The texts spoken by the ADS-B branch. *)
Definition adsb_said (s : state) (lat lng : R) (t : track) : list string :=
  let sit := situation s in
  let gps_rad := (calc_gps_distance sit lat lng).1 in
  let gps_angle := (calc_gps_distance sit lat lng).2 in
  if in_limits sit gps_rad (default 0%Z (height t))
  then adsb_texts (RadarRange sit) gps_rad (gps_angle - IZR (course sit)) t
  else [].

(** The entry, the pointer and the texts left by the range-only branch
    when it does not return early. *)
Definition modes_tracked (s : state) (de : R) (t : track) : track :=
  let sit := situation s in
  let distcirc := de / 1852 in
  let distx := py_round (max_pixel s / 2 * distcirc / RadarRange sit) in
  let t :=
    if bool_decide (is_Some (circradius t)) then t
    else set_arcposition (next_arcposition (last_arcposition s)) t in
  let t := set_circradius (Some distx) (set_gps_distance distcirc t) in
  modes_alerted (RadarRange sit) distcirc t.

Definition modes_pointer (s : state) (t : track) : Z :=
  if bool_decide (is_Some (circradius t)) then last_arcposition s
  else next_arcposition (last_arcposition s).

Definition modes_said (s : state) (de : R) (t : track) : list string :=
  modes_texts (RadarRange (situation s)) (de / 1852) t.

(** ** The table invariant

    Every entry carries the five keys that every aircraft report stores. *)

Definition complete_track (t : track) : Prop :=
  is_Some (gps_distance t) ∧ is_Some (was_spoken t) ∧
  is_Some (last_contact_timestamp t) ∧ is_Some (height t) ∧
  is_Some (vspeed t).

Definition complete_table (tbl : gmap Z track) : Prop :=
  ∀ k t, tbl !! k = Some t → complete_track t.

(** ** Normal returns of [new_traffic], in closed form *)

(** The state after lines 172-182 on a message carrying both keys. *)
Definition control_applied (rr rl : R) (s : state) : state :=
  let s1 :=
    if Reqb (RadarRange (situation s)) rr then s
    else with_situation (sit_set_RadarRange rr) s in
  let s2 :=
    if Reqb (RadarLimits (situation s)) rl then s1
    else with_situation (sit_set_RadarLimits rl) s1 in
  if Reqb (RadarRange (situation s)) rr && Reqb (RadarLimits (situation s)) rl
  then s2 else with_all_ac (λ _, ∅) s2.

(** The message is an aircraft report with all the keys that lines 189-205
    read. *)
Definition aircraft_report (m : message) (icao : Z) (age agelast alt : R)
    (sv : bool) (vvel : R) (pv : bool) : Prop :=
  msg_RadarRange m = None ∧ msg_RadarLimits m = None ∧
  Icao_addr m = Some icao ∧ Age m = Some age ∧ AgeLastAlt m = Some agelast ∧
  Alt m = Some alt ∧ Speed_valid m = Some sv ∧
  (sv = true → is_Some (Speed m)) ∧ Vvel m = Some vvel ∧
  Position_valid m = Some pv.

(** The entry of [icao] after lines 189-203. *)
Definition found (now : R) (m : message) (icao : Z) (age agelast alt : R)
    (sv : bool) (vvel : R) (s : state) : track :=
  bookkept now age agelast alt (own_altitude (situation s))
    (if sv then Speed m else None) vvel
    (default fresh_track (all_ac s !! icao)).

(** The relative height stored at line 199. *)
Definition rel_height (alt : R) (s : state) : Z :=
  py_round ((alt - own_altitude (situation s)) / 100).

Inductive ingested (now : R) (m : message) (s : state) : state → Prop :=
  | ingested_control rr rl :
      msg_RadarRange m = Some rr → msg_RadarLimits m = Some rl →
      ingested now m s (control_applied rr rl (with_aircraft_changed true s))
  | ingested_steering :
      msg_RadarRange m = None → msg_RadarLimits m = None →
      Icao_addr m = None →
      ingested now m s (with_aircraft_changed true s)
  | ingested_adsb icao age agelast alt sv vvel lat lng :
      aircraft_report m icao age agelast alt sv vvel true →
      gps_active (situation s) = true →
      Lat m = Some lat → Lng m = Some lng →
      in_limits (situation s) (calc_gps_distance (situation s) lat lng).1
          (rel_height alt s)
        && Reqb (RadarRange (situation s)) 0 = false →
      ingested now m s
        (put_ac icao
           (adsb_tracked s m lat lng (found now m icao age agelast alt sv vvel s))
           (with_spoken
              (λ l, l ++ adsb_said s lat lng
                           (found now m icao age agelast alt sv vvel s))
              (with_aircraft_changed true s)))
  | ingested_skipped icao age agelast alt sv vvel pv de :
      aircraft_report m icao age agelast alt sv vvel pv →
      pv && gps_active (situation s) = false →
      DistanceEstimated m = Some de → de = 0 ∨ alt = 0 →
      ingested now m s
        (put_ac icao (found now m icao age agelast alt sv vvel s)
           (with_aircraft_changed true s))
  | ingested_modes icao age agelast alt sv vvel pv de :
      aircraft_report m icao age agelast alt sv vvel pv →
      pv && gps_active (situation s) = false →
      DistanceEstimated m = Some de → de ≠ 0 → alt ≠ 0 →
      RadarRange (situation s) ≠ 0 →
      ingested now m s
        (put_ac icao
           (modes_tracked s de (found now m icao age agelast alt sv vvel s))
           (with_spoken
              (λ l, l ++ modes_said s de
                           (found now m icao age agelast alt sv vvel s))
              (with_last_arcposition
                 (modes_pointer s (found now m icao age agelast alt sv vvel s))
                 (with_aircraft_changed true s)))).

(** ** Commands that keep a property of the state, whatever they return *)

Definition preserving {A} (P : state → Prop) (c : M A) : Prop :=
  ∀ s, P s → P (c s).2.

Definition complete (s : state) : Prop := complete_table (all_ac s).

(** The table is complete and has an entry for [icao]. *)
Definition tracked (icao : Z) (s : state) : Prop :=
  complete_table (all_ac s) ∧ is_Some (all_ac s !! icao).

(** ** The eviction sweep in closed form *)

(** Line 405: the entry is older than the cutoff. *)
Definition stale (cutoff : R) (t : track) : bool :=
  match last_contact_timestamp t with
  | Some ts => Rltb ts cutoff
  | None => false
  end.

Fixpoint stale_keys (cutoff : R) (items : list (Z * track)) : list Z :=
  match items with
  | [] => []
  | (k, t) :: rest =>
      if stale cutoff t then k :: stale_keys cutoff rest
      else stale_keys cutoff rest
  end.

(** ** Sample data *)

(** The initial value of [situation] (lines 74-75). *)
Definition situation0 : situation_t :=
  {| was_changed := true; connected := false; gps_active := false;
     course := 0; own_altitude := -99; latitude := 0; longitude := 0;
     RadarRange := 5; RadarLimits := 10000 |}.

(** The globals at start-up, for a display of 200 by 200 pixels. *)
Definition state0 : state :=
  {| all_ac := ∅; aircraft_changed := true; situation := situation0;
     max_pixel := 200; zerox := 100; zeroy := 100; last_arcposition := 0;
     spoken := [] |}.

(** An entry as a range-only report leaves it. *)
Definition sample_track (ts : R) : track :=
  {| gps_distance := Some 1; was_spoken := Some true;
     last_contact_timestamp := Some ts; height := Some 31%Z; nspeed := None;
     vspeed := Some 0; circradius := Some 20%Z; arcposition := Some 60%Z;
     direction := None; ac_x := None; ac_y := None; nspeed_length := None |}.

(** A table with an old and a recent entry. *)
Definition state2 : state :=
  with_all_ac (λ _, <[1%Z := sample_track 50]> (<[2%Z := sample_track 90]> ∅))
    state0.

(** An aircraft report without position: the feed's range-only shape. *)
Definition range_only (icao : Z) (de alt : R) : message :=
  {| msg_RadarRange := None; msg_RadarLimits := None; Icao_addr := Some icao;
     Age := Some 0; AgeLastAlt := Some 1; Alt := Some alt;
     Speed_valid := Some false; Speed := None; Vvel := Some 0;
     Position_valid := Some false; Lat := None; Lng := None; Track := None;
     DistanceEstimated := Some de |}.

(** An aircraft report with a position. *)
Definition positional (icao : Z) (lat lng alt : R) : message :=
  {| msg_RadarRange := None; msg_RadarLimits := None; Icao_addr := Some icao;
     Age := Some 0; AgeLastAlt := Some 1; Alt := Some alt;
     Speed_valid := Some false; Speed := None; Vvel := Some 0;
     Position_valid := Some true; Lat := Some lat; Lng := Some lng;
     Track := None; DistanceEstimated := Some 0 |}.

(** A control message; either key may be missing. *)
Definition control (rr rl : option R) : message :=
  {| msg_RadarRange := rr; msg_RadarLimits := rl; Icao_addr := None;
     Age := None; AgeLastAlt := None; Alt := None; Speed_valid := None;
     Speed := None; Vvel := None; Position_valid := None; Lat := None;
     Lng := None; Track := None; DistanceEstimated := None |}.

(** ** C6: display slots of range-only tracks *)

(** The traffic listener of [listen_forever]: the callback runs on each
    message in turn, and an exception ends the loop. *)
Fixpoint ingest_all (feed : list (R * message)) : M unit :=
  match feed with
  | [] => ret tt
  | (now, m) :: rest => new_traffic now m ;; ingest_all rest
  end.

(** No entry of the table has its slot in the sector from 130 (included)
    to 230 (excluded). *)
Definition arcs_outside (tbl : gmap Z track) : Prop :=
  ∀ k t a, tbl !! k = Some t → arcposition t = Some a →
    ¬ (130 <= a < 230)%Z.

(** ** More sample data *)

(** The own GPS is valid; the aircraft is at 48 N 11 E, heading 350. *)
Definition situation3 : situation_t :=
  {| was_changed := false; connected := true; gps_active := true;
     course := 350; own_altitude := 2000; latitude := 48; longitude := 11;
     RadarRange := 5; RadarLimits := 10000 |}.

(** One range-only track (address 1) and one ADS-B track (address 2). *)
Definition adsb_track : track :=
  {| gps_distance := Some 3; was_spoken := Some false;
     last_contact_timestamp := Some 90; height := Some 10%Z; nspeed := None;
     vspeed := Some 0; circradius := None; arcposition := None;
     direction := Some 45; ac_x := Some 120%Z; ac_y := Some 80%Z;
     nspeed_length := None |}.

Definition state3 : state :=
  {| all_ac := <[1%Z := sample_track 50]> (<[2%Z := adsb_track]> ∅);
     aircraft_changed := false; situation := situation3; max_pixel := 200;
     zerox := 100; zeroy := 100; last_arcposition := 60; spoken := [] |}.

(** ** C3: classification of the entries *)

(** What holds of every entry: the distance is present, [x] and [y] come
    together, and a [circradius] comes with an [arcposition]. *)
Definition consistent_track (t : track) : Prop :=
  is_Some (gps_distance t) ∧
  (is_Some (ac_x t) ↔ is_Some (ac_y t)) ∧
  (is_Some (circradius t) → is_Some (arcposition t)).

Definition consistent_table (tbl : gmap Z track) : Prop :=
  ∀ k t, tbl !! k = Some t → consistent_track t.

(** ** C10: the five keys every entry carries *)

(** The radar feed's message shapes: a control message, a message without
    address, or an aircraft report with the keys of lines 195-203. *)
Definition feed_shaped (m : message) : Prop :=
  is_Some (msg_RadarRange m) ∨ is_Some (msg_RadarLimits m) ∨
  Icao_addr m = None ∨
  ∃ age agelast alt sv vvel,
    Age m = Some age ∧ AgeLastAlt m = Some agelast ∧ Alt m = Some alt ∧
    Speed_valid m = Some sv ∧ (sv = true → is_Some (Speed m)) ∧
    Vvel m = Some vvel.

(** ** C9: the screen position of an ADS-B target *)

(** The pixel of lines 211-221 as a function of the display geometry, the
    own course and position, the target position and the range. *)
Definition screen_position (mp zx zy : R) (crs : Z)
    (own_lat own_lng lat lng range : R) : Z * Z :=
  let g := distance_and_bearing own_lat own_lng lat lng in
  (screen_x mp zx range crs g.1 g.2, screen_y mp zy range crs g.1 g.2).

(** ** C1: alert hysteresis *)

(** The alert flag and the stored distance of the track of address [k]. *)
Definition flag (s : state) (k : Z) : option bool :=
  all_ac s !! k ≫= was_spoken.

Definition distance (s : state) (k : Z) : option R :=
  all_ac s !! k ≫= gps_distance.

(** Processing [m] from [s] to [s'] spoke an alert for address [k]. *)
Definition alert_spoken (m : message) (k : Z) (s s' : state) : Prop :=
  Icao_addr m = Some k ∧ ∃ txt, spoken s' = spoken s ++ [txt].




(** A range under which one hundredth of a degree of latitude is a quarter
    of the range, so that three hundredths are exactly three quarters. *)
Definition boundary_range : R := 4 * ((0.01 - 0) * PI / 180 * 6371008.8 / 1852).

Definition situation_b : situation_t :=
  {| was_changed := true; connected := true; gps_active := true;
     course := 0; own_altitude := 0; latitude := 0; longitude := 0;
     RadarRange := boundary_range; RadarLimits := 10000 |}.

Definition state_b : state :=
  {| all_ac := ∅; aircraft_changed := true; situation := situation_b;
     max_pixel := 200; zerox := 100; zeroy := 100; last_arcposition := 0;
     spoken := [] |}.

(** ** [new_situation] in closed form *)

(** One of the six updates of lines 276-294: the field is stored and the
    situation flagged when [differs] says that the value is new. *)
Definition sit_update (differs : bool) (f : situation_t → situation_t)
    (c : situation_t) : situation_t :=
  if differs then sit_set_was_changed true (f c) else c.

(** The situation [new_situation] leaves: the updates are made in the order
    of the source, up to the first key the message lacks. *)
Definition situation_after (m : sit_message) (c : situation_t) : situation_t :=
  let c := sit_update (negb (connected c)) (sit_set_connected true) c in
  match GPSHorizontalAccuracy m with
  | None => c
  | Some acc =>
      let c := sit_update (negb (eqb (gps_active c) (Rltb acc 19999)))
                 (sit_set_gps_active (Rltb acc 19999)) c in
      match GPSTrueCourse m with
      | None => c
      | Some crs =>
          let c := sit_update (negb (course c =? py_round crs)%Z)
                     (sit_set_course (py_round crs)) c in
          match BaroPressureAltitude m with
          | None => c
          | Some baro =>
              let c := sit_update (negb (Reqb (own_altitude c) baro))
                         (sit_set_own_altitude baro) c in
              match GPSLatitude m with
              | None => c
              | Some lat =>
                  let c := sit_update (negb (Reqb (latitude c) lat))
                             (sit_set_latitude lat) c in
                  match GPSLongitude m with
                  | None => c
                  | Some lng =>
                      sit_update (negb (Reqb (longitude c) lng))
                        (sit_set_longitude lng) c
                  end
              end
          end
      end
  end.

(** The first key, in the order the source reads them, that the message
    lacks. *)
Definition first_missing (m : sit_message) : option string :=
  match GPSHorizontalAccuracy m, GPSTrueCourse m, BaroPressureAltitude m,
        GPSLatitude m, GPSLongitude m with
  | None, _, _, _, _ => Some "GPSHorizontalAccuracy"%string
  | _, None, _, _, _ => Some "GPSTrueCourse"%string
  | _, _, None, _, _ => Some "BaroPressureAltitude"%string
  | _, _, _, None, _ => Some "GPSLatitude"%string
  | _, _, _, _, None => Some "GPSLongitude"%string
  | _, _, _, _, _ => None
  end.

(** A complete situation message. *)
Definition own_ship (acc crs baro lat lng : R) : sit_message :=
  {| GPSHorizontalAccuracy := Some acc; GPSTrueCourse := Some crs;
     BaroPressureAltitude := Some baro; GPSLatitude := Some lat;
     GPSLongitude := Some lng |}.


(** ** What an aircraft report leaves alone *)

(** Between [s0] and [s] the entry of address [k], the situation and the
    display geometry are the same. *)
Definition framed (k : Z) (s0 s : state) : Prop :=
  all_ac s !! k = all_ac s0 !! k ∧ situation s = situation s0 ∧
  max_pixel s = max_pixel s0 ∧ zerox s = zerox s0 ∧ zeroy s = zeroy s0.

(** ** [draw_all_ac] in closed form *)

(** The keys [draw_all_ac] reads are present: the sort key, the height
    and vertical speed, the slot of an entry with a radius, and [y] and
    [direction] of an entry with [x]. *)
Definition drawable_track (t : track) : Prop :=
  is_Some (gps_distance t) ∧ is_Some (height t) ∧ is_Some (vspeed t) ∧
  (is_Some (circradius t) → is_Some (arcposition t)) ∧
  (is_Some (ac_x t) → is_Some (ac_y t) ∧ is_Some (direction t)).

Definition drawable_table (tbl : gmap Z track) : Prop :=
  ∀ k t, tbl !! k = Some t → drawable_track t.

(** The call of the first loop (lines 94-96) for one entry, if any. *)
Definition modes_call (mp : R) (ac : track) : list draw_call :=
  match circradius ac, height ac, arcposition ac with
  | Some r, Some h, Some a =>
      if Rleb (IZR r) (mp / 2) then [modesaircraft r h a] else []
  | _, _, _ => []
  end.

(** The call of the second loop (lines 99-106) for one entry, if any. *)
Definition adsb_call (mp : R) (ac : track) : list draw_call :=
  match ac_x ac, ac_y ac, direction ac, height ac, vspeed ac with
  | Some px, Some py, Some d, Some h, Some v =>
      if Rltb 0 (IZR px) && Rleb (IZR px) mp && Rleb (IZR py) mp
      then [aircraft px py d h v (default 0%Z (nspeed_length ac))]
      else []
  | _, _, _, _, _ => []
  end.

(** The items of the table with their sort keys. *)
Definition keyed_items (items : list (Z * track)) : list (R * track) :=
  map (λ it, (default 0 (gps_distance it.2), it.2)) items.


(** ** One more sample *)

(** An entry as the first report with a position but without ['Track']
    leaves it: a pixel on the screen and no [direction]. *)
Definition untracked : track :=
  {| gps_distance := Some 1; was_spoken := Some true;
     last_contact_timestamp := Some 90; height := Some 10%Z; nspeed := None;
     vspeed := Some 0; circradius := None; arcposition := None;
     direction := None; ac_x := Some 100%Z; ac_y := Some 75%Z;
     nspeed_length := None |}.

Definition untracked_state : state :=
  with_all_ac (λ _, <[5%Z := untracked]> ∅) state0.

(** * Properties *)

(** ** Comparisons and rounding *)

Lemma Rleb_true a b : a <= b → Rleb a b = true.
Proof. intros. unfold Rleb. by apply bool_decide_eq_true. Qed.

Lemma Rleb_false a b : b < a → Rleb a b = false.
Proof. intros. unfold Rleb. apply bool_decide_eq_false. lra. Qed.

Lemma Rltb_true a b : a < b → Rltb a b = true.
Proof. intros. unfold Rltb. by apply bool_decide_eq_true. Qed.

Lemma Rltb_false a b : b <= a → Rltb a b = false.
Proof. intros. unfold Rltb. apply bool_decide_eq_false. lra. Qed.

Lemma Reqb_true a b : a = b → Reqb a b = true.
Proof. intros. unfold Reqb. by apply bool_decide_eq_true. Qed.

Lemma Reqb_false a b : a ≠ b → Reqb a b = false.
Proof. intros. unfold Reqb. by apply bool_decide_eq_false. Qed.

Lemma Rleb_le a b : Rleb a b = true → a <= b.
Proof. unfold Rleb. apply bool_decide_eq_true. Qed.

Lemma Rleb_gt a b : Rleb a b = false → b < a.
Proof. unfold Rleb. intros H%bool_decide_eq_false. lra. Qed.

Lemma Rltb_lt a b : Rltb a b = true → a < b.
Proof. unfold Rltb. apply bool_decide_eq_true. Qed.

Lemma Rltb_ge a b : Rltb a b = false → b <= a.
Proof. unfold Rltb. intros H%bool_decide_eq_false. lra. Qed.

Lemma Reqb_eq a b : Reqb a b = true → a = b.
Proof. unfold Reqb. apply bool_decide_eq_true. Qed.

Lemma Reqb_neq a b : Reqb a b = false → a ≠ b.
Proof. unfold Reqb. apply bool_decide_eq_false. Qed.

(** Turn every decided comparison among the hypotheses into its
    proposition. *)
Ltac reflect_cmp :=
  repeat match goal with
    | H : Rleb _ _ = true |- _ => apply Rleb_le in H
    | H : Rleb _ _ = false |- _ => apply Rleb_gt in H
    | H : Rltb _ _ = true |- _ => apply Rltb_lt in H
    | H : Rltb _ _ = false |- _ => apply Rltb_ge in H
    | H : Reqb _ _ = true |- _ => apply Reqb_eq in H
    | H : Reqb _ _ = false |- _ => apply Reqb_neq in H
    end.

(** Decide the comparisons of the goal whose outcome [lra] can settle. *)
Ltac decide_cmp :=
  repeat first
    [ rewrite Rleb_true by lra | rewrite Rleb_false by lra
    | rewrite Rltb_true by lra | rewrite Rltb_false by lra
    | rewrite Reqb_true by lra | rewrite Reqb_false by lra ].

Lemma Int_part_frac v z :
  IZR z <= v < IZR z + 1 → Int_part v = z ∧ frac_part v = v - IZR z.
Proof.
  intros H.
  destruct (Int_part_frac_part_spec v z (v - IZR z)) as [-> ->]; [lra|lra|done].
Qed.

(** Away from the ties, [round] is the nearest integer. *)
Lemma py_round_near v z : IZR z - 1 / 2 < v < IZR z + 1 / 2 → py_round v = z.
Proof.
  intros H. unfold py_round.
  destruct (Rle_dec (IZR z) v) as [Hle|Hlt].
  - destruct (Int_part_frac v z) as [-> ->]; [lra|].
    by rewrite Rltb_true by lra.
  - destruct (Int_part_frac v (z - 1)) as [-> ->].
    { rewrite minus_IZR. lra. }
    rewrite minus_IZR, Rltb_false, Rltb_true by lra. lia.
Qed.

(** At a tie the even neighbour wins. *)
Lemma py_round_tie v z : v = IZR z + 1 / 2 →
  py_round v = if Z.even z then z else (z + 1)%Z.
Proof.
  intros ->. unfold py_round.
  destruct (Int_part_frac (IZR z + 1 / 2) z) as [-> ->]; [lra|].
  by rewrite !Rltb_false by lra.
Qed.

Lemma py_round_IZR z : py_round (IZR z) = z.
Proof. apply py_round_near. lra. Qed.

(** [round] moves a number by at most one half. *)
Lemma py_round_bound v : Rabs (IZR (py_round v) - v) <= 1 / 2.
Proof.
  pose proof (base_fp v) as [Hf0 Hf1].
  pose proof (Rplus_Int_part_frac_part v) as Hv.
  unfold py_round.
  destruct (Rltb _ _) eqn:E1; [|destruct (Rltb (1/2) _) eqn:E2;
    [|destruct (Z.even _)]]; reflect_cmp; rewrite ?plus_IZR;
    apply Rabs_le; lra.
Qed.

Lemma py_round_interval v : v - 1 / 2 <= IZR (py_round v) <= v + 1 / 2.
Proof.
  pose proof (py_round_bound v) as H. revert H. unfold Rabs.
  destruct (Rcase_abs _); lra.
Qed.

(** ** Running the monad *)

Lemma bind_Ok {A B} (m : M A) (k : A → M B) s a s1 :
  m s = (Ok a, s1) → bind m k s = k a s1.
Proof. unfold bind. by intros ->. Qed.

Lemma bind_Raise {A B} (m : M A) (k : A → M B) s e s1 :
  m s = (Raise e, s1) → bind m k s = (Raise e, s1).
Proof. unfold bind. by intros ->. Qed.

Lemma bind_inv {A B} (m : M A) (k : A → M B) s r s' :
  bind m k s = (r, s') →
  (∃ a s1, m s = (Ok a, s1) ∧ k a s1 = (r, s')) ∨
  (∃ e, m s = (Raise e, s') ∧ r = Raise e).
Proof.
  unfold bind. destruct (m s) as [[a|e] s1]; intros H.
  - left. eauto.
  - right. exists e. by inversion H.
Qed.

Lemma alter_known (f : track → track) (i : Z) (m : gmap Z track) t :
  m !! i = Some t → alter f i m = <[i := f t]> m.
Proof.
  intros H. apply map_eq. intros j. destruct (decide (i = j)) as [->|Hne].
  - by rewrite lookup_alter_eq, lookup_insert_eq, H.
  - by rewrite lookup_alter_ne, lookup_insert_ne.
Qed.

Lemma ac_write_run icao f s t :
  all_ac s !! icao = Some t → ac_write icao f s = (Ok tt, put_ac icao (f t) s).
Proof.
  intros H. unfold ac_write, modify, put_ac, with_all_ac.
  by rewrite (alter_known _ _ _ _ H).
Qed.

Lemma ac_read_run {A} key (field : track → option A) icao s t v :
  all_ac s !! icao = Some t → field t = Some v →
  ac_read key field icao s = (Ok v, s).
Proof.
  intros H Hf. unfold ac_read, bind, gets. by rewrite H; simpl; rewrite Hf.
Qed.

Lemma ac_has_run {A} (field : track → option A) icao s t :
  all_ac s !! icao = Some t →
  ac_has field icao s = (Ok (bool_decide (is_Some (field t))), s).
Proof. intros H. unfold ac_has, bind, gets, ret. by rewrite H. Qed.

Lemma put_ac_lookup icao t s : all_ac (put_ac icao t s) !! icao = Some t.
Proof. apply lookup_insert_eq. Qed.

Lemma put_ac_lookup_ne icao k t s :
  icao ≠ k → all_ac (put_ac icao t s) !! k = all_ac s !! k.
Proof. intros. by apply lookup_insert_ne. Qed.

Lemma put_ac_put_ac icao t1 t2 s :
  put_ac icao t2 (put_ac icao t1 s) = put_ac icao t2 s.
Proof. unfold put_ac, with_all_ac. simpl. by rewrite insert_insert_eq. Qed.

(** ** Closed forms of the blocks of [new_traffic] *)

Lemma state_eta s :
  {| all_ac := all_ac s; aircraft_changed := aircraft_changed s;
     situation := situation s; max_pixel := max_pixel s; zerox := zerox s;
     zeroy := zeroy s; last_arcposition := last_arcposition s;
     spoken := spoken s |} = s.
Proof. by destruct s. Qed.

Lemma put_ac_same icao t s : all_ac s !! icao = Some t → put_ac icao t s = s.
Proof.
  intros H. unfold put_ac, with_all_ac. rewrite insert_id by done.
  apply state_eta.
Qed.

Lemma with_spoken_nil s : with_spoken (λ l, l ++ []) s = s.
Proof. unfold with_spoken. rewrite app_nil_r. apply state_eta. Qed.

Lemma adsb_alert_run icao gps_rad res_angle s t ws h :
  all_ac s !! icao = Some t → was_spoken t = Some ws → height t = Some h →
  adsb_alert icao gps_rad res_angle s =
    (Ok tt,
     put_ac icao (adsb_alerted (RadarRange (situation s)) gps_rad t)
       (with_spoken
          (λ l, l ++ adsb_texts (RadarRange (situation s)) gps_rad res_angle t) s)).
Proof.
  intros Ht Hws Hh. unfold adsb_alert, adsb_alerted, adsb_texts.
  rewrite (bind_Ok _ _ s (situation s) s) by done.
  rewrite Hws, Hh.
  destruct (Rleb gps_rad _).
  - rewrite (bind_Ok _ _ _ _ _ (ac_read_run _ _ _ _ _ _ Ht Hws)).
    destruct ws; simpl.
    + unfold ret. by rewrite with_spoken_nil, put_ac_same.
    + rewrite (bind_Ok _ _ _ _ _ (ac_read_run _ _ _ _ _ _ Ht Hh)).
      unfold speaktraffic, speak.
      rewrite (bind_Ok _ _ s tt (with_spoken (λ l, l ++ [traffic_text h (Some (clock_position res_angle))]) s)) by done.
      by apply ac_write_run.
  - rewrite with_spoken_nil. destruct (Rleb _ gps_rad).
    + by apply ac_write_run.
    + unfold ret. by rewrite put_ac_same.
Qed.

(** Reading a global after a write to another one. *)
Lemma situation_put_ac i t s : situation (put_ac i t s) = situation s.
Proof. done. Qed.
Lemma max_pixel_put_ac i t s : max_pixel (put_ac i t s) = max_pixel s.
Proof. done. Qed.
Lemma zerox_put_ac i t s : zerox (put_ac i t s) = zerox s.
Proof. done. Qed.
Lemma zeroy_put_ac i t s : zeroy (put_ac i t s) = zeroy s.
Proof. done. Qed.
Lemma last_arcposition_put_ac i t s :
  last_arcposition (put_ac i t s) = last_arcposition s.
Proof. done. Qed.
Lemma spoken_put_ac i t s : spoken (put_ac i t s) = spoken s.
Proof. done. Qed.
Lemma aircraft_changed_put_ac i t s :
  aircraft_changed (put_ac i t s) = aircraft_changed s.
Proof. done. Qed.

Create Rewrite HintDb globals.
#[global] Hint Rewrite situation_put_ac max_pixel_put_ac zerox_put_ac
  zeroy_put_ac last_arcposition_put_ac spoken_put_ac aircraft_changed_put_ac
  put_ac_put_ac put_ac_lookup : globals.

(** One step of a run: the first command of a sequence returns normally. *)
Ltac solve_lookup :=
  first [ apply put_ac_lookup | eassumption ].

Ltac solve_prim :=
  first
    [ eapply ac_write_run; solve_lookup
    | eapply ac_has_run; solve_lookup
    | eapply ac_read_run; [solve_lookup | first [eassumption | reflexivity]]
    | match goal with
      | H : ?o = Some _ |- getitem _ ?o _ = _ => rewrite H; reflexivity
      end
    | reflexivity
    | erewrite bind_Ok; [| solve_prim]; solve_prim ].

Ltac step := erewrite bind_Ok; [| solve_prim ].

Lemma modes_alert_run icao s t d ws h :
  all_ac s !! icao = Some t → gps_distance t = Some d →
  was_spoken t = Some ws → height t = Some h →
  modes_alert icao s =
    (Ok tt,
     put_ac icao (modes_alerted (RadarRange (situation s)) d t)
       (with_spoken (λ l, l ++ modes_texts (RadarRange (situation s)) d t) s)).
Proof.
  intros Ht Hd Hws Hh. unfold modes_alert, modes_alerted, modes_texts.
  do 2 step. rewrite Hws, Hh.
  destruct (Rleb d _).
  - step. destruct ws; simpl.
    + unfold ret. by rewrite with_spoken_nil, put_ac_same.
    + step. unfold speaktraffic, speak. step. by apply ac_write_run.
  - rewrite with_spoken_nil. step. destruct (Rltb _ d).
    + by apply ac_write_run.
    + unfold ret. by rewrite put_ac_same.
Qed.

Lemma track_bookkeeping_run now m icao s age agelast alt sv vvel :
  Age m = Some age → AgeLastAlt m = Some agelast → Alt m = Some alt →
  Speed_valid m = Some sv → (sv = true → is_Some (Speed m)) →
  Vvel m = Some vvel →
  track_bookkeeping now m icao s =
    (Ok (bool_decide (all_ac s !! icao = None)),
     put_ac icao
       (bookkept now age agelast alt (own_altitude (situation s))
          (if sv then Speed m else None) vvel
          (default fresh_track (all_ac s !! icao)))
       s).
Proof.
  intros Hage Hagelast Halt Hsv Hspeed Hvvel.
  unfold track_bookkeeping, bookkept, last_contact. step.
  set (t0 := default fresh_track (all_ac s !! icao)).
  assert (∃ s0, all_ac s0 !! icao = Some t0 ∧ put_ac icao t0 s = s0 ∧
    (if bool_decide (is_Some (all_ac s !! icao)) then ret false
     else modify (with_all_ac (<[icao := fresh_track]>)) ;; ret true) s =
    (Ok (bool_decide (all_ac s !! icao = None)), s0)) as (s0 & Ht0 & Hs0 & Hnew).
  { subst t0. destruct (all_ac s !! icao) as [t|] eqn:Hl; simpl.
    - exists s. split_and!; [done | by apply put_ac_same | done].
    - eexists. split_and!; [apply put_ac_lookup | done | done]. }
  rewrite (bind_Ok _ _ _ _ _ Hnew). clear Hnew.
  do 2 step.
  assert (situation s0 = situation s) as Hsit by by subst s0.
  destruct (Rleb age agelast); repeat step;
    (destruct sv; [destruct Hspeed as [sp Hsp]; [done|]; rewrite Hsp|]);
    repeat step; unfold ret; subst s0; by autorewrite with globals.
Qed.

Lemma with_spoken_put_ac f i t s :
  with_spoken f (put_ac i t s) = put_ac i t (with_spoken f s).
Proof. done. Qed.

Lemma with_last_arcposition_put_ac p i t s :
  with_last_arcposition p (put_ac i t s) = put_ac i t (with_last_arcposition p s).
Proof. done. Qed.

Lemma with_last_arcposition_same s :
  with_last_arcposition (last_arcposition s) s = s.
Proof. by destruct s. Qed.

#[global] Hint Rewrite with_spoken_put_ac with_last_arcposition_put_ac
  with_spoken_nil with_last_arcposition_same : globals.

Lemma pydiv_run a b s : b ≠ 0 → pydiv a b s = (Ok (a / b), s).
Proof. intros H. unfold pydiv. by rewrite Reqb_false. Qed.

Lemma pydiv_zero a b s : b = 0 → pydiv a b s = (Raise ZeroDivisionError, s).
Proof. intros H. unfold pydiv. by rewrite Reqb_true. Qed.

(** The ADS-B branch on a report with a position: it raises exactly when
    the target is inside the limits and the configured range is zero. *)
Lemma adsb_update_run m icao s t h ws lat lng :
  all_ac s !! icao = Some t → height t = Some h → was_spoken t = Some ws →
  Lat m = Some lat → Lng m = Some lng →
  adsb_update m icao s =
    if in_limits (situation s) (calc_gps_distance (situation s) lat lng).1 h
       && Reqb (RadarRange (situation s)) 0
    then (Raise ZeroDivisionError, put_ac icao (adsb_located s m lat lng t) s)
    else (Ok tt,
          put_ac icao (adsb_tracked s m lat lng t)
            (with_spoken (λ l, l ++ adsb_said s lat lng t) s)).
Proof.
  intros Ht Hh Hws Hlat Hlng.
  unfold adsb_update, adsb_tracked, adsb_said, adsb_located. do 2 step.
  destruct (calc_gps_distance (situation s) lat lng) as [gps_rad gps_angle] eqn:Hgeo.
  cbn [fst snd].
  assert (∃ t1, t1 = (if bool_decide (is_Some (circradius t))
                      then set_circradius None t else t) ∧
            height t1 = Some h ∧ was_spoken t1 = Some ws ∧ nspeed t1 = nspeed t ∧
            (if bool_decide (is_Some (circradius t))
             then ac_write icao (set_circradius None) else ret tt) s =
            (Ok tt, put_ac icao t1 s)) as (t1 & Ht1 & Hh1 & Hws1 & Hns1 & Hrun1).
  { eexists. split; [done|]. destruct (bool_decide _).
    - split_and!; [done..|]. by apply ac_write_run.
    - split_and!; [done..|]. unfold ret. by rewrite put_ac_same. }
  rewrite (bind_Ok _ _ _ _ _ Hrun1), <- Ht1. clear Hrun1.
  do 3 step. autorewrite with globals. rewrite Hgeo.
  step. autorewrite with globals.
  set (t2 := set_gps_distance gps_rad t1).
  assert (∃ t3, t3 = match Track m with
                     | Some tr => set_direction (tr - IZR (course (situation s))) t2
                     | None => t2
                     end ∧
            height t3 = Some h ∧ was_spoken t3 = Some ws ∧ nspeed t3 = nspeed t ∧
            match Track m with
            | Some tr => ac_write icao (set_direction (tr - IZR (course (situation s))))
            | None => ret tt
            end (put_ac icao t2 s) = (Ok tt, put_ac icao t3 s))
    as (t3 & Ht3 & Hh3 & Hws3 & Hns3 & Hrun3).
  { eexists. split; [done|]. destruct (Track m).
    - split_and!; [done..|]. erewrite ac_write_run by apply put_ac_lookup.
      by autorewrite with globals.
    - split_and!; try done. }
  rewrite (bind_Ok _ _ _ _ _ Hrun3), <- Ht3. clear Hrun3.
  step. rewrite Hh3, ?Hh. simpl default. unfold in_limits in *.
  autorewrite with globals.
  destruct (Rleb gps_rad _ && _) eqn:Hlim; cbn [andb].
  - do 3 step. autorewrite with globals.
    destruct (Reqb (RadarRange (situation s)) 0) eqn:Hzero.
    { erewrite bind_Raise; [done|]. apply pydiv_zero. by apply Reqb_eq. }
    assert (RadarRange (situation s) ≠ 0) as Hrange by by apply Reqb_neq.
    rewrite (bind_Ok _ _ _ _ _ (pydiv_run _ _ _ Hrange)). step.
    rewrite (bind_Ok _ _ _ _ _ (pydiv_run _ _ _ Hrange)). step.
    autorewrite with globals. step. simpl nspeed. rewrite Hns3.
    unfold screen_x, screen_y.
    set (t5 := set_y _ (set_x _ t3)).
    assert (∃ t6, t6 = match nspeed t with
                       | Some ns =>
                           set_nspeed_length
                             (py_round (max_pixel s / 2 * (ns * SPEED_ARROW_TIME / 3600)
                                        / RadarRange (situation s))) t5
                       | None => t5
                       end ∧
              height t6 = Some h ∧ was_spoken t6 = Some ws ∧
              (if bool_decide (is_Some (nspeed t)) then
                 ns <- ac_read "nspeed" nspeed icao ;;
                 pl <- pydiv (max_pixel s / 2 * (ns * SPEED_ARROW_TIME / 3600))
                         (RadarRange (situation s)) ;;
                 ac_write icao (set_nspeed_length (py_round pl))
               else ret tt) (put_ac icao t5 s) = (Ok tt, put_ac icao t6 s))
      as (t6 & Ht6 & Hh6 & Hws6 & Hrun6).
    { eexists. split; [done|]. destruct (nspeed t) as [ns|] eqn:Hns; simpl.
      - split_and!; [done..|].
        erewrite bind_Ok by (eapply ac_read_run; [apply put_ac_lookup|];
                             simpl; exact Hns3).
        rewrite (bind_Ok _ _ _ _ _ (pydiv_run _ _ _ Hrange)).
        erewrite ac_write_run by apply put_ac_lookup.
        by autorewrite with globals.
      - by split_and!. }
    rewrite (bind_Ok _ _ _ _ _ Hrun6), <- Ht6. clear Hrun6.
    rewrite (adsb_alert_run _ _ _ _ _ _ _ (put_ac_lookup _ _ _) Hws6 Hh6).
    autorewrite with globals.
    unfold adsb_texts. by rewrite Hws6, Hh6, Hws, Hh.
  - repeat step. erewrite ac_write_run by apply put_ac_lookup.
    by autorewrite with globals.
Qed.

Lemma modes_update_skip m icao is_new s de :
  DistanceEstimated m = Some de → de = 0 ∨ Alt m = Some 0 →
  modes_update m icao is_new s = (Ok tt, s).
Proof.
  intros Hde Hzero. unfold modes_update. step.
  destruct (Reqb de 0) eqn:E.
  - by step.
  - destruct Hzero as [->|Halt]; [by rewrite Reqb_true in E|].
    step. by rewrite (Reqb_true 0 0), orb_true_r.
Qed.

(** The range-only branch past the early return: it raises exactly when
    the configured range is zero. *)
Lemma modes_update_run m icao is_new s t de alt h ws :
  all_ac s !! icao = Some t → height t = Some h → was_spoken t = Some ws →
  DistanceEstimated m = Some de → Alt m = Some alt → de ≠ 0 → alt ≠ 0 →
  (is_new = true → circradius t = None) →
  modes_update m icao is_new s =
    if Reqb (RadarRange (situation s)) 0 then (Raise ZeroDivisionError, s)
    else (Ok tt,
          put_ac icao (modes_tracked s de t)
            (with_spoken (λ l, l ++ modes_said s de t)
               (with_last_arcposition (modes_pointer s t) s))).
Proof.
  intros Ht Hh Hws Hde Halt Hde0 Halt0 Hnew.
  unfold modes_update, modes_tracked, modes_said, modes_pointer. step.
  rewrite (Reqb_false de 0) by done. step.
  rewrite (Reqb_false alt 0) by done. cbn [orb].
  do 2 step.
  destruct (Reqb (RadarRange (situation s)) 0) eqn:Hzero.
  { erewrite bind_Raise; [done|]. apply pydiv_zero. by apply Reqb_eq. }
  assert (RadarRange (situation s) ≠ 0) as Hrange by by apply Reqb_neq.
  rewrite (bind_Ok _ _ _ _ _ (pydiv_run _ _ _ Hrange)). step.
  assert (is_new || negb (bool_decide (is_Some (circradius t))) =
          negb (bool_decide (is_Some (circradius t)))) as ->.
  { destruct is_new; [|done]. by rewrite Hnew. }
  destruct (bool_decide (is_Some (circradius t))); cbn [negb].
  - repeat step.
    erewrite modes_alert_run; [| apply put_ac_lookup | done | exact Hws | exact Hh].
    by autorewrite with globals.
  - repeat step.
    erewrite modes_alert_run; [| apply put_ac_lookup | done | exact Hws | exact Hh].
    by autorewrite with globals.
Qed.

(** ** Which reports complete

    A block that returns normally found every key it reads. *)

Lemma bind_Ok_inv {A B} (m : M A) (k : A → M B) s b s' :
  bind m k s = (Ok b, s') → ∃ a s1, m s = (Ok a, s1) ∧ k a s1 = (Ok b, s').
Proof.
  intros [(a & s1 & H1 & H2)|(e & _ & ?)]%bind_inv; [eauto|done].
Qed.

Lemma getitem_Ok_inv {A} key (o : option A) s v s' :
  getitem key o s = (Ok v, s') → o = Some v ∧ s' = s.
Proof. destruct o; simpl; unfold ret, raise; intros H; by simplify_eq. Qed.

(** Split a normal return of a sequence into normal returns of its parts,
    keeping what each [getitem] says about the message. *)
Ltac ok_inv H :=
  repeat match type of H with
    | bind (getitem _ _) _ _ = (Ok _, _) =>
        let a := fresh "v" in let s1 := fresh "s" in
        let Hg := fresh "Hget" in
        apply bind_Ok_inv in H; destruct H as (a & s1 & Hg & H);
        apply getitem_Ok_inv in Hg; destruct Hg as [Hg ->]
    | bind _ _ _ = (Ok _, _) =>
        let a := fresh "v" in let s1 := fresh "s" in
        let Hg := fresh "Hrun" in
        apply bind_Ok_inv in H; destruct H as (a & s1 & Hg & H)
    end.

Lemma track_bookkeeping_fields now m icao s b s' :
  track_bookkeeping now m icao s = (Ok b, s') →
  ∃ age agelast alt sv vvel,
    Age m = Some age ∧ AgeLastAlt m = Some agelast ∧ Alt m = Some alt ∧
    Speed_valid m = Some sv ∧ (sv = true → is_Some (Speed m)) ∧
    Vvel m = Some vvel.
Proof.
  unfold track_bookkeeping. intros H. ok_inv H.
  match goal with
  | Hs : (if ?sv then _ else _) _ = _ |- _ =>
      eexists _, _, _, sv, _; split_and!; try eassumption;
      intros ->; ok_inv Hs; eauto
  end.
Qed.

(** ** Normal returns of [new_traffic], in closed form *)

Lemma control_update_run m s rr rl :
  msg_RadarRange m = Some rr → msg_RadarLimits m = Some rl →
  control_update m s = (Ok tt, control_applied rr rl s).
Proof.
  intros Hrr Hrl. unfold control_update, control_applied. do 2 step.
  destruct (Reqb (RadarRange (situation s)) rr); cbn [negb andb];
    repeat step; cbn [situation with_situation RadarLimits sit_set_RadarRange];
    destruct (Reqb (RadarLimits (situation s)) rl); cbn [negb];
    by repeat step.
Qed.

Lemma found_fields now m icao age agelast alt sv vvel s :
  let t := found now m icao age agelast alt sv vvel s in
  let t0 := default fresh_track (all_ac s !! icao) in
  height t = Some (rel_height alt s) ∧ was_spoken t = was_spoken t0 ∧
  gps_distance t = gps_distance t0 ∧ circradius t = circradius t0 ∧
  arcposition t = arcposition t0 ∧ direction t = direction t0 ∧
  ac_x t = ac_x t0 ∧ ac_y t = ac_y t0 ∧
  nspeed_length t = nspeed_length t0 ∧
  last_contact_timestamp t = Some (last_contact now age agelast) ∧
  vspeed t = Some vvel ∧
  nspeed t = (if sv then match Speed m with Some v => Some v | None => nspeed t0 end
              else nspeed t0).
Proof.
  unfold found, bookkept, rel_height.
  destruct sv; [destruct (Speed m)|]; by split_and!.
Qed.

Lemma default_was_spoken (tbl : gmap Z track) icao :
  complete_table tbl →
  ∃ ws, was_spoken (default fresh_track (tbl !! icao)) = Some ws.
Proof.
  intros Hc. destruct (tbl !! icao) as [t|] eqn:Hl; simpl.
  - destruct (Hc _ _ Hl) as (_ & [ws Hws] & _). eauto.
  - eauto.
Qed.

Lemma situation_with_aircraft_changed b s :
  situation (with_aircraft_changed b s) = situation s.
Proof. done. Qed.
Lemma all_ac_with_aircraft_changed b s :
  all_ac (with_aircraft_changed b s) = all_ac s.
Proof. done. Qed.
Lemma max_pixel_with_aircraft_changed b s :
  max_pixel (with_aircraft_changed b s) = max_pixel s.
Proof. done. Qed.
Lemma zerox_with_aircraft_changed b s :
  zerox (with_aircraft_changed b s) = zerox s.
Proof. done. Qed.
Lemma zeroy_with_aircraft_changed b s :
  zeroy (with_aircraft_changed b s) = zeroy s.
Proof. done. Qed.
Lemma last_arcposition_with_aircraft_changed b s :
  last_arcposition (with_aircraft_changed b s) = last_arcposition s.
Proof. done. Qed.
Lemma spoken_with_aircraft_changed b s :
  spoken (with_aircraft_changed b s) = spoken s.
Proof. done. Qed.

#[global] Hint Rewrite situation_with_aircraft_changed
  all_ac_with_aircraft_changed max_pixel_with_aircraft_changed
  zerox_with_aircraft_changed zeroy_with_aircraft_changed
  last_arcposition_with_aircraft_changed spoken_with_aircraft_changed : globals.

(** Every normal return of [new_traffic] is one of the five cases. *)
Lemma new_traffic_ingested now m s s' :
  complete_table (all_ac s) →
  new_traffic now m s = (Ok tt, s') → ingested now m s s'.
Proof.
  intros Hc. unfold new_traffic. intros H.
  apply bind_Ok_inv in H as (? & s0 & Hs0 & H).
  assert (s0 = with_aircraft_changed true s) as -> by by inversion Hs0.
  clear Hs0.
  destruct (bool_decide (is_Some (msg_RadarRange m)) || _) eqn:Hctl.
  - pose proof H as H'. unfold control_update in H'. ok_inv H'.
    match goal with
    | Ha : msg_RadarRange m = Some _, Hb : msg_RadarLimits m = Some _ |- _ =>
        rewrite (control_update_run _ _ _ _ Ha Hb) in H;
        inversion H; by constructor
    end.
  - apply orb_false_elim in Hctl as [Hrr%bool_decide_eq_false Hrl%bool_decide_eq_false].
    assert (msg_RadarRange m = None) as Hrr'
      by (destruct (msg_RadarRange m); [exfalso; eauto | done]).
    assert (msg_RadarLimits m = None) as Hrl'
      by (destruct (msg_RadarLimits m); [exfalso; eauto | done]).
    destruct (Icao_addr m) as [icao|] eqn:Hicao.
    2:{ inversion H. by constructor. }
    apply bind_Ok_inv in H as (is_new & s1 & Hbk & H).
    destruct (track_bookkeeping_fields _ _ _ _ _ _ Hbk)
      as (age & agelast & alt & sv & vvel & Hage & Hagelast & Halt & Hsv & Hsp & Hvvel).
    rewrite (track_bookkeeping_run _ _ _ _ _ _ _ _ _ Hage Hagelast Halt Hsv Hsp Hvvel)
      in Hbk.
    injection Hbk as Hnew Hs1.
    apply bind_Ok_inv in H as (pv & s2 & [Hpv Hs2]%getitem_Ok_inv & H).
    apply bind_Ok_inv in H as (sit & s3 & Hsit & H).
    injection Hsit as Hsit Hs3. subst s3 s2 s1 sit.
    assert (aircraft_report m icao age agelast alt sv vvel pv) as Hrep
      by by split_and!.
    fold (found now m icao age agelast alt sv vvel s) in H.
    pose proof (found_fields now m icao age agelast alt sv vvel s)
      as (Hh & Hws & _ & Hcirc & _).
    cbn zeta in Hh, Hws, Hcirc.
    destruct (default_was_spoken (all_ac s) icao Hc) as [ws Hws0].
    rewrite Hws0 in Hws.
    autorewrite with globals in H.
    destruct (pv && gps_active (situation s)) eqn:Hpath.
    + apply andb_prop in Hpath as [-> Hgps].
      assert (∃ lat lng, Lat m = Some lat ∧ Lng m = Some lng)
        as (lat & lng & Hlat & Hlng).
      { pose proof H as H'. unfold adsb_update in H'. ok_inv H'. eauto. }
      rewrite (adsb_update_run _ _ _ _ _ _ _ _ (put_ac_lookup _ _ _) Hh Hws Hlat Hlng)
        in H.
      autorewrite with globals in H.
      destruct (in_limits _ _ _ && _) eqn:Hlim; [done|].
      inversion H. autorewrite with globals.
      by apply (ingested_adsb now m s icao age agelast alt sv vvel lat lng).
    + pose proof H as H'. unfold modes_update in H'.
      apply bind_Ok_inv in H' as (de & ? & [Hde ->]%getitem_Ok_inv & _).
      destruct (decide (de = 0)) as [Hde0|Hde0].
      { rewrite (modes_update_skip _ _ _ _ _ Hde (or_introl Hde0)) in H.
        inversion H.
        by apply (ingested_skipped now m s icao age agelast alt sv vvel pv de);
          [| | | left]. }
      destruct (decide (alt = 0)) as [Halt0|Halt0].
      { assert (Alt m = Some 0) as Halt' by by rewrite Halt, Halt0.
        rewrite (modes_update_skip _ _ _ _ _ Hde (or_intror Halt')) in H.
        inversion H.
        by apply (ingested_skipped now m s icao age agelast alt sv vvel pv de);
          [| | | right]. }
      rewrite (modes_update_run _ _ _ _ _ _ _ _ _ (put_ac_lookup _ _ _) Hh Hws Hde
                 Halt Hde0 Halt0) in H.
      2:{ intros Hn. subst is_new. apply bool_decide_eq_true in Hn.
          rewrite Hcirc, Hn. done. }
      autorewrite with globals in H.
      destruct (Reqb (RadarRange (situation s)) 0) eqn:Hzero; [done|].
      inversion H. autorewrite with globals.
      apply (ingested_modes now m s icao age agelast alt sv vvel pv de);
        try done. by apply Reqb_neq.
Qed.

(** Conversely each of the five cases is a normal return. *)
Lemma ingested_new_traffic now m s s' :
  complete_table (all_ac s) →
  ingested now m s s' → new_traffic now m s = (Ok tt, s').
Proof.
  intros Hc Hi. unfold new_traffic. step.
  destruct Hi as
    [ rr rl Hrr Hrl
    | Hrr Hrl Hicao
    | icao age agelast alt sv vvel lat lng Hrep Hgps Hlat Hlng Hlim
    | icao age agelast alt sv vvel pv de Hrep Hpath Hde Hskip
    | icao age agelast alt sv vvel pv de Hrep Hpath Hde Hde0 Halt0 Hrange ].
  - rewrite Hrr. cbn [orb bool_decide]. rewrite bool_decide_eq_true_2 by eauto.
    cbn [orb]. by apply control_update_run.
  - by rewrite Hrr, Hrl, Hicao.
  - destruct Hrep as (Hrr & Hrl & Hicao & Hage & Hagelast & Halt & Hsv & Hsp & Hvvel & Hpv).
    rewrite Hrr, Hrl, Hicao.
    rewrite !bool_decide_eq_false_2 by (by intros [? ?]). cbn [orb].
    rewrite (bind_Ok _ _ _ _ _
      (track_bookkeeping_run now _ icao _ _ _ _ _ _ Hage Hagelast Halt Hsv Hsp Hvvel)).
    do 2 step. autorewrite with globals. rewrite Hgps. cbn [andb].
    fold (found now m icao age agelast alt sv vvel s).
    pose proof (found_fields now m icao age agelast alt sv vvel s)
      as (Hh & Hws & _).
    cbn zeta in Hh, Hws.
    destruct (default_was_spoken (all_ac s) icao Hc) as [ws Hws1].
    rewrite Hws1 in Hws.
    rewrite (adsb_update_run _ _ _ _ _ _ _ _ (put_ac_lookup _ _ _) Hh Hws Hlat Hlng).
    autorewrite with globals. by rewrite Hlim.
  - destruct Hrep as (Hrr & Hrl & Hicao & Hage & Hagelast & Halt & Hsv & Hsp & Hvvel & Hpv).
    rewrite Hrr, Hrl, Hicao.
    rewrite !bool_decide_eq_false_2 by (by intros [? ?]). cbn [orb].
    rewrite (bind_Ok _ _ _ _ _
      (track_bookkeeping_run now _ icao _ _ _ _ _ _ Hage Hagelast Halt Hsv Hsp Hvvel)).
    do 2 step. autorewrite with globals. rewrite Hpath.
    fold (found now m icao age agelast alt sv vvel s).
    apply (modes_update_skip _ _ _ _ de); [done|].
    destruct Hskip as [?|Ha]; [by left|right]. by rewrite Halt, Ha.
  - destruct Hrep as (Hrr & Hrl & Hicao & Hage & Hagelast & Halt & Hsv & Hsp & Hvvel & Hpv).
    rewrite Hrr, Hrl, Hicao.
    rewrite !bool_decide_eq_false_2 by (by intros [? ?]). cbn [orb].
    rewrite (bind_Ok _ _ _ _ _
      (track_bookkeeping_run now _ icao _ _ _ _ _ _ Hage Hagelast Halt Hsv Hsp Hvvel)).
    do 2 step. autorewrite with globals. rewrite Hpath.
    fold (found now m icao age agelast alt sv vvel s).
    pose proof (found_fields now m icao age agelast alt sv vvel s)
      as (Hh & Hws & _ & Hcirc & _).
    cbn zeta in Hh, Hws, Hcirc.
    destruct (default_was_spoken (all_ac s) icao Hc) as [ws Hws1].
    rewrite Hws1 in Hws.
    rewrite (modes_update_run _ _ _ _ _ _ _ _ _ (put_ac_lookup _ _ _) Hh Hws Hde
               Halt Hde0 Halt0).
    2:{ intros Hn%bool_decide_eq_true. autorewrite with globals in Hn.
        by rewrite Hcirc, Hn. }
    autorewrite with globals. by rewrite Reqb_false.
Qed.

(** ** Fields of the closed forms *)

Lemma adsb_alerted_fields range gps_rad t :
  let t' := adsb_alerted range gps_rad t in
  gps_distance t' = gps_distance t ∧
  last_contact_timestamp t' = last_contact_timestamp t ∧
  height t' = height t ∧ nspeed t' = nspeed t ∧ vspeed t' = vspeed t ∧
  circradius t' = circradius t ∧ arcposition t' = arcposition t ∧
  direction t' = direction t ∧ ac_x t' = ac_x t ∧ ac_y t' = ac_y t ∧
  nspeed_length t' = nspeed_length t.
Proof.
  unfold adsb_alerted.
  destruct (Rleb gps_rad _); [destruct (was_spoken t) as [[]|]|destruct (Rleb _ _)];
    by split_and!.
Qed.

Lemma modes_alerted_fields range d t :
  let t' := modes_alerted range d t in
  gps_distance t' = gps_distance t ∧
  last_contact_timestamp t' = last_contact_timestamp t ∧
  height t' = height t ∧ nspeed t' = nspeed t ∧ vspeed t' = vspeed t ∧
  circradius t' = circradius t ∧ arcposition t' = arcposition t ∧
  direction t' = direction t ∧ ac_x t' = ac_x t ∧ ac_y t' = ac_y t ∧
  nspeed_length t' = nspeed_length t.
Proof.
  unfold modes_alerted.
  destruct (Rleb d _); [destruct (was_spoken t) as [[]|]|destruct (Rltb _ _)];
    by split_and!.
Qed.

Lemma adsb_located_fields s m lat lng t :
  let t' := adsb_located s m lat lng t in
  gps_distance t' = Some (calc_gps_distance (situation s) lat lng).1 ∧
  was_spoken t' = was_spoken t ∧
  last_contact_timestamp t' = last_contact_timestamp t ∧
  height t' = height t ∧ nspeed t' = nspeed t ∧ vspeed t' = vspeed t ∧
  circradius t' = None ∧ arcposition t' = arcposition t ∧
  direction t' =
    match Track m with
    | Some tr => Some (tr - IZR (course (situation s)))
    | None => direction t
    end ∧
  ac_x t' = ac_x t ∧ ac_y t' = ac_y t ∧ nspeed_length t' = nspeed_length t.
Proof.
  unfold adsb_located.
  destruct (circradius t) eqn:Hc; simpl bool_decide; cbv iota;
    destruct (Track m); simpl; by rewrite ?Hc.
Qed.

(** The fields of the entry the ADS-B branch leaves. *)
Lemma adsb_tracked_fields s m lat lng t :
  let t' := adsb_tracked s m lat lng t in
  let sit := situation s in
  let gps_rad := (calc_gps_distance sit lat lng).1 in
  let gps_angle := (calc_gps_distance sit lat lng).2 in
  let inside := in_limits sit gps_rad (default 0%Z (height t)) in
  gps_distance t' = Some gps_rad ∧
  was_spoken t' =
    (if inside then was_spoken (adsb_alerted (RadarRange sit) gps_rad t)
     else was_spoken t) ∧
  last_contact_timestamp t' = last_contact_timestamp t ∧
  height t' = height t ∧ nspeed t' = nspeed t ∧ vspeed t' = vspeed t ∧
  circradius t' = None ∧ arcposition t' = arcposition t ∧
  direction t' =
    match Track m with
    | Some tr => Some (tr - IZR (course sit))
    | None => direction t
    end ∧
  ac_x t' =
    Some (if inside
          then screen_x (max_pixel s) (zerox s) (RadarRange sit) (course sit)
                 gps_rad gps_angle
          else (-1)%Z) ∧
  ac_y t' =
    Some (if inside
          then screen_y (max_pixel s) (zeroy s) (RadarRange sit) (course sit)
                 gps_rad gps_angle
          else (-1)%Z) ∧
  nspeed_length t' =
    (if inside then
       match nspeed t with
       | Some ns =>
           Some (py_round (max_pixel s / 2 * (ns * SPEED_ARROW_TIME / 3600)
                           / RadarRange sit))
       | None => nspeed_length t
       end
     else nspeed_length t).
Proof.
  cbv zeta. unfold adsb_tracked.
  pose proof (adsb_located_fields s m lat lng t) as
    (Hd & Hws & Hts & Hh & Hns & Hvs & Hc & Ha & Hdir & Hx & Hy & Hnl).
  cbv zeta in *. set (t3 := adsb_located s m lat lng t) in *.
  rewrite Hh. destruct (in_limits _ _ _).
  - match goal with |- context [adsb_alerted ?r ?g ?u] =>
      pose proof (adsb_alerted_fields r g u) as
        (Hd' & Hts' & Hh' & Hns' & Hvs' & Hc' & Ha' & Hdir' & Hx' & Hy' & Hnl');
      cbv zeta in *;
      rewrite Hd', Hts', Hh', Hns', Hvs', Hc', Ha', Hdir', Hx', Hy', Hnl'
    end.
    assert (∀ u v, was_spoken u = was_spoken v →
              was_spoken (adsb_alerted (RadarRange (situation s))
                            (calc_gps_distance (situation s) lat lng).1 u) =
              was_spoken (adsb_alerted (RadarRange (situation s))
                            (calc_gps_distance (situation s) lat lng).1 v)) as Hal.
    { intros u v Huv. unfold adsb_alerted. rewrite Huv.
      destruct (Rleb _ _); [destruct (was_spoken v) as [[]|] eqn:E|destruct (Rleb _ _)];
        simpl; congruence. }
    simpl nspeed. rewrite Hns.
    destruct (nspeed t); simpl; rewrite ?Hd, ?Hts, ?Hh, ?Hns, ?Hvs, ?Hc, ?Ha,
      ?Hdir, ?Hnl; split_and!; try done; by apply Hal.
  - simpl. by rewrite Hd, Hws, Hts, Hh, Hns, Hvs, Hc, Ha, Hdir, Hnl.
Qed.

(** The fields of the entry the range-only branch leaves. *)
Lemma modes_tracked_fields s de t :
  let t' := modes_tracked s de t in
  let sit := situation s in
  gps_distance t' = Some (de / 1852) ∧
  was_spoken t' = was_spoken (modes_alerted (RadarRange sit) (de / 1852) t) ∧
  last_contact_timestamp t' = last_contact_timestamp t ∧
  height t' = height t ∧ nspeed t' = nspeed t ∧ vspeed t' = vspeed t ∧
  circradius t' =
    Some (py_round (max_pixel s / 2 * (de / 1852) / RadarRange sit)) ∧
  arcposition t' =
    (if bool_decide (is_Some (circradius t)) then arcposition t
     else Some (next_arcposition (last_arcposition s))) ∧
  direction t' = direction t ∧ ac_x t' = ac_x t ∧ ac_y t' = ac_y t ∧
  nspeed_length t' = nspeed_length t.
Proof.
  cbv zeta. unfold modes_tracked.
  match goal with |- context [modes_alerted ?r ?g ?u] =>
    pose proof (modes_alerted_fields r g u) as
      (Hd' & Hts' & Hh' & Hns' & Hvs' & Hc' & Ha' & Hdir' & Hx' & Hy' & Hnl');
    cbv zeta in *;
    rewrite Hd', Hts', Hh', Hns', Hvs', Hc', Ha', Hdir', Hx', Hy', Hnl'
  end.
  assert (∀ u v, was_spoken u = was_spoken v →
            was_spoken (modes_alerted (RadarRange (situation s)) (de / 1852) u) =
            was_spoken (modes_alerted (RadarRange (situation s)) (de / 1852) v))
    as Hal.
  { intros u v Huv. unfold modes_alerted. rewrite Huv.
    destruct (Rleb _ _); [destruct (was_spoken v) as [[]|] eqn:E|destruct (Rltb _ _)];
      simpl; congruence. }
  destruct (bool_decide _); simpl; split_and!; try done; by apply Hal.
Qed.

(** The flag after an alert block: set by an alert, cleared beyond
    three quarters of the range, kept otherwise. *)
Lemma adsb_alerted_was_spoken range gps_rad t ws :
  was_spoken t = Some ws →
  was_spoken (adsb_alerted range gps_rad t) =
    Some (if Rleb gps_rad (range / 2) then true
          else if Rleb (range * 0.75) gps_rad then false else ws).
Proof.
  intros H. unfold adsb_alerted.
  destruct (Rleb gps_rad _); [rewrite H; by destruct ws|by destruct (Rleb _ _)].
Qed.

Lemma modes_alerted_was_spoken range d t ws :
  was_spoken t = Some ws →
  was_spoken (modes_alerted range d t) =
    Some (if Rleb d (range / 2) then true
          else if Rltb (range * 0.75) d then false else ws).
Proof.
  intros H. unfold modes_alerted.
  destruct (Rleb d _); [rewrite H; by destruct ws|by destruct (Rltb _ _)].
Qed.

(** ** Completeness of the table is kept *)

Lemma complete_table_empty : complete_table ∅.
Proof. intros k t H. by rewrite lookup_empty in H. Qed.

Lemma complete_table_insert (tbl : gmap Z track) k t :
  complete_table tbl → complete_track t → complete_table (<[k := t]> tbl).
Proof.
  intros Hc Ht j u. destruct (decide (k = j)) as [->|Hne].
  - rewrite lookup_insert_eq. by intros [= <-].
  - rewrite lookup_insert_ne by done. apply Hc.
Qed.

Lemma default_complete (tbl : gmap Z track) icao :
  complete_table tbl →
  is_Some (gps_distance (default fresh_track (tbl !! icao))) ∧
  is_Some (was_spoken (default fresh_track (tbl !! icao))).
Proof.
  intros Hc. destruct (tbl !! icao) as [t|] eqn:Hl; simpl.
  - destruct (Hc _ _ Hl) as (? & ? & _). done.
  - split; eauto.
Qed.

Lemma found_complete now m icao age agelast alt sv vvel s :
  complete_table (all_ac s) →
  complete_track (found now m icao age agelast alt sv vvel s).
Proof.
  intros Hc. destruct (default_complete _ icao Hc) as [Hd Hw].
  pose proof (found_fields now m icao age agelast alt sv vvel s)
    as (Hh & Hws & Hgd & _ & _ & _ & _ & _ & _ & Hts & Hvs & _).
  cbv zeta in *. unfold complete_track.
  rewrite Hh, Hws, Hgd, Hts, Hvs. split_and!; eauto.
Qed.

Lemma adsb_tracked_complete s m lat lng t :
  complete_track t → complete_track (adsb_tracked s m lat lng t).
Proof.
  intros (Hd & [ws Hws] & Hts & Hh & Hvs).
  pose proof (adsb_tracked_fields s m lat lng t)
    as (Hd' & Hws' & Hts' & Hh' & _ & Hvs' & _).
  cbv zeta in *. unfold complete_track.
  rewrite Hd', Hws', Hts', Hh', Hvs'. split_and!; eauto.
  destruct (in_limits _ _ _); [|eauto].
  rewrite (adsb_alerted_was_spoken _ _ _ _ Hws). eauto.
Qed.

Lemma modes_tracked_complete s de t :
  complete_track t → complete_track (modes_tracked s de t).
Proof.
  intros (Hd & [ws Hws] & Hts & Hh & Hvs).
  pose proof (modes_tracked_fields s de t)
    as (Hd' & Hws' & Hts' & Hh' & _ & Hvs' & _).
  cbv zeta in *. unfold complete_track.
  rewrite Hd', Hws', Hts', Hh', Hvs'.
  rewrite (modes_alerted_was_spoken _ _ _ _ Hws). split_and!; eauto.
Qed.

Lemma all_ac_control_applied rr rl s :
  all_ac (control_applied rr rl s) =
    if Reqb (RadarRange (situation s)) rr && Reqb (RadarLimits (situation s)) rl
    then all_ac s else ∅.
Proof.
  unfold control_applied.
  by destruct (Reqb (RadarRange _) rr), (Reqb (RadarLimits _) rl).
Qed.

Lemma ingested_complete now m s s' :
  complete_table (all_ac s) → ingested now m s s' →
  complete_table (all_ac s').
Proof.
  intros Hc Hi. destruct Hi.
  - rewrite all_ac_control_applied. destruct (_ && _); [done|].
    apply complete_table_empty.
  - done.
  - apply complete_table_insert; [done|].
    by apply adsb_tracked_complete, found_complete.
  - apply complete_table_insert; [done|]. by apply found_complete.
  - apply complete_table_insert; [done|].
    by apply modes_tracked_complete, found_complete.
Qed.

(** ** Commands that keep a property of the state, whatever they return *)

Lemma preserving_ret {A} P (a : A) : preserving P (ret a).
Proof. by intros s. Qed.

Lemma preserving_raise {A} P e : preserving P (raise (A := A) e).
Proof. by intros s. Qed.

Lemma preserving_gets {A} P (f : state → A) : preserving P (gets f).
Proof. by intros s. Qed.

Lemma preserving_getitem {A} P key (o : option A) : preserving P (getitem key o).
Proof. destruct o; [apply preserving_ret|apply preserving_raise]. Qed.

Lemma preserving_bind {A B} P (c : M A) (k : A → M B) :
  preserving P c → (∀ a, preserving P (k a)) → preserving P (bind c k).
Proof.
  intros Hc Hk s Hs. unfold bind. specialize (Hc s Hs).
  destruct (c s) as [[a|e] s1]; simpl in *; [by apply Hk|done].
Qed.

Lemma preserving_pydiv P a b : preserving P (pydiv a b).
Proof.
  unfold pydiv. destruct (Reqb b 0); [apply preserving_raise|apply preserving_ret].
Qed.

Lemma preserving_modify P f : (∀ s, P s → P (f s)) → preserving P (modify f).
Proof. intros H s Hs. by apply H. Qed.

Lemma preserving_ac_read {A} P key (field : track → option A) icao :
  preserving P (ac_read key field icao).
Proof.
  apply preserving_bind; [apply preserving_gets|intros; apply preserving_getitem].
Qed.

Lemma preserving_ac_has {A} P (field : track → option A) icao :
  preserving P (ac_has field icao).
Proof.
  apply preserving_bind; [apply preserving_gets|intros; apply preserving_ret].
Qed.

Lemma complete_table_alter (tbl : gmap Z track) f k :
  (∀ t, complete_track t → complete_track (f t)) →
  complete_table tbl → complete_table (alter f k tbl).
Proof.
  intros Hf Hc j u. destruct (decide (k = j)) as [->|Hne].
  - rewrite lookup_alter_eq. destruct (tbl !! j) as [t|] eqn:Hl; [|done].
    intros [= <-]. eapply Hf, Hc, Hl.
  - rewrite lookup_alter_ne by done. apply Hc.
Qed.

Lemma preserving_ac_write icao f :
  (∀ t, complete_track t → complete_track (f t)) →
  preserving complete (ac_write icao f).
Proof.
  intros Hf. apply preserving_modify. intros s Hs.
  by apply complete_table_alter.
Qed.

Lemma preserving_ac_write_tracked k icao f :
  (∀ t, complete_track t → complete_track (f t)) →
  preserving (tracked k) (ac_write icao f).
Proof.
  intros Hf. apply preserving_modify. intros s [Hs [t Ht]]. split.
  - by apply complete_table_alter.
  - simpl. destruct (decide (icao = k)) as [->|Hne].
    + rewrite lookup_alter_eq, Ht. eauto.
    + rewrite lookup_alter_ne, Ht by done. eauto.
Qed.

(** Solve [preserving P c] for a command built from the primitives, where
    [P] is [complete] or [tracked k]. *)
Ltac keep_complete :=
  repeat first
    [ apply preserving_ret | apply preserving_raise | apply preserving_gets
    | apply preserving_getitem | apply preserving_pydiv
    | apply preserving_ac_read | apply preserving_ac_has
    | first [apply preserving_ac_write | apply preserving_ac_write_tracked];
        let t := fresh "t" in intros t (? & ? & ? & ? & ?);
        unfold complete_track; simpl; by eauto 10
    | apply preserving_modify; by intros ? ?
    | apply preserving_bind; [|intros ?]
    | match goal with
      | |- preserving _ (if ?b then _ else _) => destruct b
      | |- preserving _ (match ?o with _ => _ end) => destruct o
      end ].

Lemma preserving_speaktraffic k h d : preserving (tracked k) (speaktraffic h d).
Proof. unfold speaktraffic, speak. keep_complete. Qed.

Lemma preserving_adsb_alert k icao gps_rad res_angle :
  preserving (tracked k) (adsb_alert icao gps_rad res_angle).
Proof.
  unfold adsb_alert. keep_complete; apply preserving_speaktraffic.
Qed.

Lemma preserving_modes_alert k icao : preserving (tracked k) (modes_alert icao).
Proof.
  unfold modes_alert. keep_complete; apply preserving_speaktraffic.
Qed.

Lemma preserving_adsb_update k m icao :
  preserving (tracked k) (adsb_update m icao).
Proof.
  unfold adsb_update. keep_complete; apply preserving_adsb_alert.
Qed.

Lemma preserving_modes_update k m icao is_new :
  preserving (tracked k) (modes_update m icao is_new).
Proof.
  unfold modes_update. keep_complete; apply preserving_modes_alert.
Qed.

Lemma preserving_control_update m : preserving complete (control_update m).
Proof.
  unfold control_update. keep_complete.
  all: apply preserving_modify; intros ? ?; apply complete_table_empty.
Qed.

(** ** The eviction sweep in closed form *)

Lemma elem_of_stale_keys cutoff items k :
  k ∈ stale_keys cutoff items ↔
  ∃ t, (k, t) ∈ items ∧ stale cutoff t = true.
Proof.
  induction items as [|[j u] rest IH]; simpl.
  - split; [by intros ?%elem_of_nil|]. by intros (t & ?%elem_of_nil & _).
  - destruct (stale cutoff u) eqn:Hu.
    + rewrite elem_of_cons, IH. split.
      * intros [->|(t & Ht & Hs)]; [exists u|exists t]; split; try done;
          [apply list_elem_of_here|by apply list_elem_of_further].
      * intros (t & [[= -> ->]|Ht]%elem_of_cons & Hs); [by left|right; eauto].
    + rewrite IH. split.
      * intros (t & Ht & Hs). exists t. split; [by apply list_elem_of_further|done].
      * intros (t & [[= -> ->]|Ht]%elem_of_cons & Hs); [congruence|eauto].
Qed.

Lemma cutoff_loop_run cutoff items s :
  (∀ k t, (k, t) ∈ items → is_Some (last_contact_timestamp t)) →
  cutoff_loop cutoff items s =
    (Ok (stale_keys cutoff items),
     match stale_keys cutoff items with
     | [] => s
     | _ => with_aircraft_changed true s
     end).
Proof.
  revert s. induction items as [|[k t] rest IH]; intros s Hts; [done|].
  destruct (Hts k t) as [ts Hk]; [apply list_elem_of_here|].
  assert (∀ j u, (j, u) ∈ rest → is_Some (last_contact_timestamp u)) as Hrest
    by (intros j u ?; apply (Hts j u); by apply list_elem_of_further).
  simpl. unfold stale. rewrite Hk. step.
  destruct (Rltb ts cutoff).
  - step. rewrite (bind_Ok _ _ _ _ _ (IH _ Hrest)). unfold ret.
    by destruct (stale_keys cutoff rest).
  - by apply IH.
Qed.

Lemma lookup_foldr_delete_keys (tbl : gmap Z track) (l : list Z) k :
  foldr delete tbl l !! k = if bool_decide (k ∈ l) then None else tbl !! k.
Proof.
  induction l as [|j l IH]; cbn [foldr].
  - case_bool_decide as H; [by apply elem_of_nil in H|done].
  - destruct (decide (j = k)) as [->|Hne].
    + rewrite lookup_delete_eq. rewrite bool_decide_eq_true_2; [done|].
      apply list_elem_of_here.
    + rewrite lookup_delete_ne, IH by done.
      destruct (decide (k ∈ l)) as [Hin|Hnin].
      * rewrite !bool_decide_eq_true_2; [done| by apply list_elem_of_further|done].
      * rewrite !bool_decide_eq_false_2; [done| |done].
        intros [?|?]%elem_of_cons; congruence.
Qed.

(** On a complete table the sweep returns normally; afterwards an entry is
    gone when it was stale and is the same entry otherwise, and the dirty
    flag is raised when something was stale. *)
Lemma cutoff_sweep_run now s :
  complete_table (all_ac s) →
  ∃ s', cutoff_sweep now s = (Ok tt, s') ∧
    (∀ k, all_ac s' !! k =
            match all_ac s !! k with
            | Some t => if stale (now - RADAR_CUTOFF) t then None else Some t
            | None => None
            end) ∧
    ((∃ k t, all_ac s !! k = Some t ∧ stale (now - RADAR_CUTOFF) t = true) →
     aircraft_changed s' = true) ∧
    ((∀ k t, all_ac s !! k = Some t → stale (now - RADAR_CUTOFF) t = false) →
     aircraft_changed s' = aircraft_changed s) ∧
    situation s' = situation s ∧ spoken s' = spoken s ∧
    last_arcposition s' = last_arcposition s ∧
    max_pixel s' = max_pixel s ∧ zerox s' = zerox s ∧ zeroy s' = zeroy s.
Proof.
  intros Hc. unfold cutoff_sweep. eexists. split.
  { step. erewrite bind_Ok; [reflexivity|]. apply cutoff_loop_run.
    intros k t Hkt%elem_of_map_to_list. by destruct (Hc _ _ Hkt) as (_ & _ & ? & _). }
  set (cutoff := now - RADAR_CUTOFF).
  set (keys := stale_keys cutoff (map_to_list (all_ac s))).
  assert (∀ k, k ∈ keys ↔ ∃ t, all_ac s !! k = Some t ∧ stale cutoff t = true)
    as Hkeys.
  { intros k. unfold keys. rewrite elem_of_stale_keys.
    by setoid_rewrite elem_of_map_to_list. }
  split_and!; try (by destruct keys).
  - intros k.
    assert (all_ac (match keys with
                    | [] => s
                    | _ :: _ => with_aircraft_changed true s
                    end) = all_ac s) as Hsame by (by destruct keys).
    simpl. rewrite Hsame, lookup_foldr_delete_keys.
    destruct (all_ac s !! k) as [t|] eqn:Hl.
    + destruct (stale cutoff t) eqn:Hst.
      * rewrite bool_decide_eq_true_2; [done|]. apply Hkeys. eauto.
      * rewrite bool_decide_eq_false_2; [done|].
        intros (u & Hu & Hs)%Hkeys. congruence.
    + by destruct (bool_decide _).
  - intros (k & t & Hl & Hs).
    assert (k ∈ keys) as Hin by (apply Hkeys; eauto).
    destruct keys; [by apply elem_of_nil in Hin|done].
  - intros Hnone. destruct keys as [|k0 keys']; [done|].
    destruct (proj1 (Hkeys k0)) as (t & Hl & Hs); [apply list_elem_of_here|].
    rewrite (Hnone _ _ Hl) in Hs. done.
Qed.

(** ** Sample data *)

Lemma sample_track_complete ts : complete_track (sample_track ts).
Proof. unfold complete_track, sample_track. simpl. by eauto 10. Qed.

Lemma state0_complete : complete_table (all_ac state0).
Proof. apply complete_table_empty. Qed.

Lemma state2_complete : complete_table (all_ac state2).
Proof.
  repeat apply complete_table_insert;
    [apply complete_table_empty|apply sample_track_complete..].
Qed.

Lemma range_only_report icao de alt :
  aircraft_report (range_only icao de alt) icao 0 1 alt false 0 false.
Proof. unfold aircraft_report. simpl. by split_and!. Qed.

Lemma positional_report icao lat lng alt :
  aircraft_report (positional icao lat lng alt) icao 0 1 alt false 0 true.
Proof. unfold aircraft_report. simpl. by split_and!. Qed.

(** ** C7: eviction *)

(** C7.  Each sweep removes from the table exactly the entries whose
    [last_contact_timestamp] is strictly older than [now - 29]; every entry
    at or after the cutoff stays as it is; and when at least one entry is
    removed the flag [aircraft_changed] is set.  (The sweep reads the
    timestamp of every entry, so the table is taken complete.) *)
Theorem eviction_sweep now s :
  complete_table (all_ac s) →
  ∃ s', cutoff_sweep now s = (Ok tt, s') ∧
    (∀ k t ts, all_ac s !! k = Some t → last_contact_timestamp t = Some ts →
       (ts < now - 29 → all_ac s' !! k = None) ∧
       (now - 29 <= ts → all_ac s' !! k = Some t)) ∧
    (∀ k, all_ac s !! k = None → all_ac s' !! k = None) ∧
    ((∃ k, is_Some (all_ac s !! k) ∧ all_ac s' !! k = None) →
     aircraft_changed s' = true).
Proof.
  intros Hc.
  destruct (cutoff_sweep_run now s Hc) as (s' & Hrun & Hl & Hflag & _).
  exists s'. split; [done|]. unfold RADAR_CUTOFF in *. split_and!.
  - intros k t ts Hk Hts. rewrite Hl, Hk. unfold stale. rewrite Hts. split.
    + intros Hlt. by rewrite Rltb_true.
    + intros Hge. by rewrite Rltb_false.
  - intros k Hk. by rewrite Hl, Hk.
  - intros (k & [t Hk] & Hgone). apply Hflag. exists k, t. split; [done|].
    rewrite Hl, Hk in Hgone. by destruct (stale _ t).
Qed.

Lemma eviction_sweep_witness :
  ∃ s', cutoff_sweep 100 state2 = (Ok tt, s') ∧
    (∀ k t ts, all_ac state2 !! k = Some t → last_contact_timestamp t = Some ts →
       (ts < 100 - 29 → all_ac s' !! k = None) ∧
       (100 - 29 <= ts → all_ac s' !! k = Some t)) ∧
    (∀ k, all_ac state2 !! k = None → all_ac s' !! k = None) ∧
    ((∃ k, is_Some (all_ac state2 !! k) ∧ all_ac s' !! k = None) →
     aircraft_changed s' = true).
Proof. apply (eviction_sweep 100 state2). exact state2_complete. Defined.

(** ** C6: display slots of range-only tracks *)

Lemma next_arcposition_spec p :
  let q := ((p + 210) mod 360)%Z in
  next_arcposition p =
    (if bool_decide (130 <= q <= 230)%Z then ((q + 210) mod 360)%Z else q) ∧
  (0 <= next_arcposition p < 360)%Z ∧
  ¬ (130 <= next_arcposition p <= 230)%Z.
Proof.
  cbv zeta. unfold next_arcposition, ARCPOSITION_EXCLUDE_TO, ARCPOSITION_EXCLUDE_FROM.
  set (q := ((p + 210) mod 360)%Z).
  assert (0 <= q < 360)%Z as Hq by (apply Z.mod_pos_bound; lia).
  destruct (Z.leb_spec q 230), (Z.leb_spec 130 q); cbn [andb];
    case_bool_decide; try lia; (split; [done|]); try lia.
  destruct (Z_lt_ge_dec (q + 210) 360).
  - rewrite Z.mod_small by lia. lia.
  - replace (q + 210)%Z with ((q + 210 - 360) + 1 * 360)%Z by lia.
    rewrite Z.mod_add, Z.mod_small by lia. lia.
Qed.

Lemma ingested_arcposition now m s s' :
  complete_table (all_ac s) → ingested now m s s' →
  arcs_outside (all_ac s) → arcs_outside (all_ac s').
Proof.
  intros Hc Hi Ha. destruct Hi.
  - rewrite all_ac_control_applied. destruct (_ && _); [done|].
    intros k t a Hk. by rewrite lookup_empty in Hk.
  - done.
  - intros k t a. destruct (decide (icao = k)) as [->|Hne].
    + rewrite put_ac_lookup. intros [= <-].
      pose proof (adsb_tracked_fields s m lat lng
                    (found now m k age agelast alt sv vvel s))
        as (_ & _ & _ & _ & _ & _ & _ & Harc & _).
      pose proof (found_fields now m k age agelast alt sv vvel s)
        as (_ & _ & _ & _ & Harc0 & _).
      cbv zeta in *. rewrite Harc, Harc0.
      destruct (all_ac s !! k) as [t0|] eqn:Hk; simpl; [by eapply Ha|done].
    + rewrite put_ac_lookup_ne by done. apply Ha.
  - intros k t a. destruct (decide (icao = k)) as [->|Hne].
    + rewrite put_ac_lookup. intros [= <-].
      pose proof (found_fields now m k age agelast alt sv vvel s)
        as (_ & _ & _ & _ & Harc0 & _).
      cbv zeta in *. rewrite Harc0.
      destruct (all_ac s !! k) as [t0|] eqn:Hk; simpl; [by eapply Ha|done].
    + rewrite put_ac_lookup_ne by done. apply Ha.
  - intros k t a. destruct (decide (icao = k)) as [->|Hne].
    + rewrite put_ac_lookup. intros [= <-].
      pose proof (modes_tracked_fields s de
                    (found now m k age agelast alt sv vvel s))
        as (_ & _ & _ & _ & _ & _ & _ & Harc & _).
      pose proof (found_fields now m k age agelast alt sv vvel s)
        as (_ & _ & _ & _ & Harc0 & _).
      cbv zeta in *. rewrite Harc. case_bool_decide.
      * rewrite Harc0.
        destruct (all_ac s !! k) as [t0|] eqn:Hk; simpl; [by eapply Ha|done].
      * intros [= <-].
        pose proof (next_arcposition_spec (last_arcposition s)) as (_ & _ & ?).
        lia.
    + rewrite put_ac_lookup_ne by done. apply Ha.
Qed.

(** A feed that is processed to its end keeps the table complete and the
    slots outside the sector. *)
Lemma ingest_all_arcposition feed s s' :
  complete_table (all_ac s) → arcs_outside (all_ac s) →
  ingest_all feed s = (Ok tt, s') →
  complete_table (all_ac s') ∧ arcs_outside (all_ac s').
Proof.
  revert s. induction feed as [|[now m] rest IH]; intros s Hc Ha Hrun.
  - by inversion Hrun; subst.
  - simpl in Hrun. apply bind_Ok_inv in Hrun as ([] & s1 & Hstep & Hrun).
    apply new_traffic_ingested in Hstep; [|done].
    eapply IH; [by eapply ingested_complete|by eapply ingested_arcposition|done].
Qed.

(** C6.  A range-only report that gets past the early return, for a track
    that is new or has no [circradius] (it was ADS-B before), advances the
    shared pointer by 210 modulo 360, once more when the result is in
    130..230, and gives the track that slot; a track that already has a
    [circradius] keeps its slot and the pointer stays.  Whatever the
    pointer was, the new slot is in 0..359 and not in 130..230, so a single
    re-advance always leaves the sector; and after any feed processed from
    a table whose slots are outside the sector [130, 230), all slots are
    outside it. *)
Theorem arcposition_assignment now m s icao age agelast alt sv vvel pv de feed s2 :
  complete_table (all_ac s) → arcs_outside (all_ac s) →
  aircraft_report m icao age agelast alt sv vvel pv →
  pv && gps_active (situation s) = false →
  DistanceEstimated m = Some de → de ≠ 0 → alt ≠ 0 →
  RadarRange (situation s) ≠ 0 →
  ingest_all feed s = (Ok tt, s2) →
  let p := last_arcposition s in
  let q := ((p + 210) mod 360)%Z in
  (∃ s', new_traffic now m s = (Ok tt, s') ∧
     if bool_decide (is_Some (all_ac s !! icao ≫= circradius)) then
       last_arcposition s' = p ∧
       all_ac s' !! icao ≫= arcposition = all_ac s !! icao ≫= arcposition
     else
       last_arcposition s' = next_arcposition p ∧
       all_ac s' !! icao ≫= arcposition = Some (next_arcposition p)) ∧
  next_arcposition p =
    (if bool_decide (130 <= q <= 230)%Z then ((q + 210) mod 360)%Z else q) ∧
  (0 <= next_arcposition p < 360)%Z ∧
  ¬ (130 <= next_arcposition p <= 230)%Z ∧
  arcs_outside (all_ac s2).
Proof.
  intros Hc Ha Hrep Hpath Hde Hde0 Halt0 Hrange Hfeed. cbv zeta.
  destruct (next_arcposition_spec (last_arcposition s)) as (Hnext & Hbound & Hout).
  refine (conj _ (conj Hnext (conj Hbound (conj Hout _)))).
  2:{ by eapply ingest_all_arcposition. }
  eexists. split.
  { apply ingested_new_traffic; [done|].
    by apply (ingested_modes now m s icao age agelast alt sv vvel pv de). }
  autorewrite with globals. simpl.
  pose proof (modes_tracked_fields s de (found now m icao age agelast alt sv vvel s))
    as (_ & _ & _ & _ & _ & _ & _ & Harc & _).
  pose proof (found_fields now m icao age agelast alt sv vvel s)
    as (_ & _ & _ & Hcirc0 & Harc0 & _).
  cbv zeta in *. rewrite Harc. unfold modes_pointer.
  rewrite Hcirc0, Harc0.
  destruct (all_ac s !! icao) as [t0|] eqn:Hk; simpl; [|done].
  by destruct (circradius t0) eqn:Hcr; simpl.
Qed.

Lemma arcs_outside_empty : arcs_outside ∅.
Proof. intros k t a H. by rewrite lookup_empty in H. Qed.

Lemma state0_range : RadarRange (situation state0) ≠ 0.
Proof. cbn. lra. Qed.

(** A first range-only report is processed normally from the start-up
    state. *)
Lemma sample_feed_run :
  ∃ s2, ingest_all [(1, range_only 7 1852 3000)] state0 = (Ok tt, s2).
Proof.
  eexists. cbn [ingest_all]. erewrite bind_Ok; [reflexivity|].
  apply ingested_new_traffic; [apply state0_complete|].
  apply (ingested_modes 1 _ state0 7 0 1 3000 false 0 false 1852);
    [apply range_only_report|done|done|lra|lra|apply state0_range].
Qed.

Lemma arcposition_assignment_witness :
  ∃ s2, ingest_all [(1, range_only 7 1852 3000)] state0 = (Ok tt, s2) ∧
    let p := last_arcposition state0 in
    let q := ((p + 210) mod 360)%Z in
    (∃ s', new_traffic 1 (range_only 7 1852 3000) state0 = (Ok tt, s') ∧
       if bool_decide (is_Some (all_ac state0 !! 7%Z ≫= circradius)) then
         last_arcposition s' = p ∧
         all_ac s' !! 7%Z ≫= arcposition = all_ac state0 !! 7%Z ≫= arcposition
       else
         last_arcposition s' = next_arcposition p ∧
         all_ac s' !! 7%Z ≫= arcposition = Some (next_arcposition p)) ∧
    next_arcposition p =
      (if bool_decide (130 <= q <= 230)%Z then ((q + 210) mod 360)%Z else q) ∧
    (0 <= next_arcposition p < 360)%Z ∧
    ¬ (130 <= next_arcposition p <= 230)%Z ∧
    arcs_outside (all_ac s2).
Proof.
  destruct sample_feed_run as [s2 Hfeed]. exists s2. split; [exact Hfeed|].
  apply (arcposition_assignment 1 (range_only 7 1852 3000) state0 7 0 1 3000
           false 0 false 1852 [(1, range_only 7 1852 3000)] s2).
  - apply state0_complete.
  - apply arcs_outside_empty.
  - apply range_only_report.
  - reflexivity.
  - reflexivity.
  - lra.
  - lra.
  - apply state0_range.
  - exact Hfeed.
Defined.

(** The pointer starts at 0.  The first advance gives 210, inside the
    sector, and is followed by a second one to 60; the next slots are 270,
    120 and 330; then 180 is skipped for 30. *)
Example first_arcpositions :
  next_arcposition 0 = 60%Z ∧ next_arcposition 60 = 270%Z ∧
  next_arcposition 270 = 120%Z ∧ next_arcposition 120 = 330%Z ∧
  next_arcposition 330 = 30%Z ∧ next_arcposition 30 = 240%Z.
Proof. repeat split; reflexivity. Qed.

(** ** C2: control messages *)

(** A control message carrying both keys stores them, empties the table
    when one of them differs from the stored value, and creates or updates
    no track. *)
Lemma control_message_applied now m s rr rl :
  msg_RadarRange m = Some rr → msg_RadarLimits m = Some rl →
  ∃ s', new_traffic now m s = (Ok tt, s') ∧
    RadarRange (situation s') = rr ∧ RadarLimits (situation s') = rl ∧
    all_ac s' =
      (if bool_decide (RadarRange (situation s) = rr ∧
                       RadarLimits (situation s) = rl)
       then all_ac s else ∅) ∧
    spoken s' = spoken s ∧ last_arcposition s' = last_arcposition s.
Proof.
  intros Hrr Hrl. eexists. split.
  { unfold new_traffic. step. rewrite Hrr. cbn [orb bool_decide].
    rewrite bool_decide_eq_true_2 by eauto. cbn [orb].
    by apply control_update_run. }
  rewrite all_ac_control_applied. unfold control_applied.
  autorewrite with globals.
  destruct (Reqb (RadarRange (situation s)) rr) eqn:E1,
           (Reqb (RadarLimits (situation s)) rl) eqn:E2;
    reflect_cmp; cbn [andb]; case_bool_decide as Hb; try (by destruct Hb);
    try (exfalso; by apply Hb); by split_and!.
Qed.

(** C2.  The message [{"RadarRange": 10}] received at range 5 with a track
    in the table: line 173 stores the new range, line 176 raises
    [KeyError: 'RadarLimits'], and the table is not emptied. *)
Theorem control_single_key_raises :
  ∃ s', new_traffic 100 (control (Some 10) None) state2
          = (Raise (KeyError "RadarLimits"), s') ∧
    RadarRange (situation s') = 10 ∧
    all_ac s' = all_ac state2 ∧
    all_ac s' !! 1%Z = Some (sample_track 50).
Proof.
  eexists. split.
  { unfold new_traffic. step. cbn [control msg_RadarRange orb bool_decide].
    rewrite bool_decide_eq_true_2 by eauto. cbn [orb].
    unfold control_update. do 2 step.
    rewrite (Reqb_false (RadarRange _) 10) by (cbn; lra). cbn [negb].
    do 2 step. by erewrite bind_Raise. }
  by split_and!.
Qed.

(** The same with only the other key: line 173 raises at once. *)
Lemma control_limits_only_raises :
  new_traffic 100 (control None (Some 5000)) state2
    = (Raise (KeyError "RadarRange"), with_aircraft_changed true state2).
Proof.
  unfold new_traffic. step. cbn [control msg_RadarRange msg_RadarLimits].
  rewrite (bool_decide_eq_true_2 (is_Some (Some 5000))) by eauto.
  rewrite orb_true_r. unfold control_update. step. by erewrite bind_Raise.
Qed.

(** ** C5: range-only reports without distance or altitude *)




(** ** More sample data *)

Lemma adsb_track_complete : complete_track adsb_track.
Proof. unfold complete_track, adsb_track. simpl. by eauto 10. Qed.

Lemma state3_complete : complete_table (all_ac state3).
Proof.
  repeat apply complete_table_insert;
    [apply complete_table_empty|apply adsb_track_complete
    |apply sample_track_complete].
Qed.

(** A report with a position for address 1 is processed normally. *)
Lemma sample_adsb_run :
  ∃ s', new_traffic 100 (positional 1 48.01 11 3000) state3 = (Ok tt, s').
Proof.
  eexists. apply ingested_new_traffic; [apply state3_complete|].
  apply (ingested_adsb 100 _ state3 1 0 1 3000 false 0 48.01 11);
    [apply positional_report|done|done|done|].
  rewrite (Reqb_false (RadarRange _) 0) by (cbn; lra). apply andb_false_r.
Qed.

(** A range-only report for address 2, estimated at one nautical mile. *)
Lemma sample_modes_run :
  ∃ s', new_traffic 100 (range_only 2 1852 3000)
          (with_situation (sit_set_gps_active false) state3) = (Ok tt, s').
Proof.
  eexists. apply ingested_new_traffic; [apply state3_complete|].
  apply (ingested_modes 100 _ _ 2 0 1 3000 false 0 false 1852);
    [apply range_only_report|done|done|lra|lra|cbn; lra].
Qed.

(** ** C4: a position clears the range-only radius *)

(** What an aircraft report with a position leaves for its address when
    the own GPS is valid. *)
Lemma ingested_positional now m s s' icao :
  ingested now m s s' →
  msg_RadarRange m = None → msg_RadarLimits m = None →
  Icao_addr m = Some icao → Position_valid m = Some true →
  gps_active (situation s) = true →
  ∃ age agelast alt sv vvel lat lng,
    s' = put_ac icao
           (adsb_tracked s m lat lng (found now m icao age agelast alt sv vvel s))
           (with_spoken
              (λ l, l ++ adsb_said s lat lng
                           (found now m icao age agelast alt sv vvel s))
              (with_aircraft_changed true s)) ∧
    aircraft_report m icao age agelast alt sv vvel true ∧
    Lat m = Some lat ∧ Lng m = Some lng.
Proof.
  intros Hi Hrr Hrl Hicao Hpv Hgps. destruct Hi.
  - congruence.
  - congruence.
  - match goal with H : aircraft_report _ _ _ _ _ _ _ _ |- _ =>
      pose proof H as (_ & _ & ? & _) end.
    assert (icao0 = icao) as -> by congruence. eauto 12.
  - match goal with H : aircraft_report _ _ _ _ _ _ _ _ |- _ =>
      pose proof H as (_ & _ & _ & _ & _ & _ & _ & _ & _ & ?) end.
    assert (pv = true) as -> by congruence. rewrite Hgps in *. done.
  - match goal with H : aircraft_report _ _ _ _ _ _ _ _ |- _ =>
      pose proof H as (_ & _ & _ & _ & _ & _ & _ & _ & _ & ?) end.
    assert (pv = true) as -> by congruence. rewrite Hgps in *. done.
Qed.

(** C4 (as the code has it).  When an aircraft report with a valid
    position is processed with the own GPS valid, for a track that carried
    [circradius], the track afterwards carries no [circradius] and does
    carry [gps_distance], [x] and [y]; [arcposition] is not deleted: it
    keeps the value it had. *)
Theorem position_clears_circradius now m s s' icao t :
  complete_table (all_ac s) →
  msg_RadarRange m = None → msg_RadarLimits m = None →
  Icao_addr m = Some icao → Position_valid m = Some true →
  gps_active (situation s) = true →
  all_ac s !! icao = Some t → is_Some (circradius t) →
  new_traffic now m s = (Ok tt, s') →
  ∃ t', all_ac s' !! icao = Some t' ∧ circradius t' = None ∧
    arcposition t' = arcposition t ∧
    is_Some (gps_distance t') ∧ is_Some (ac_x t') ∧ is_Some (ac_y t').
Proof.
  intros Hc Hrr Hrl Hicao Hpv Hgps Ht Hcirc Hrun.
  apply new_traffic_ingested in Hrun; [|done].
  destruct (ingested_positional _ _ _ _ _ Hrun Hrr Hrl Hicao Hpv Hgps)
    as (age & agelast & alt & sv & vvel & lat & lng & -> & _).
  eexists. split; [apply put_ac_lookup|].
  pose proof (adsb_tracked_fields s m lat lng
                (found now m icao age agelast alt sv vvel s))
    as (Hgd & _ & _ & _ & _ & _ & Hcr & Harc & _ & Hx & Hy & _).
  pose proof (found_fields now m icao age agelast alt sv vvel s)
    as (_ & _ & _ & _ & Harc0 & _).
  cbv zeta in *. rewrite Hgd, Hcr, Harc, Harc0, Hx, Hy, Ht. simpl.
  split_and!; eauto.
Qed.

Lemma position_clears_circradius_witness :
  ∃ s', new_traffic 100 (positional 1 48.01 11 3000) state3 = (Ok tt, s') ∧
    ∃ t', all_ac s' !! 1%Z = Some t' ∧ circradius t' = None ∧
      arcposition t' = arcposition (sample_track 50) ∧
      is_Some (gps_distance t') ∧ is_Some (ac_x t') ∧ is_Some (ac_y t').
Proof.
  destruct sample_adsb_run as [s' Hrun]. exists s'. split; [exact Hrun|].
  apply (position_clears_circradius 100 (positional 1 48.01 11 3000) state3 s'
           1 (sample_track 50)).
  - apply state3_complete.
  - reflexivity.
  - reflexivity.
  - reflexivity.
  - reflexivity.
  - reflexivity.
  - reflexivity.
  - simpl. eauto.
  - exact Hrun.
Defined.

(** The claim as stated fails for [arcposition]: the track of address 1
    carries [circradius] 20 and [arcposition] 60; after a report with a
    position it still carries [arcposition] 60. *)
Lemma position_clears_circradius_counterexample :
  ∃ s' t', new_traffic 100 (positional 1 48.01 11 3000) state3 = (Ok tt, s') ∧
    all_ac state3 !! 1%Z = Some (sample_track 50) ∧
    circradius (sample_track 50) = Some 20%Z ∧
    all_ac s' !! 1%Z = Some t' ∧ arcposition t' = Some 60%Z.
Proof.
  destruct sample_adsb_run as [s' Hrun].
  pose proof Hrun as Hi. apply new_traffic_ingested in Hi; [|apply state3_complete].
  destruct (ingested_positional _ _ _ _ 1 Hi) as
    (age & agelast & alt & sv & vvel & lat & lng & -> & _); try done.
  eexists _, _. split; [exact Hrun|]. split; [done|]. split; [done|].
  split; [apply put_ac_lookup|].
  pose proof (adsb_tracked_fields state3 (positional 1 48.01 11 3000) lat lng
                (found 100 (positional 1 48.01 11 3000) 1 age agelast alt sv vvel state3))
    as (_ & _ & _ & _ & _ & _ & _ & Harc & _).
  pose proof (found_fields 100 (positional 1 48.01 11 3000) 1 age agelast alt sv vvel state3)
    as (_ & _ & _ & _ & Harc0 & _).
  cbv zeta in *. by rewrite Harc, Harc0.
Qed.

(** ** C3: classification of the entries *)

Lemma consistent_table_insert (tbl : gmap Z track) k t :
  consistent_table tbl → consistent_track t → consistent_table (<[k := t]> tbl).
Proof.
  intros Hc Ht j u. destruct (decide (k = j)) as [->|Hne].
  - rewrite lookup_insert_eq. by intros [= <-].
  - rewrite lookup_insert_ne by done. apply Hc.
Qed.

Lemma default_consistent (tbl : gmap Z track) icao :
  consistent_table tbl → consistent_track (default fresh_track (tbl !! icao)).
Proof.
  intros Hc. destruct (tbl !! icao) as [t|] eqn:Hl; simpl; [by eapply Hc|].
  unfold consistent_track. simpl. repeat split; eauto; by intros [? ?].
Qed.

Lemma found_consistent now m icao age agelast alt sv vvel s :
  consistent_table (all_ac s) →
  consistent_track (found now m icao age agelast alt sv vvel s).
Proof.
  intros Hc. pose proof (default_consistent _ icao Hc) as (Hd & Hxy & Hca).
  pose proof (found_fields now m icao age agelast alt sv vvel s)
    as (_ & _ & Hgd & Hcr & Harc & _ & Hx & Hy & _).
  cbv zeta in *. unfold consistent_track. by rewrite Hgd, Hcr, Harc, Hx, Hy.
Qed.

Lemma adsb_tracked_consistent s m lat lng t :
  consistent_track (adsb_tracked s m lat lng t).
Proof.
  pose proof (adsb_tracked_fields s m lat lng t)
    as (Hgd & _ & _ & _ & _ & _ & Hcr & _ & _ & Hx & Hy & _).
  cbv zeta in *. unfold consistent_track. rewrite Hgd, Hcr, Hx, Hy.
  repeat split; eauto. by intros [? ?].
Qed.

Lemma modes_tracked_consistent s de t :
  consistent_track t → consistent_track (modes_tracked s de t).
Proof.
  intros (Hd & Hxy & Hca).
  pose proof (modes_tracked_fields s de t)
    as (Hgd & _ & _ & _ & _ & _ & Hcr & Harc & _ & Hx & Hy & _).
  cbv zeta in *. unfold consistent_track. rewrite Hgd, Hcr, Harc, Hx, Hy.
  split; [eauto|]. split; [done|]. intros _. case_bool_decide; eauto.
Qed.

Lemma ingested_consistent now m s s' :
  ingested now m s s' → consistent_table (all_ac s) →
  consistent_table (all_ac s').
Proof.
  intros Hi Hc. destruct Hi.
  - rewrite all_ac_control_applied. destruct (_ && _); [done|].
    intros k t Hk. by rewrite lookup_empty in Hk.
  - done.
  - apply consistent_table_insert; [done|apply adsb_tracked_consistent].
  - apply consistent_table_insert; [done|by apply found_consistent].
  - apply consistent_table_insert; [done|].
    by apply modes_tracked_consistent, found_consistent.
Qed.

(** C3 (as the code has it).  After every traffic-ingest operation that
    returns, on a table for which this held before: every entry carries
    [gps_distance], carries [x] exactly when it carries [y], and carries
    [circradius] only together with [arcposition]; and the entry of a
    report processed on the ADS-B path carries [x] and [y] and no
    [circradius].  (An entry may carry neither classification.) *)
Theorem classification_invariant now m s s' :
  complete_table (all_ac s) → consistent_table (all_ac s) →
  new_traffic now m s = (Ok tt, s') →
  consistent_table (all_ac s') ∧
  ∀ icao,
    msg_RadarRange m = None → msg_RadarLimits m = None →
    Icao_addr m = Some icao → Position_valid m = Some true →
    gps_active (situation s) = true →
    ∃ t', all_ac s' !! icao = Some t' ∧ is_Some (gps_distance t') ∧
      is_Some (ac_x t') ∧ is_Some (ac_y t') ∧ circradius t' = None.
Proof.
  intros Hc Hcons Hrun. apply new_traffic_ingested in Hrun; [|done].
  split; [by eapply ingested_consistent|].
  intros icao Hrr Hrl Hicao Hpv Hgps.
  destruct (ingested_positional _ _ _ _ _ Hrun Hrr Hrl Hicao Hpv Hgps)
    as (age & agelast & alt & sv & vvel & lat & lng & -> & _).
  eexists. split; [apply put_ac_lookup|].
  pose proof (adsb_tracked_fields s m lat lng
                (found now m icao age agelast alt sv vvel s))
    as (Hgd & _ & _ & _ & _ & _ & Hcr & _ & _ & Hx & Hy & _).
  cbv zeta in *. rewrite Hgd, Hcr, Hx, Hy. split_and!; eauto.
Qed.

Lemma sample_track_consistent ts : consistent_track (sample_track ts).
Proof.
  unfold consistent_track, sample_track. simpl.
  repeat split; eauto; by intros [? ?].
Qed.

Lemma adsb_track_consistent : consistent_track adsb_track.
Proof.
  unfold consistent_track, adsb_track. simpl.
  repeat split; eauto; by intros [? ?].
Qed.

Lemma state3_consistent : consistent_table (all_ac state3).
Proof.
  repeat apply consistent_table_insert;
    [intros k t Hk; by rewrite lookup_empty in Hk
    |apply adsb_track_consistent|apply sample_track_consistent].
Qed.

Lemma classification_invariant_witness :
  ∃ s', new_traffic 100 (positional 1 48.01 11 3000) state3 = (Ok tt, s') ∧
    consistent_table (all_ac s') ∧
    ∀ icao,
      msg_RadarRange (positional 1 48.01 11 3000) = None →
      msg_RadarLimits (positional 1 48.01 11 3000) = None →
      Icao_addr (positional 1 48.01 11 3000) = Some icao →
      Position_valid (positional 1 48.01 11 3000) = Some true →
      gps_active (situation state3) = true →
      ∃ t', all_ac s' !! icao = Some t' ∧ is_Some (gps_distance t') ∧
        is_Some (ac_x t') ∧ is_Some (ac_y t') ∧ circradius t' = None.
Proof.
  destruct sample_adsb_run as [s' Hrun]. exists s'. split; [exact Hrun|].
  apply (classification_invariant 100 (positional 1 48.01 11 3000) state3 s').
  - apply state3_complete.
  - apply state3_consistent.
  - exact Hrun.
Defined.

(** The claim as stated fails in both directions.  A first report without
    estimated distance leaves a track with neither classification; and a
    range-only report for the ADS-B track of address 2 (the own GPS having
    become invalid) leaves it with [x], [y] and [direction] as well as
    [circradius] and [arcposition]. *)
Lemma classification_invariant_counterexample :
  (∃ s' t, new_traffic 100 (range_only 7 0 3000) state0 = (Ok tt, s') ∧
     all_ac s' !! 7%Z = Some t ∧
     ac_x t = None ∧ ac_y t = None ∧ direction t = None ∧
     circradius t = None ∧ arcposition t = None) ∧
  (∃ s' t, new_traffic 100 (range_only 2 1852 3000)
             (with_situation (sit_set_gps_active false) state3) = (Ok tt, s') ∧
     all_ac s' !! 2%Z = Some t ∧
     ac_x t = Some 120%Z ∧ ac_y t = Some 80%Z ∧ direction t = Some 45 ∧
     is_Some (circradius t) ∧ is_Some (arcposition t)).
Proof.
  split.
  - eexists _, _. split; [|split; [apply put_ac_lookup|]].
    + apply ingested_new_traffic; [apply state0_complete|].
      apply (ingested_skipped 100 _ state0 7 0 1 3000 false 0 false 0);
        [apply range_only_report|done|done|by left].
    + pose proof (found_fields 100 (range_only 7 0 3000) 7 0 1 3000 false 0 state0)
        as (_ & _ & _ & Hcr & Harc & Hdir & Hx & Hy & _).
      cbv zeta in *. by rewrite Hcr, Harc, Hdir, Hx, Hy.
  - set (s := with_situation (sit_set_gps_active false) state3).
    eexists _, _. split; [|split; [apply put_ac_lookup|]].
    + apply ingested_new_traffic; [apply state3_complete|].
      apply (ingested_modes 100 _ s 2 0 1 3000 false 0 false 1852);
        [apply range_only_report|done|done|lra|lra|cbn; lra].
    + pose proof (modes_tracked_fields s 1852
                    (found 100 (range_only 2 1852 3000) 2 0 1 3000 false 0 s))
        as (_ & _ & _ & _ & _ & _ & Hcr & Harc & Hdir & Hx & Hy & _).
      pose proof (found_fields 100 (range_only 2 1852 3000) 2 0 1 3000 false 0 s)
        as (_ & _ & _ & Hcr0 & _ & Hdir0 & Hx0 & Hy0 & _).
      cbv zeta in *. rewrite Hcr, Harc, Hdir, Hx, Hy, Hdir0, Hx0, Hy0, Hcr0.
      split_and!; try done; simpl; eauto.
Qed.

(** ** C10: the five keys every entry carries *)

(** Whatever [new_traffic] returns on a message of the feed, the table
    stays complete. *)
Lemma new_traffic_complete now m s :
  complete_table (all_ac s) → feed_shaped m →
  complete_table (all_ac (new_traffic now m s).2).
Proof.
  intros Hc Hshape. unfold new_traffic. step.
  destruct (bool_decide (is_Some (msg_RadarRange m)) || _) eqn:Hctl.
  { by apply preserving_control_update. }
  apply orb_false_elim in Hctl as [Hrr%bool_decide_eq_false Hrl%bool_decide_eq_false].
  destruct (Icao_addr m) as [icao|] eqn:Hicao; [|done].
  destruct Hshape as [?|[?|[?|Hshape]]]; try done; try congruence.
  destruct Hshape as (age & agelast & alt & sv & vvel & Hage & Hagelast & Halt
                      & Hsv & Hsp & Hvvel).
  rewrite (bind_Ok _ _ _ _ _
    (track_bookkeeping_run now _ icao _ _ _ _ _ _ Hage Hagelast Halt Hsv Hsp Hvvel)).
  autorewrite with globals.
  fold (found now m icao age agelast alt sv vvel s).
  set (s1 := put_ac icao (found now m icao age agelast alt sv vvel s)
               (with_aircraft_changed true s)).
  assert (tracked icao s1) as Htr.
  { split; [|unfold s1; rewrite put_ac_lookup; eauto].
    apply complete_table_insert; [done|by apply found_complete]. }
  clearbody s1.
  assert (preserving (tracked icao)
            (position_valid <- getitem "Position_valid" (Position_valid m) ;;
             sit <- gets situation ;;
             if position_valid && gps_active sit
             then adsb_update m icao
             else modes_update m icao (bool_decide (all_ac s !! icao = None))))
    as Hpres.
  { apply preserving_bind; [apply preserving_getitem|intros pv].
    apply preserving_bind; [apply preserving_gets|intros sit].
    destruct (pv && gps_active sit);
      [apply preserving_adsb_update|apply preserving_modes_update]. }
  by destruct (Hpres s1 Htr) as [Hfin _].
Qed.

(** The sort key of [draw_all_ac] is present on every entry. *)
Lemma sort_keys_run items s :
  (∀ k t, (k, t) ∈ items → is_Some (gps_distance t)) →
  ∃ keyed, sort_keys items s = (Ok keyed, s).
Proof.
  induction items as [|[k t] rest IH]; intros Hd; [by eexists|].
  destruct (Hd k t) as [d Hk]; [apply list_elem_of_here|].
  destruct IH as [keyed Hrest].
  { intros j u ?. apply (Hd j u). by apply list_elem_of_further. }
  eexists. simpl. rewrite Hk. step. by rewrite (bind_Ok _ _ _ _ _ Hrest).
Qed.

(** C10.  On a complete table (every entry carries [gps_distance],
    [was_spoken], [last_contact_timestamp], [height] and [vspeed]) and for
    every message of the feed: the table is complete after [new_traffic],
    whatever it returns, and an aircraft report leaves an entry for its
    address; the eviction sweep returns without a [KeyError] and leaves a
    complete table; and the sort of [draw_all_ac] finds its key on every
    entry.  The table is complete at start-up, being empty. *)
Theorem table_stays_complete now m s :
  complete_table (all_ac s) → feed_shaped m →
  complete_table (all_ac (new_traffic now m s).2) ∧
  ((new_traffic now m s).1 = Ok tt →
   msg_RadarRange m = None → msg_RadarLimits m = None →
   ∀ icao, Icao_addr m = Some icao →
     ∃ t, all_ac (new_traffic now m s).2 !! icao = Some t ∧ complete_track t) ∧
  (∃ s', cutoff_sweep now s = (Ok tt, s') ∧ complete_table (all_ac s')) ∧
  (∃ keyed, sort_keys (map_to_list (all_ac s)) s = (Ok keyed, s)) ∧
  complete_table (∅ : gmap Z track).
Proof.
  intros Hc Hshape.
  pose proof (new_traffic_complete now m s Hc Hshape) as Hc'.
  split_and!.
  - done.
  - intros Hok Hrr Hrl icao Hicao.
    destruct (new_traffic now m s) as [r s'] eqn:Hrun. simpl in *. subst r.
    apply new_traffic_ingested in Hrun; [|done].
    assert (is_Some (all_ac s' !! icao)) as [t Ht].
    { destruct Hrun;
        try match goal with H : aircraft_report _ _ _ _ _ _ _ _ |- _ =>
          destruct H as (_ & _ & ? & _) end;
        try congruence;
        assert (icao0 = icao) as -> by congruence;
        rewrite put_ac_lookup; eauto. }
    exists t. split; [done|]. by eapply Hc'.
  - destruct (cutoff_sweep_run now s Hc) as (s' & Hrun & Hl & _).
    exists s'. split; [done|]. intros k t. rewrite Hl.
    destruct (all_ac s !! k) as [u|] eqn:Hk; [|done].
    destruct (stale _ u); [done|]. intros [= <-]. by eapply Hc.
  - apply sort_keys_run. intros k t Hkt%elem_of_map_to_list.
    by destruct (Hc _ _ Hkt) as (? & _).
  - apply complete_table_empty.
Qed.

Lemma range_only_shaped icao de alt : feed_shaped (range_only icao de alt).
Proof. do 3 right. exists 0, 1, alt, false, 0. simpl. by split_and!. Qed.

Lemma table_stays_complete_witness :
  complete_table (all_ac (new_traffic 100 (range_only 7 1852 3000) state2).2) ∧
  ((new_traffic 100 (range_only 7 1852 3000) state2).1 = Ok tt →
   msg_RadarRange (range_only 7 1852 3000) = None →
   msg_RadarLimits (range_only 7 1852 3000) = None →
   ∀ icao, Icao_addr (range_only 7 1852 3000) = Some icao →
     ∃ t, all_ac (new_traffic 100 (range_only 7 1852 3000) state2).2 !! icao
            = Some t ∧ complete_track t) ∧
  (∃ s', cutoff_sweep 100 state2 = (Ok tt, s') ∧ complete_table (all_ac s')) ∧
  (∃ keyed, sort_keys (map_to_list (all_ac state2)) state2 = (Ok keyed, state2)) ∧
  complete_table (∅ : gmap Z track).
Proof.
  apply (table_stays_complete 100 (range_only 7 1852 3000) state2).
  - apply state2_complete.
  - apply range_only_shaped.
Defined.

(** ** Geometry facts *)

(** A target due north, at most 180 degrees of latitude away: the distance
    is the arc along the meridian and the bearing is 0. *)
Lemma distance_and_bearing_north own_lat own_lng lat :
  0 < lat - own_lat <= 180 →
  distance_and_bearing own_lat own_lng lat own_lng =
    ((lat - own_lat) * PI / 180 * 6371008.8 / 1852, 0).
Proof.
  intros Hd. pose proof PI_RGT_0 as Hpi. unfold distance_and_bearing.
  assert (radians_rel (own_lng - own_lng) = 0) as ->.
  { unfold radians_rel. rewrite Rltb_false, Rleb_false by lra. lra. }
  assert (radians_rel (lat - own_lat) = (lat - own_lat) * PI / 180) as ->.
  { unfold radians_rel. by rewrite Rltb_false, Rleb_false by lra. }
  set (d := (lat - own_lat) * PI / 180 * 6371008.8 / 1852).
  assert (0 < d) as Hpos.
  { unfold d. apply Rmult_lt_0_compat; [|lra].
    apply Rmult_lt_0_compat; [|lra]. apply Rmult_lt_0_compat; [|lra].
    apply Rmult_lt_0_compat; lra. }
  replace (0 * 6371008.8 / 1852 * Rabs (cos (radians_rel ((own_lat + lat) / 2))))
    with 0 by lra.
  rewrite Rltb_false, Rltb_true by lra.
  f_equal.
  - replace (d * d + 0 * 0) with (d * d) by lra. apply sqrt_square. lra.
  - replace (0 / - d) with 0 by (unfold Rdiv; lra).
    rewrite atan_0, Ropp_0. unfold degrees. lra.
Qed.

Lemma distance_nonneg own_lat own_lng lat lng :
  0 <= (distance_and_bearing own_lat own_lng lat lng).1.
Proof. unfold distance_and_bearing. simpl. apply sqrt_pos. Qed.

(** ** C8: the clock position of an alert *)

(** Where the normalisation of lines 228-231 is enough: relative bearings
    above -345 degrees (and below 375). *)
Lemma clock_position_range res_angle :
  -345 < res_angle < 375 → (1 <= clock_position res_angle <= 12)%Z.
Proof.
  intros Hr. unfold clock_position.
  pose proof (py_round_interval (res_angle / 30)) as Hb.
  set (r := py_round (res_angle / 30)) in *.
  assert (-12 < r)%Z as Hlo by (apply lt_IZR; lra).
  assert (r < 13)%Z as Hhi by (apply lt_IZR; lra).
  destruct (Z.leb_spec r 0), (Z.ltb_spec 12 r);
    repeat match goal with |- context [(?a <? ?b)%Z] => destruct (Z.ltb_spec a b) end;
    lia.
Qed.

(** Below that the normalisation falls short: relative bearings from -375
    to -345 degrees give the clock position 0, which [speaktraffic] leaves
    out of the text. *)
Lemma clock_position_zero res_angle :
  -375 < res_angle < -345 → clock_position res_angle = 0%Z.
Proof.
  intros Hr. unfold clock_position.
  rewrite (py_round_near _ (-12)) by lra. reflexivity.
Qed.

(** A target at bearing -89 (just north of west) seen from course 359. *)
Example clock_position_negative : clock_position (-89 - 359) = (-3)%Z.
Proof. unfold clock_position. rewrite (py_round_near _ (-15)) by lra. reflexivity. Qed.

Lemma rel_height_state3 : rel_height 3000 state3 = 10%Z.
Proof. unfold rel_height. cbn. apply py_round_near. lra. Qed.

(** The distance from 48 N to 48.01 N: about 0.6 nautical miles. *)
Lemma sample_distance :
  calc_gps_distance situation3 48.01 11 =
    ((48.01 - 48) * PI / 180 * 6371008.8 / 1852, 0) ∧
  0 < (48.01 - 48) * PI / 180 * 6371008.8 / 1852 < 1.
Proof.
  split.
  - unfold calc_gps_distance. cbn [latitude longitude situation3].
    apply distance_and_bearing_north. lra.
  - pose proof PI_RGT_0. pose proof PI_4. lra.
Qed.

(** C8.  Own course 350, own position 48 N 11 E, a target due north at
    48.01 N 11 E, 1000 feet above, range 5 nm: the target is 10 degrees
    right of the nose, at 12 o'clock.  The code computes the relative
    bearing 0 - 350 = -350, [round(-350 / 30)] = -12, adds 12 once and
    gets 0; [speaktraffic] takes 0 for no direction and the alert is
    spoken without a clock position. *)
Theorem clock_position_missing :
  ∃ s', new_traffic 100 (positional 9 48.01 11 3000) state3 = (Ok tt, s') ∧
    spoken s' = ["Traffic plus 1000 feet"%string] ∧
    clock_position (0 - IZR (course (situation state3))) = 0%Z.
Proof.
  destruct sample_distance as [Hgeo Hd].
  assert (clock_position (0 - IZR (course (situation state3))) = 0%Z) as Hclock.
  { apply clock_position_zero. cbn. lra. }
  eexists. split; [|split; [|exact Hclock]].
  - apply ingested_new_traffic; [apply state3_complete|].
    apply (ingested_adsb 100 _ state3 9 0 1 3000 false 0 48.01 11);
      [apply positional_report|done|done|done|].
    rewrite (Reqb_false (RadarRange _) 0) by (cbn; lra). apply andb_false_r.
  - autorewrite with globals. cbn [spoken with_spoken state3 app].
    unfold adsb_said.
    pose proof (found_fields 100 (positional 9 48.01 11 3000) 9 0 1 3000 false 0 state3)
      as (Hh & Hws & _).
    cbv zeta in Hh, Hws. rewrite Hh, rel_height_state3. cbn [default].
    change (situation state3) with situation3 in *. rewrite Hgeo. cbn [fst snd].
    unfold in_limits, adsb_texts. rewrite Hh, Hws, rel_height_state3.
    cbn [RadarRange RadarLimits situation3].
    rewrite !Rleb_true by (cbn; lra). cbn [andb].
    change (all_ac state3 !! 9%Z) with (@None track). cbn [default was_spoken fresh_track].
    change (Z.abs (Datatypes.id 10%Z)) with 10%Z.
    rewrite !Rleb_true by lra. rewrite Hclock. reflexivity.
Qed.

(** ** C9: the screen position of an ADS-B target *)

Lemma sqrt_half : sqrt (1 / 2) = sqrt 2 / 2.
Proof.
  pose proof (sqrt_pos 2). pose proof (sqrt_sqrt 2).
  apply sqrt_lem_1; [lra|lra|]. nra.
Qed.

(** Two points less than half a pixel apart on each axis. *)
Lemma dist_euc_half x y u v :
  u - 1 / 2 <= x <= u + 1 / 2 → v - 1 / 2 <= y <= v + 1 / 2 →
  dist_euc x y u v <= sqrt 2 / 2.
Proof.
  intros Hx Hy. unfold dist_euc. rewrite <- sqrt_half.
  apply sqrt_le_1_alt. unfold Rsqr. nra.
Qed.

(** The unrounded pixel lies on the circle of radius
    [max_pixel / 2 * gps_rad / range] around the centre. *)
Lemma dist_euc_exact mp zx zy range theta d :
  0 <= mp → 0 < range → 0 <= d →
  dist_euc (mp / 2 * (sin theta * d) / range + zx)
           (mp / 2 * (- cos theta * d) / range + zy) zx zy
    = mp / 2 * d / range.
Proof.
  intros Hmp Hr Hd. unfold dist_euc.
  set (rho := mp / 2 * d / range).
  assert (0 <= rho) as Hrho.
  { unfold rho. apply Rmult_le_pos; [|left; by apply Rinv_0_lt_compat].
    apply Rmult_le_pos; lra. }
  replace ((mp / 2 * (sin theta * d) / range + zx - zx)² +
           (mp / 2 * (- cos theta * d) / range + zy - zy)²)
    with (rho² * ((sin theta)² + (cos theta)²)).
  - rewrite sin2_cos2, Rmult_1_r. by apply sqrt_Rsqr.
  - unfold rho, Rsqr. field. lra.
Qed.

(** The stored pixel is at that radius up to the rounding of the two
    coordinates. *)
Lemma screen_distance mp zx zy range crs d a :
  0 <= mp → 0 < range → 0 <= d →
  Rabs (dist_euc (IZR (screen_x mp zx range crs d a))
                 (IZR (screen_y mp zy range crs d a)) zx zy
        - mp / 2 * d / range) <= sqrt 2 / 2.
Proof.
  intros Hmp Hr Hd. unfold screen_x, screen_y.
  set (theta := radians (a - IZR crs)).
  set (ex := mp / 2 * (sin theta * d) / range + zx).
  set (ey := mp / 2 * (- cos theta * d) / range + zy).
  pose proof (dist_euc_exact mp zx zy range theta d Hmp Hr Hd) as Hexact.
  fold ex ey in Hexact. rewrite <- Hexact.
  pose proof (py_round_interval ex) as Hx.
  pose proof (py_round_interval ey) as Hy.
  assert (dist_euc (IZR (py_round ex)) (IZR (py_round ey)) ex ey <= sqrt 2 / 2)
    as Hnear by (apply dist_euc_half; lra).
  pose proof (triangle (IZR (py_round ex)) (IZR (py_round ey)) zx zy ex ey) as T1.
  pose proof (triangle ex ey zx zy (IZR (py_round ex)) (IZR (py_round ey))) as T2.
  rewrite (distance_symm ex ey (IZR (py_round ex))) in T2.
  apply Rabs_le. lra.
Qed.

(** C9.  For a report with a valid position, processed with the own GPS
    valid, whose distance is within the range and whose relative height is
    within the limit (the range being positive, the display extent not
    negative): [new_traffic] returns, the stored [gps_distance] is the
    computed distance, the stored pixel is [screen_position] of the display
    geometry, the own course and position, the target position and the
    range, and its Euclidean distance from the centre differs from
    [max_pixel / 2 * gps_distance / RadarRange] by at most [sqrt 2 / 2],
    the rounding of the two coordinates.  Numbers are real numbers here,
    so the rounding of floating-point arithmetic is left out. *)
Theorem screen_projection now m s icao age agelast alt sv vvel lat lng :
  complete_table (all_ac s) →
  aircraft_report m icao age agelast alt sv vvel true →
  gps_active (situation s) = true →
  Lat m = Some lat → Lng m = Some lng →
  (calc_gps_distance (situation s) lat lng).1 <= RadarRange (situation s) →
  IZR (Z.abs (rel_height alt s)) <= RadarLimits (situation s) →
  0 < RadarRange (situation s) → 0 <= max_pixel s →
  ∃ s' t' px py gps_rad,
    new_traffic now m s = (Ok tt, s') ∧ all_ac s' !! icao = Some t' ∧
    gps_distance t' = Some gps_rad ∧
    gps_rad = (calc_gps_distance (situation s) lat lng).1 ∧
    ac_x t' = Some px ∧ ac_y t' = Some py ∧
    (px, py) =
      screen_position (max_pixel s) (zerox s) (zeroy s) (course (situation s))
        (latitude (situation s)) (longitude (situation s)) lat lng
        (RadarRange (situation s)) ∧
    Rabs (dist_euc (IZR px) (IZR py) (zerox s) (zeroy s)
          - max_pixel s / 2 * gps_rad / RadarRange (situation s))
      <= sqrt 2 / 2.
Proof.
  intros Hc Hrep Hgps Hlat Hlng Hin Hh Hrange Hmp.
  set (t1 := found now m icao age agelast alt sv vvel s).
  pose proof (adsb_tracked_fields s m lat lng t1)
    as (Hgd & _ & _ & _ & _ & _ & _ & _ & _ & Hx & Hy & _).
  pose proof (found_fields now m icao age agelast alt sv vvel s) as (Hh1 & _).
  cbv zeta in *. fold t1 in Hh1. rewrite Hh1 in Hx, Hy.
  change (default 0%Z (Some (rel_height alt s))) with (rel_height alt s) in Hx, Hy.
  assert (in_limits (situation s) (calc_gps_distance (situation s) lat lng).1
            (rel_height alt s) = true) as Hlim.
  { unfold in_limits. by rewrite !Rleb_true. }
  rewrite Hlim in Hx, Hy.
  eexists _, (adsb_tracked s m lat lng t1), _, _, _. split.
  { apply ingested_new_traffic; [done|].
    apply (ingested_adsb now m s icao age agelast alt sv vvel lat lng);
      try done.
    rewrite (Reqb_false (RadarRange _) 0) by lra. apply andb_false_r. }
  split; [apply put_ac_lookup|].
  split; [exact Hgd|]. split; [done|]. split; [exact Hx|]. split; [exact Hy|].
  split; [done|].
  apply screen_distance; [done|done|]. apply distance_nonneg.
Qed.

Lemma screen_projection_witness :
  ∃ s' t' px py gps_rad,
    new_traffic 100 (positional 9 48.01 11 3000) state3 = (Ok tt, s') ∧
    all_ac s' !! 9%Z = Some t' ∧
    gps_distance t' = Some gps_rad ∧
    gps_rad = (calc_gps_distance (situation state3) 48.01 11).1 ∧
    ac_x t' = Some px ∧ ac_y t' = Some py ∧
    (px, py) =
      screen_position (max_pixel state3) (zerox state3) (zeroy state3)
        (course (situation state3)) (latitude (situation state3))
        (longitude (situation state3)) 48.01 11 (RadarRange (situation state3)) ∧
    Rabs (dist_euc (IZR px) (IZR py) (zerox state3) (zeroy state3)
          - max_pixel state3 / 2 * gps_rad / RadarRange (situation state3))
      <= sqrt 2 / 2.
Proof.
  apply (screen_projection 100 (positional 9 48.01 11 3000) state3 9 0 1 3000
           false 0 48.01 11).
  - apply state3_complete.
  - apply positional_report.
  - reflexivity.
  - reflexivity.
  - reflexivity.
  - change (situation state3) with situation3.
    rewrite (proj1 sample_distance). cbn [fst RadarRange situation3].
    destruct (proj2 sample_distance) as [_ Hlt].
    lra.
  - rewrite rel_height_state3. change (10 <= 10000). lra.
  - cbn. lra.
  - cbn. lra.
Defined.

(** ** C1: alert hysteresis *)







Lemma height_found now m icao age agelast alt sv vvel s :
  default 0%Z (height (found now m icao age agelast alt sv vvel s)) =
    rel_height alt s.
Proof.
  pose proof (found_fields now m icao age agelast alt sv vvel s) as (Hh & _).
  cbv zeta in Hh. by rewrite Hh.
Qed.






(** The same for a range-only report with usable distance and altitude. *)
Lemma modes_step now m s icao age agelast alt sv vvel pv de :
  complete_table (all_ac s) →
  aircraft_report m icao age agelast alt sv vvel pv →
  pv && gps_active (situation s) = false →
  DistanceEstimated m = Some de → de ≠ 0 → alt ≠ 0 →
  let d := de / 1852 in
  let range := RadarRange (situation s) in
  let ws := default false (flag s icao) in
  range ≠ 0 →
  ∃ s', new_traffic now m s = (Ok tt, s') ∧
    complete_table (all_ac s') ∧ situation s' = situation s ∧
    distance s' icao = Some d ∧
    flag s' icao =
      Some (if Rleb d (range / 2) then true
            else if Rltb (range * 0.75) d then false else ws) ∧
    ∃ txt, spoken s' =
      spoken s ++ (if Rleb d (range / 2) && negb ws then [txt] else []).
Proof.
  intros Hc Hrep Hpath Hde Hde0 Halt0 d range ws Hrange.
  assert (ingested now m s
            (put_ac icao
               (modes_tracked s de (found now m icao age agelast alt sv vvel s))
               (with_spoken
                  (λ l, l ++ modes_said s de
                               (found now m icao age agelast alt sv vvel s))
                  (with_last_arcposition
                     (modes_pointer s (found now m icao age agelast alt sv vvel s))
                     (with_aircraft_changed true s))))) as Hi.
  { by apply (ingested_modes now m s icao age agelast alt sv vvel pv de). }
  eexists. split; [by apply ingested_new_traffic|].
  split; [by eapply ingested_complete|]. split; [done|].
  pose proof (modes_tracked_fields s de
                (found now m icao age agelast alt sv vvel s)) as (Hgd & Hws' & _).
  cbv zeta in Hgd, Hws'. fold d in Hgd, Hws'.
  assert (was_spoken (found now m icao age agelast alt sv vvel s) = Some ws) as Hws.
  { pose proof (found_fields now m icao age agelast alt sv vvel s) as (_ & Hw & _).
    cbv zeta in Hw. rewrite Hw. unfold ws, flag.
    destruct (all_ac s !! icao) as [t|] eqn:Hk; [|done].
    destruct (Hc _ _ Hk) as (_ & [w Hw'] & _). simpl. by rewrite Hw'. }
  rewrite (modes_alerted_was_spoken _ _ _ _ Hws) in Hws'.
  split; [unfold distance; by rewrite put_ac_lookup|].
  split; [unfold flag; by rewrite put_ac_lookup|].
  cbn [spoken put_ac with_all_ac with_spoken with_aircraft_changed
       with_last_arcposition].
  unfold modes_said, modes_texts. fold d range. rewrite Hws.
  pose proof (found_fields now m icao age agelast alt sv vvel s) as (Hh & _).
  cbv zeta in Hh. rewrite Hh.
  eexists. destruct (Rleb d (range / 2)), ws; reflexivity.
Qed.

Lemma boundary_range_pos : 0 < boundary_range.
Proof. pose proof PI_RGT_0. unfold boundary_range. lra. Qed.





(** On the branch of line 245 the comparison is strict: address 7 is
    announced at 1 nm with a range of 5 nm, is then reported at exactly
    3.75 nm, and is not announced again when it comes back to 1 nm. *)
Lemma modes_boundary_run :
  ∃ s1 s2 s3,
    new_traffic 1 (range_only 7 1852 1000) state0 = (Ok tt, s1) ∧
    alert_spoken (range_only 7 1852 1000) 7 state0 s1 ∧
    new_traffic 2 (range_only 7 6945 1000) s1 = (Ok tt, s2) ∧
    distance s2 7 = Some (RadarRange (situation s2) * 0.75) ∧
    new_traffic 3 (range_only 7 1852 1000) s2 = (Ok tt, s3) ∧
    spoken s3 = spoken s2.
Proof.
  destruct (modes_step 1 (range_only 7 1852 1000) state0 7 0 1 1000 false 0
              false 1852)
    as (s1 & Hrun1 & Hc1 & Hsit1 & _ & Hf1 & txt1 & Hsp1);
    [apply complete_table_empty|apply range_only_report|done|done|lra|lra|
     cbn; lra|].
  destruct (modes_step 2 (range_only 7 6945 1000) s1 7 0 1 1000 false 0
              false 6945)
    as (s2 & Hrun2 & Hc2 & Hsit2 & Hd2 & Hf2 & _);
    [done|apply range_only_report|done|done|lra|lra|rewrite Hsit1; cbn; lra|].
  destruct (modes_step 3 (range_only 7 1852 1000) s2 7 0 1 1000 false 0
              false 1852)
    as (s3 & Hrun3 & _ & _ & _ & _ & txt3 & Hsp3);
    [done|apply range_only_report|done|done|lra|lra|
     rewrite Hsit2, Hsit1; cbn; lra|].
  rewrite Hsit1 in Hf2. rewrite Hsit2, Hsit1 in Hsp3.
  cbn [RadarRange situation state0 situation0] in Hf1, Hf2, Hsp1, Hsp3.
  rewrite Rleb_true in Hsp1, Hf1, Hsp3 by lra.
  rewrite Rleb_false, Rltb_false, Hf1 in Hf2 by lra.
  rewrite Hf2 in Hsp3. cbn in Hsp1, Hsp3. rewrite app_nil_r in Hsp3.
  exists s1, s2, s3. split_and!; try done.
  - split; [done|]. by exists txt1.
  - rewrite Hd2, Hsit2, Hsit1. f_equal. cbn. lra.
Qed.

(** * Further properties of the code *)

(** ** Geometry of [radians_rel] and [calc_gps_distance] *)

Lemma radians_rel_inner x : -180 < x <= 180 → radians_rel x = x * PI / 180.
Proof.
  intros Hx. unfold radians_rel. by rewrite Rltb_false, Rleb_false by lra.
Qed.

(** X1.  [radians_rel] takes off or adds one full turn at most: its result is in
    (-pi, pi] exactly for the angles in (-540, 540]. *)
Theorem radians_rel_range angle :
  (- PI < radians_rel angle <= PI ↔ -540 < angle <= 540) ∧
  ∃ k : Z, (-1 <= k <= 1)%Z ∧
    radians_rel angle = (angle + 360 * IZR k) * PI / 180.
Proof.
  pose proof PI_RGT_0 as Hpi. unfold radians_rel.
  destruct (Rltb 180 angle) eqn:E1.
  - apply Rltb_lt in E1. rewrite Rleb_false by lra. split.
    + split; intros H; [split; [lra|] | split; [nra|]].
      * destruct (Rle_dec angle 540); [done|]. exfalso. nra.
      * nra.
    + exists (-1)%Z. split; [lia|]. f_equal. f_equal. lra.
  - apply Rltb_ge in E1. destruct (Rleb angle (-180)) eqn:E2.
    + apply Rleb_le in E2. split.
      * split; intros H; [split; [|lra] | split; [|nra]].
        -- destruct (Rlt_dec (-540) angle); [done|]. exfalso. nra.
        -- nra.
      * exists 1%Z. split; [lia|]. f_equal. f_equal. lra.
    + apply Rleb_gt in E2. split.
      * split; intros H; [lra | split; nra].
      * exists 0%Z. split; [lia|]. f_equal. f_equal. lra.
Qed.

Lemma degrees_lt a b : a < b → degrees a < degrees b.
Proof.
  intros H. pose proof PI_RGT_0 as Hpi. unfold degrees.
  apply Rmult_lt_compat_r; [apply Rinv_0_lt_compat; lra | lra].
Qed.

Lemma degrees_PI k : degrees (k * PI) = k * 180.
Proof. pose proof PI_RGT_0. unfold degrees. field. lra. Qed.

(** X2.  The distance is never negative and the bearing lies strictly between
    -90 and 270 degrees: between -90 and 90 for a target to the north of
    the own latitude, between 90 and 270 for one to the south. *)
Theorem bearing_range sit lat lng :
  0 <= (calc_gps_distance sit lat lng).1 ∧
  -90 < (calc_gps_distance sit lat lng).2 < 270 ∧
  (0 < lat - latitude sit <= 180 → -90 < (calc_gps_distance sit lat lng).2 < 90) ∧
  (-180 < lat - latitude sit < 0 → 90 < (calc_gps_distance sit lat lng).2 < 270).
Proof.
  unfold calc_gps_distance, distance_and_bearing. cbn [fst snd]. split.
  { apply sqrt_pos. }
  pose proof PI_RGT_0 as Hpi.
  set (distlat := radians_rel (lat - latitude sit) * 6371008.8 / 1852).
  assert (0 < lat - latitude sit <= 180 → 0 < distlat) as Hnorth.
  { intros H. unfold distlat. rewrite radians_rel_inner by lra. nra. }
  assert (-180 < lat - latitude sit < 0 → distlat < 0) as Hsouth.
  { intros H. unfold distlat. rewrite radians_rel_inner by lra. nra. }
  set (q := _ / - distlat). clearbody q.
  pose proof (atan_bound q) as [Hlo Hhi].
  assert (degrees (- (1 / 2) * PI) = -90) as Hm by (rewrite degrees_PI; lra).
  assert (degrees (1 / 2 * PI) = 90) as Hh by (rewrite degrees_PI; lra).
  assert (degrees (3 / 2 * PI) = 270) as Ht by (rewrite degrees_PI; lra).
  assert (90 < degrees (PI - atan q) < 270) as Hs.
  { rewrite <- Hh, <- Ht. split; apply degrees_lt; lra. }
  assert (-90 < degrees (- atan q) < 90) as Hn.
  { rewrite <- Hh, <- Hm. split; apply degrees_lt; lra. }
  destruct (Rltb distlat 0) eqn:E1; [apply Rltb_lt in E1|apply Rltb_ge in E1].
  - split_and!; try lra.
  - destruct (Rltb 0 distlat) eqn:E2; [apply Rltb_lt in E2|apply Rltb_ge in E2];
      split_and!; lra.
Qed.

Lemma radians_rel_0 : radians_rel 0 = 0.
Proof. rewrite radians_rel_inner by lra. lra. Qed.

Lemma sqrt_square_abs x : sqrt (x * x) = Rabs x.
Proof. apply sqrt_Rsqr_abs. Qed.

(** X3.  A target on the own latitude is given the bearing 0, whatever its
    longitude; its distance is the east-west separation. *)
Theorem same_latitude_bearing sit lng :
  calc_gps_distance sit (latitude sit) lng =
    (Rabs (radians_rel (lng - longitude sit)) * 6371008.8 / 1852
       * Rabs (cos (radians_rel (latitude sit))), 0).
Proof.
  unfold calc_gps_distance, distance_and_bearing.
  replace (latitude sit - latitude sit) with 0 by lra.
  replace ((latitude sit + latitude sit) / 2) with (latitude sit) by lra.
  rewrite radians_rel_0.
  replace (0 * 6371008.8 / 1852) with 0 by lra.
  rewrite Rltb_false by lra. f_equal.
  rewrite Rmult_0_l, Rplus_0_l, sqrt_square_abs, Rabs_mult, Rabs_Rabsolu.
  f_equal. unfold Rdiv. rewrite !Rabs_mult.
  rewrite (Rabs_pos_eq 6371008.8) by lra.
  rewrite (Rabs_pos_eq (/ 1852)); [done|].
  apply Rlt_le, Rinv_0_lt_compat. lra.
Qed.

(** X4.  Along the own meridian the distance is the north-south separation, one
    degree being [pi / 180 * 6371008.8 / 1852] nautical miles, and the
    bearing is 0 to the north and 180 to the south. *)
Theorem meridian_bearing sit lat :
  -180 < lat - latitude sit < 180 → lat ≠ latitude sit →
  calc_gps_distance sit lat (longitude sit) =
    (Rabs (lat - latitude sit) * PI / 180 * 6371008.8 / 1852,
     if Rltb (latitude sit) lat then 0 else 180).
Proof.
  intros Hd Hne. pose proof PI_RGT_0 as Hpi.
  unfold calc_gps_distance, distance_and_bearing.
  replace (longitude sit - longitude sit) with 0 by lra.
  rewrite radians_rel_0, (radians_rel_inner (lat - latitude sit)) by lra.
  replace (0 * 6371008.8 / 1852 * Rabs (cos (radians_rel ((latitude sit + lat) / 2))))
    with 0 by lra.
  set (distlat := (lat - latitude sit) * PI / 180 * 6371008.8 / 1852).
  assert (0 / - distlat = 0) as -> by (unfold Rdiv; lra).
  rewrite atan_0, Rmult_0_l, Rplus_0_r, sqrt_square_abs.
  replace (Rabs (lat - latitude sit) * PI / 180 * 6371008.8 / 1852)
    with (Rabs (lat - latitude sit) * (PI / 180 * 6371008.8 / 1852)) by lra.
  replace distlat with ((lat - latitude sit) * (PI / 180 * 6371008.8 / 1852))
    by (unfold distlat; lra).
  rewrite Rabs_mult, (Rabs_pos_eq (PI / 180 * 6371008.8 / 1852)) by lra.
  f_equal.
  destruct (Rltb (latitude sit) lat) eqn:E; [apply Rltb_lt in E|apply Rltb_ge in E].
  - rewrite Rltb_false by nra. rewrite Rltb_true by nra.
    rewrite Ropp_0. replace 0 with (0 * PI) by lra. rewrite degrees_PI. lra.
  - rewrite Rltb_true by nra. rewrite Rminus_0_r.
    replace PI with (1 * PI) at 1 by lra. rewrite degrees_PI. lra.
Qed.

Lemma meridian_bearing_witness :
  calc_gps_distance situation3 47 (longitude situation3) =
    (Rabs (47 - latitude situation3) * PI / 180 * 6371008.8 / 1852,
     if Rltb (latitude situation3) 47 then 0 else 180).
Proof. apply (meridian_bearing situation3 47); cbn; lra. Defined.



(** ** Own-ship updates *)


Lemma with_situation_with_situation f g s :
  with_situation f (with_situation g s) = with_situation (λ c, f (g c)) s.
Proof. done. Qed.

Lemma with_situation_id s : with_situation (λ c, c) s = s.
Proof. by destruct s. Qed.

Lemma sit_update_run (differs : bool) f s :
  (if differs then sit_changed f else ret tt) s =
    (Ok tt, with_situation (sit_update differs f) s).
Proof.
  destruct differs; unfold sit_update; [done|]. by rewrite with_situation_id.
Qed.

(** [new_situation] on every message: it raises [KeyError] for the first
    missing key and leaves the updates made before it. *)
Lemma new_situation_run m s :
  new_situation m s =
    (match first_missing m with Some k => Raise (KeyError k) | None => Ok tt end,
     with_situation (situation_after m) s).
Proof.
  unfold new_situation, situation_after, first_missing.
  rewrite (bind_Ok _ _ s (situation s) s) by done.
  erewrite bind_Ok by apply sit_update_run.
  destruct (GPSHorizontalAccuracy m) as [acc|]; [|done].
  rewrite (bind_Ok _ _ _ acc _ eq_refl).
  erewrite bind_Ok by reflexivity.
  erewrite bind_Ok by apply sit_update_run.
  destruct (GPSTrueCourse m) as [crs|]; [|done].
  rewrite (bind_Ok _ _ _ crs _ eq_refl).
  erewrite bind_Ok by reflexivity.
  erewrite bind_Ok by apply sit_update_run.
  destruct (BaroPressureAltitude m) as [baro|]; [|done].
  rewrite (bind_Ok _ _ _ baro _ eq_refl).
  erewrite bind_Ok by reflexivity.
  erewrite bind_Ok by apply sit_update_run.
  destruct (GPSLatitude m) as [lat|]; [|done].
  rewrite (bind_Ok _ _ _ lat _ eq_refl).
  erewrite bind_Ok by reflexivity.
  erewrite bind_Ok by apply sit_update_run.
  destruct (GPSLongitude m) as [lng|]; [|done].
  rewrite (bind_Ok _ _ _ lng _ eq_refl).
  erewrite bind_Ok by reflexivity.
  by rewrite sit_update_run.
Qed.

(** The fields of the situation after a complete message. *)
Lemma situation_after_fields acc crs baro lat lng c :
  let c' := situation_after (own_ship acc crs baro lat lng) c in
  connected c' = true ∧ gps_active c' = Rltb acc 19999 ∧
  course c' = py_round crs ∧ own_altitude c' = baro ∧
  latitude c' = lat ∧ longitude c' = lng ∧
  RadarRange c' = RadarRange c ∧ RadarLimits c' = RadarLimits c ∧
  was_changed c' =
    was_changed c || negb (connected c)
    || negb (eqb (gps_active c) (Rltb acc 19999))
    || negb (course c =? py_round crs)%Z
    || negb (Reqb (own_altitude c) baro)
    || negb (Reqb (latitude c) lat) || negb (Reqb (longitude c) lng).
Proof.
  destruct c as [wc cn ga cr oa la lo rr rl].
  unfold situation_after, sit_update, own_ship. cbn.
  destruct cn; cbn;
    (destruct (eqb ga (Rltb acc 19999)) eqn:E1; cbn;
     [apply eqb_prop in E1|]);
    (destruct (cr =? py_round crs)%Z eqn:E2; cbn; [apply Z.eqb_eq in E2|]);
    (destruct (Reqb oa baro) eqn:E3; cbn; [apply Reqb_eq in E3|]);
    (destruct (Reqb la lat) eqn:E4; cbn; [apply Reqb_eq in E4|]);
    (destruct (Reqb lo lng) eqn:E5; cbn; [apply Reqb_eq in E5|]);
    rewrite ?orb_true_r, ?orb_false_r; by split_and!.
Qed.

Lemma first_missing_own_ship acc crs baro lat lng :
  first_missing (own_ship acc crs baro lat lng) = None.
Proof. done. Qed.

Lemma first_missing_None m :
  first_missing m = None →
  ∃ acc crs baro lat lng, m = own_ship acc crs baro lat lng.
Proof.
  destruct m as [[acc|] [crs|] [baro|] [lat|] [lng|]]; try done.
  intros _. by exists acc, crs, baro, lat, lng.
Qed.

(** A message that agrees with the situation changes nothing. *)
Lemma situation_after_fixed acc crs baro lat lng c :
  connected c = true → gps_active c = Rltb acc 19999 →
  course c = py_round crs → own_altitude c = baro →
  latitude c = lat → longitude c = lng →
  situation_after (own_ship acc crs baro lat lng) c = c.
Proof.
  destruct c as [wc cn ga cr oa la lo rr rl]. cbn.
  intros -> -> -> -> -> ->.
  unfold situation_after, sit_update, own_ship. cbn.
  rewrite eqb_reflx, Z.eqb_refl. cbn.
  by rewrite !(Reqb_true _ _ eq_refl).
Qed.

(** What [new_situation] leaves alone on every message, complete or not. *)
Lemma situation_after_frame m c :
  connected (situation_after m c) = true ∧
  RadarRange (situation_after m c) = RadarRange c ∧
  RadarLimits (situation_after m c) = RadarLimits c ∧
  (was_changed c = true → was_changed (situation_after m c) = true).
Proof.
  destruct c as [wc cn ga cr oa la lo rr rl].
  destruct m as [acc crs baro lat lng].
  unfold situation_after, sit_update. cbn.
  destruct cn; cbn; (destruct acc as [acc|]; cbn; [|by split_and!]);
    (destruct (eqb ga (Rltb acc 19999)); cbn);
    (destruct crs as [crs|]; cbn; [|by split_and!]);
    (destruct (cr =? py_round crs)%Z; cbn);
    (destruct baro as [baro|]; cbn; [|by split_and!]);
    (destruct (Reqb oa baro); cbn);
    (destruct lat as [lat|]; cbn; [|by split_and!]);
    (destruct (Reqb la lat); cbn);
    (destruct lng as [lng|]; cbn; [|by split_and!]);
    (destruct (Reqb lo lng); cbn); by split_and!.
Qed.

(** X6.  A complete situation message is always accepted.  Afterwards the
    connection is marked as up, the GPS as active exactly when the reported
    accuracy is below 19999, the course is the rounded true course, and
    altitude and position are the reported ones; range and limits are
    untouched; [was_changed] is set when any of the six values is new and
    keeps its value otherwise. *)
Theorem new_situation_applies acc crs baro lat lng s :
  ∃ s', new_situation (own_ship acc crs baro lat lng) s = (Ok tt, s') ∧
    connected (situation s') = true ∧
    gps_active (situation s') = Rltb acc 19999 ∧
    course (situation s') = py_round crs ∧
    own_altitude (situation s') = baro ∧
    latitude (situation s') = lat ∧ longitude (situation s') = lng ∧
    RadarRange (situation s') = RadarRange (situation s) ∧
    RadarLimits (situation s') = RadarLimits (situation s) ∧
    was_changed (situation s') =
      was_changed (situation s) || negb (connected (situation s))
      || negb (eqb (gps_active (situation s)) (Rltb acc 19999))
      || negb (course (situation s) =? py_round crs)%Z
      || negb (Reqb (own_altitude (situation s)) baro)
      || negb (Reqb (latitude (situation s)) lat)
      || negb (Reqb (longitude (situation s)) lng).
Proof.
  eexists. split; [by rewrite new_situation_run|].
  apply (situation_after_fields acc crs baro lat lng (situation s)).
Qed.

(** X7.  A situation message that was accepted and is received again changes
    nothing: once the display has cleared [was_changed], the repeated
    message does not set it again. *)
Theorem new_situation_repeat m s s1 :
  new_situation m s = (Ok tt, s1) →
  new_situation m (with_situation (sit_set_was_changed false) s1) =
    (Ok tt, with_situation (sit_set_was_changed false) s1).
Proof.
  rewrite !new_situation_run. intros Hrun.
  destruct (first_missing m) eqn:Hm; [done|].
  injection Hrun as <-.
  destruct (first_missing_None m Hm) as (acc & crs & baro & lat & lng & ->).
  f_equal.
  pose proof (situation_after_fields acc crs baro lat lng (situation s))
    as (? & ? & ? & ? & ? & ? & _).
  unfold with_situation.
  cbn [all_ac aircraft_changed situation max_pixel zerox zeroy last_arcposition
       spoken].
  f_equal. apply situation_after_fixed; assumption.
Qed.

Lemma new_situation_repeat_witness :
  ∃ s1, new_situation (own_ship 5 90 1000 48 11) state0 = (Ok tt, s1) ∧
    new_situation (own_ship 5 90 1000 48 11)
        (with_situation (sit_set_was_changed false) s1) =
      (Ok tt, with_situation (sit_set_was_changed false) s1).
Proof.
  eexists. split; [by rewrite new_situation_run|].
  apply (new_situation_repeat (own_ship 5 90 1000 48 11) state0).
  by rewrite new_situation_run.
Defined.

(** X8.  A message with the accuracy but without the course raises
    [KeyError: 'GPSTrueCourse'] after the connection and GPS flags have been
    stored; course, altitude and position keep their values. *)
Theorem new_situation_missing_course m s acc :
  GPSHorizontalAccuracy m = Some acc → GPSTrueCourse m = None →
  ∃ s', new_situation m s = (Raise (KeyError "GPSTrueCourse"), s') ∧
    connected (situation s') = true ∧
    gps_active (situation s') = Rltb acc 19999 ∧
    course (situation s') = course (situation s) ∧
    own_altitude (situation s') = own_altitude (situation s) ∧
    latitude (situation s') = latitude (situation s) ∧
    longitude (situation s') = longitude (situation s).
Proof.
  intros Hacc Hcrs. rewrite new_situation_run. eexists. split.
  { unfold first_missing. by rewrite Hacc, Hcrs. }
  cbn [situation with_situation]. unfold situation_after, sit_update.
  rewrite Hacc, Hcrs. destruct (situation s) as [wc cn ga cr oa la lo rr rl]. cbn.
  destruct cn; cbn; (destruct (eqb ga (Rltb acc 19999)) eqn:E; cbn;
    [apply eqb_prop in E|]); by split_and!.
Qed.

Lemma new_situation_missing_course_witness :
  ∃ s', new_situation
          {| GPSHorizontalAccuracy := Some 5; GPSTrueCourse := None;
             BaroPressureAltitude := Some 1000; GPSLatitude := Some 48;
             GPSLongitude := Some 11 |} state0
        = (Raise (KeyError "GPSTrueCourse"), s') ∧
    connected (situation s') = true ∧
    gps_active (situation s') = Rltb 5 19999 ∧
    course (situation s') = course (situation state0) ∧
    own_altitude (situation s') = own_altitude (situation state0) ∧
    latitude (situation s') = latitude (situation state0) ∧
    longitude (situation s') = longitude (situation state0).
Proof. by apply (new_situation_missing_course _ state0 5). Defined.

(** X9.  [new_situation] never touches the track table, the speech sink, the
    slot pointer, the display geometry, the range or the limits, and never
    clears [was_changed], whether it returns or raises: the tracks keep the
    distances and pixels computed from the previous own position. *)
Theorem new_situation_frame m s :
  all_ac (new_situation m s).2 = all_ac s ∧
  aircraft_changed (new_situation m s).2 = aircraft_changed s ∧
  spoken (new_situation m s).2 = spoken s ∧
  last_arcposition (new_situation m s).2 = last_arcposition s ∧
  max_pixel (new_situation m s).2 = max_pixel s ∧
  zerox (new_situation m s).2 = zerox s ∧ zeroy (new_situation m s).2 = zeroy s ∧
  RadarRange (situation (new_situation m s).2) = RadarRange (situation s) ∧
  RadarLimits (situation (new_situation m s).2) = RadarLimits (situation s) ∧
  (was_changed (situation s) = true →
   was_changed (situation (new_situation m s).2) = true).
Proof.
  rewrite new_situation_run. cbn [snd].
  pose proof (situation_after_frame m (situation s)) as (_ & ? & ? & ?).
  by split_and!.
Qed.

(** ** Edge cases of [new_traffic] *)

(** An aircraft report runs the common bookkeeping and then one of the two
    branches on the entry it has looked up or created. *)
Lemma new_traffic_report now m s icao age agelast alt sv vvel pv :
  aircraft_report m icao age agelast alt sv vvel pv →
  new_traffic now m s =
    (if pv && gps_active (situation s) then adsb_update m icao
     else modes_update m icao (bool_decide (all_ac s !! icao = None)))
      (put_ac icao (found now m icao age agelast alt sv vvel s)
         (with_aircraft_changed true s)).
Proof.
  intros (Hrr & Hrl & Hicao & Hage & Hagelast & Halt & Hsv & Hsp & Hvvel & Hpv).
  unfold new_traffic. step. rewrite Hrr, Hrl, Hicao.
  rewrite !bool_decide_eq_false_2 by (by intros [? ?]). cbn [orb].
  rewrite (bind_Ok _ _ _ _ _
    (track_bookkeeping_run now _ icao _ _ _ _ _ _ Hage Hagelast Halt Hsv Hsp Hvvel)).
  do 2 step. by autorewrite with globals.
Qed.

(** X10.  With a range of zero (a control message can store one) every
    range-only report with a usable distance and altitude raises
    [ZeroDivisionError] at line 252, after the bookkeeping of lines 189-203
    and before the entry gets a radius, a slot or an alert. *)
Theorem zero_range_raises now m s icao age agelast alt sv vvel pv de :
  complete_table (all_ac s) →
  aircraft_report m icao age agelast alt sv vvel pv →
  pv && gps_active (situation s) = false →
  DistanceEstimated m = Some de → de ≠ 0 → alt ≠ 0 →
  RadarRange (situation s) = 0 →
  new_traffic now m s =
    (Raise ZeroDivisionError,
     put_ac icao (found now m icao age agelast alt sv vvel s)
       (with_aircraft_changed true s)).
Proof.
  intros Hc Hrep Hpath Hde Hde0 Halt0 Hrange.
  rewrite (new_traffic_report _ _ _ _ _ _ _ _ _ _ Hrep), Hpath.
  pose proof (found_fields now m icao age agelast alt sv vvel s)
    as (Hh & Hws & _ & Hcirc & _).
  cbn zeta in Hh, Hws, Hcirc.
  destruct (default_was_spoken (all_ac s) icao Hc) as [ws Hws1].
  rewrite Hws1 in Hws.
  destruct Hrep as (_ & _ & _ & _ & _ & Halt & _).
  rewrite (modes_update_run _ _ _ _ _ _ _ _ _ (put_ac_lookup _ _ _) Hh Hws Hde
             Halt Hde0 Halt0).
  2:{ intros Hn%bool_decide_eq_true. autorewrite with globals in Hn.
      by rewrite Hcirc, Hn. }
  autorewrite with globals. by rewrite Hrange, Reqb_true.
Qed.

Lemma zero_range_raises_witness :
  ∃ s1, new_traffic 1 (control (Some 0) (Some 10000)) state0 = (Ok tt, s1) ∧
    new_traffic 2 (range_only 7 1852 1000) s1 =
      (Raise ZeroDivisionError,
       put_ac 7 (found 2 (range_only 7 1852 1000) 7 0 1 1000 false 0 s1)
         (with_aircraft_changed true s1)).
Proof.
  assert (ingested 1 (control (Some 0) (Some 10000)) state0
            (control_applied 0 10000 (with_aircraft_changed true state0))) as Hi
    by (by apply ingested_control).
  eexists. split; [apply ingested_new_traffic, Hi; apply complete_table_empty|].
  apply (zero_range_raises 2 (range_only 7 1852 1000) _ 7 0 1 1000 false 0
           false 1852).
  - eapply ingested_complete, Hi. apply complete_table_empty.
  - apply range_only_report.
  - reflexivity.
  - reflexivity.
  - lra.
  - lra.
  - unfold control_applied. cbn [situation with_aircraft_changed state0 situation0
      RadarRange RadarLimits].
    rewrite (Reqb_false 5 0), (Reqb_true 10000 10000) by lra. reflexivity.
Defined.

(** The loop of the sweep raises as soon as one entry has no timestamp. *)
Lemma cutoff_loop_raises cutoff items s :
  (∃ k t, (k, t) ∈ items ∧ last_contact_timestamp t = None) →
  ∃ s', cutoff_loop cutoff items s =
          (Raise (KeyError "last_contact_timestamp"), s').
Proof.
  revert s. induction items as [|[j u] rest IH]; intros s (k & t & Hin & Hts).
  { by apply elem_of_nil in Hin. }
  simpl. destruct (last_contact_timestamp u) as [ts|] eqn:Hu.
  - assert (∃ k t, (k, t) ∈ rest ∧ last_contact_timestamp t = None) as Hrest.
    { apply elem_of_cons in Hin as [[= -> ->]|Hin]; [congruence|eauto]. }
    step. destruct (Rltb ts cutoff).
    + step. destruct (IH (with_aircraft_changed true s) Hrest) as [s' Hs'].
      exists s'. by rewrite (bind_Raise _ _ _ _ _ Hs').
    + by apply IH.
  - eexists. reflexivity.
Qed.

(** X11.  An aircraft report for an unknown address that lacks the key ['Age']
    raises [KeyError] at line 195, after line 192 has inserted the new
    entry: the table is left with an entry that has no
    [last_contact_timestamp], and every later eviction sweep raises
    [KeyError] at line 405. *)
Theorem report_without_age_breaks_sweep now m s icao :
  msg_RadarRange m = None → msg_RadarLimits m = None →
  Icao_addr m = Some icao → Age m = None → all_ac s !! icao = None →
  ∃ s', new_traffic now m s = (Raise (KeyError "Age"), s') ∧
    all_ac s' !! icao = Some fresh_track ∧
    ∀ now', ∃ s'', cutoff_sweep now' s' =
                     (Raise (KeyError "last_contact_timestamp"), s'').
Proof.
  intros Hrr Hrl Hicao Hage Hnew. eexists. split_and!.
  - unfold new_traffic. step. rewrite Hrr, Hrl, Hicao.
    rewrite !bool_decide_eq_false_2 by (by intros [? ?]). cbn [orb].
    apply bind_Raise. unfold track_bookkeeping. step.
    cbn [all_ac with_aircraft_changed]. rewrite Hnew.
    rewrite bool_decide_eq_false_2 by (by intros [? ?]).
    step. rewrite Hage. reflexivity.
  - cbn. apply lookup_insert_eq.
  - intros now'. unfold cutoff_sweep. step.
    edestruct (cutoff_loop_raises (now' - RADAR_CUTOFF)) as [s'' Hs''].
    2:{ exists s''. rewrite (bind_Raise _ _ _ _ _ Hs''). reflexivity. }
    exists icao, fresh_track. split; [|done].
    apply elem_of_map_to_list. cbn. apply lookup_insert_eq.
Qed.

Lemma report_without_age_breaks_sweep_witness :
  ∃ s', new_traffic 1
          {| msg_RadarRange := None; msg_RadarLimits := None;
             Icao_addr := Some 9%Z; Age := None; AgeLastAlt := Some 1;
             Alt := Some 1000; Speed_valid := Some false; Speed := None;
             Vvel := Some 0; Position_valid := Some false; Lat := None;
             Lng := None; Track := None; DistanceEstimated := Some 1852 |}
          state0
        = (Raise (KeyError "Age"), s') ∧
    all_ac s' !! 9%Z = Some fresh_track ∧
    ∀ now', ∃ s'', cutoff_sweep now' s' =
                     (Raise (KeyError "last_contact_timestamp"), s'').
Proof.
  apply (report_without_age_breaks_sweep 1 _ state0 9); reflexivity.
Defined.

Lemma bind_ret_r {A} (c : M A) s : (a <- c ;; ret a) s = c s.
Proof. unfold bind, ret. by destruct (c s) as [[a|e] s']. Qed.

(** An entry whose pixel is -1 adds nothing to the ADS-B pass. *)
Lemma draw_adsb_hidden key t rest s :
  ac_x t = Some (-1)%Z → draw_adsb ((key, t) :: rest) s = draw_adsb rest s.
Proof.
  intros Hx. cbn [draw_adsb]. rewrite Hx. step.
  rewrite (Rltb_false 0 (IZR (-1))) by (apply IZR_le; lia). cbn [andb].
  step. cbn [app]. apply bind_ret_r.
Qed.

(** X12.  A report with a valid position whose distance is beyond the range, or
    whose relative height is beyond the limit, is accepted and silent: the
    entry gets the measured distance and the pixel (-1, -1), loses its
    range-only radius, keeps its alert flag (the hysteresis reset of line
    237 is not reached, however far the target is) and is skipped by the
    ADS-B pass of [draw_all_ac]. *)
Theorem adsb_outside_limits now m s icao age agelast alt sv vvel lat lng :
  complete_table (all_ac s) →
  aircraft_report m icao age agelast alt sv vvel true →
  gps_active (situation s) = true →
  Lat m = Some lat → Lng m = Some lng →
  in_limits (situation s) (calc_gps_distance (situation s) lat lng).1
    (rel_height alt s) = false →
  ∃ s' t', new_traffic now m s = (Ok tt, s') ∧
    all_ac s' !! icao = Some t' ∧
    ac_x t' = Some (-1)%Z ∧ ac_y t' = Some (-1)%Z ∧
    gps_distance t' = Some (calc_gps_distance (situation s) lat lng).1 ∧
    circradius t' = None ∧
    was_spoken t' = Some (default false (flag s icao)) ∧
    spoken s' = spoken s ∧
    ∀ key rest, draw_adsb ((key, t') :: rest) s' = draw_adsb rest s'.
Proof.
  intros Hc Hrep Hgps Hlat Hlng Hlim.
  assert (ingested now m s
            (put_ac icao
               (adsb_tracked s m lat lng (found now m icao age agelast alt sv vvel s))
               (with_spoken
                  (λ l, l ++ adsb_said s lat lng
                               (found now m icao age agelast alt sv vvel s))
                  (with_aircraft_changed true s)))) as Hi.
  { apply (ingested_adsb now m s icao age agelast alt sv vvel lat lng);
      try done. by rewrite Hlim. }
  pose proof (adsb_tracked_fields s m lat lng
                (found now m icao age agelast alt sv vvel s))
    as (Hgd & Hws & _ & _ & _ & _ & Hcr & _ & _ & Hx & Hy & _).
  pose proof (found_fields now m icao age agelast alt sv vvel s) as (Hh & Hw & _).
  cbv zeta in Hgd, Hws, Hx, Hy, Hh, Hw.
  rewrite height_found, Hlim in Hws, Hx, Hy.
  eexists _, _. split; [by apply ingested_new_traffic|].
  split; [apply put_ac_lookup|]. split_and!; try done.
  - rewrite Hws, Hw. unfold flag.
    destruct (all_ac s !! icao) as [t|] eqn:Hk; [|done].
    destruct (Hc _ _ Hk) as (_ & [w Hw'] & _). cbn. by rewrite Hw'.
  - cbn [spoken put_ac with_all_ac with_spoken with_aircraft_changed].
    unfold adsb_said. rewrite height_found, Hlim. apply app_nil_r.
  - intros key rest. by apply draw_adsb_hidden.
Qed.

(** The timestamp an aircraft report leaves on its entry. *)
Lemma ingested_timestamp now m s s' icao age agelast :
  ingested now m s s' →
  msg_RadarRange m = None → Icao_addr m = Some icao →
  Age m = Some age → AgeLastAlt m = Some agelast →
  ∃ t, all_ac s' !! icao = Some t ∧
    last_contact_timestamp t = Some (last_contact now age agelast).
Proof.
  intros Hi Hrr Hicao Hage Hagelast.
  destruct Hi as
    [ rr rl Hrr' Hrl
    | Hrr' Hrl Hicao'
    | icao' age' agelast' alt sv vvel lat lng Hrep Hgps Hlat Hlng Hlim
    | icao' age' agelast' alt sv vvel pv de Hrep Hpath Hde Hskip
    | icao' age' agelast' alt sv vvel pv de Hrep Hpath Hde Hde0 Halt0 Hrange ];
    [congruence|congruence|..];
    destruct Hrep as (_ & _ & Hicao' & Hage' & Hagelast' & _);
    assert (icao' = icao) as -> by congruence;
    assert (age' = age) as -> by congruence;
    assert (agelast' = agelast) as -> by congruence;
    pose proof (found_fields now m icao age agelast alt sv vvel s)
      as (_ & _ & _ & _ & _ & _ & _ & _ & _ & Hts & _); cbv zeta in Hts;
    eexists; (split; [apply put_ac_lookup|]).
  - pose proof (adsb_tracked_fields s m lat lng
                  (found now m icao age agelast alt sv vvel s))
      as (_ & _ & Hts' & _). cbv zeta in Hts'. by rewrite Hts'.
  - done.
  - pose proof (modes_tracked_fields s de
                  (found now m icao age agelast alt sv vvel s))
      as (_ & _ & Hts' & _). cbv zeta in Hts'. by rewrite Hts'.
Qed.

(** X13.  An aircraft report that was accepted at time [now] keeps its entry
    through the sweep at time [now'] exactly when the younger of the two
    ages it carried, [Age] and [AgeLastAlt], is then at most 29 seconds:
    [now' - now + min(Age, AgeLastAlt) <= 29]. *)
Theorem report_then_sweep now m s s1 icao age agelast now' :
  complete_table (all_ac s) →
  new_traffic now m s = (Ok tt, s1) →
  msg_RadarRange m = None → Icao_addr m = Some icao →
  Age m = Some age → AgeLastAlt m = Some agelast →
  ∃ s2, cutoff_sweep now' s1 = (Ok tt, s2) ∧
    (is_Some (all_ac s2 !! icao) ↔ now' - now + Rmin age agelast <= 29) ∧
    (all_ac s2 !! icao = None ∨ all_ac s2 !! icao = all_ac s1 !! icao).
Proof.
  intros Hc Hrun Hrr Hicao Hage Hagelast.
  apply new_traffic_ingested in Hrun; [|done].
  destruct (ingested_timestamp _ _ _ _ _ _ _ Hrun Hrr Hicao Hage Hagelast)
    as (t & Ht & Hts).
  destruct (cutoff_sweep_run now' s1) as (s2 & Hsweep & Hl & _).
  { by eapply ingested_complete. }
  exists s2. split; [done|]. rewrite (Hl icao), Ht.
  unfold stale, last_contact, RADAR_CUTOFF, Rmin in *. rewrite Hts.
  destruct (Rleb age agelast) eqn:E; [apply Rleb_le in E|apply Rleb_gt in E];
    destruct (Rle_dec age agelast); try lra;
    (destruct (Rltb _ _) eqn:E';
     [apply Rltb_lt in E'|apply Rltb_ge in E']);
    (split; [split; [intros [? ?]; done || lra | intros; eauto || lra]|eauto]).
Qed.

Lemma adsb_outside_limits_witness :
  ∃ s' t', new_traffic 100 (positional 1 49 11 3000) state3 = (Ok tt, s') ∧
    all_ac s' !! 1%Z = Some t' ∧
    ac_x t' = Some (-1)%Z ∧ ac_y t' = Some (-1)%Z ∧
    gps_distance t' = Some (calc_gps_distance (situation state3) 49 11).1 ∧
    circradius t' = None ∧
    was_spoken t' = Some (default false (flag state3 1)) ∧
    spoken s' = spoken state3 ∧
    ∀ key rest, draw_adsb ((key, t') :: rest) s' = draw_adsb rest s'.
Proof.
  apply (adsb_outside_limits 100 (positional 1 49 11 3000) state3 1 0 1 3000
           false 0 49 11).
  - apply state3_complete.
  - apply positional_report.
  - reflexivity.
  - reflexivity.
  - reflexivity.
  - unfold in_limits, calc_gps_distance.
    cbn [situation state3 latitude longitude situation3 RadarRange].
    rewrite distance_and_bearing_north by lra. cbn [fst].
    rewrite Rleb_false; [reflexivity|]. pose proof PI2_3_2. lra.
Defined.

Lemma report_then_sweep_witness :
  ∃ s1 s2, new_traffic 1 (range_only 7 1852 1000) state0 = (Ok tt, s1) ∧
    cutoff_sweep 20 s1 = (Ok tt, s2) ∧
    (is_Some (all_ac s2 !! 7%Z) ↔ 20 - 1 + Rmin 0 1 <= 29) ∧
    (all_ac s2 !! 7%Z = None ∨ all_ac s2 !! 7%Z = all_ac s1 !! 7%Z).
Proof.
  destruct (modes_step 1 (range_only 7 1852 1000) state0 7 0 1 1000 false 0
              false 1852)
    as (s1 & Hrun1 & _);
    [apply complete_table_empty|apply range_only_report|reflexivity|reflexivity|
     lra|lra|cbn; lra|].
  exists s1.
  destruct (report_then_sweep 1 (range_only 7 1852 1000) state0 s1 7 0 1 20)
    as (s2 & H);
    [apply complete_table_empty|exact Hrun1|reflexivity|reflexivity|reflexivity|
     reflexivity|].
  exists s2. tauto.
Defined.

(** *** What an aircraft report leaves alone *)

Lemma preserving_framed_write k s0 icao f :
  icao ≠ k → preserving (framed k s0) (ac_write icao f).
Proof.
  intros Hne. apply preserving_modify. intros s (Hk & Hrest). split; [|done].
  cbn. by rewrite lookup_alter_ne.
Qed.

(** Solve [preserving (framed k s0) c] for a command that writes to the
    entry of another address only. *)
Ltac keep_framed :=
  repeat first
    [ apply preserving_ret | apply preserving_raise | apply preserving_gets
    | apply preserving_getitem | apply preserving_pydiv
    | apply preserving_ac_read | apply preserving_ac_has
    | apply preserving_framed_write; assumption
    | apply preserving_modify; by intros ? ?
    | apply preserving_bind; [|intros ?]
    | match goal with
      | |- preserving _ (if ?b then _ else _) => destruct b
      | |- preserving _ (match ?o with _ => _ end) => destruct o
      end ].

Lemma preserving_framed_bookkeeping k s0 now m icao :
  icao ≠ k → preserving (framed k s0) (track_bookkeeping now m icao).
Proof.
  intros Hne. unfold track_bookkeeping. keep_framed.
  apply preserving_modify. intros s (Hk & Hrest). split; [|done].
  cbn. by rewrite lookup_insert_ne.
Qed.

Lemma preserving_framed_adsb k s0 m icao :
  icao ≠ k → preserving (framed k s0) (adsb_update m icao).
Proof.
  intros Hne. unfold adsb_update, adsb_alert, speaktraffic, speak. keep_framed.
Qed.

Lemma preserving_framed_modes k s0 m icao is_new :
  icao ≠ k → preserving (framed k s0) (modes_update m icao is_new).
Proof.
  intros Hne. unfold modes_update, modes_alert, speaktraffic, speak. keep_framed.
Qed.

(** X14.  A message that is not a control message, whatever else it carries and
    whether [new_traffic] returns or raises on it, changes no entry but the
    one of its own address, and changes neither the situation nor the
    display geometry. *)
Theorem new_traffic_frame now m s k :
  msg_RadarRange m = None → msg_RadarLimits m = None →
  Icao_addr m ≠ Some k →
  all_ac (new_traffic now m s).2 !! k = all_ac s !! k ∧
  situation (new_traffic now m s).2 = situation s ∧
  max_pixel (new_traffic now m s).2 = max_pixel s ∧
  zerox (new_traffic now m s).2 = zerox s ∧
  zeroy (new_traffic now m s).2 = zeroy s.
Proof.
  intros Hrr Hrl Hicao.
  enough (preserving (framed k s)
            (if bool_decide (is_Some (msg_RadarRange m))
                || bool_decide (is_Some (msg_RadarLimits m))
             then control_update m
             else
               match Icao_addr m with
               | None => ret tt
               | Some icao =>
                   is_new <- track_bookkeeping now m icao ;;
                   position_valid <- getitem "Position_valid" (Position_valid m) ;;
                   sit <- gets situation ;;
                   if position_valid && gps_active sit
                   then adsb_update m icao
                   else modes_update m icao is_new
               end)) as Hp.
  { unfold new_traffic. step. apply Hp. by unfold framed. }
  rewrite Hrr, Hrl. rewrite !bool_decide_eq_false_2 by (by intros [? ?]).
  cbn [orb]. destruct (Icao_addr m) as [icao|]; [|apply preserving_ret].
  assert (icao ≠ k) as Hne by congruence.
  apply preserving_bind; [by apply preserving_framed_bookkeeping|intros is_new].
  apply preserving_bind; [apply preserving_getitem|intros pv].
  apply preserving_bind; [apply preserving_gets|intros sit].
  destruct (pv && gps_active sit);
    [by apply preserving_framed_adsb|by apply preserving_framed_modes].
Qed.

Lemma new_traffic_frame_witness :
  all_ac (new_traffic 100 (range_only 7 1852 1000) state3).2 !! 1%Z
    = all_ac state3 !! 1%Z ∧
  situation (new_traffic 100 (range_only 7 1852 1000) state3).2
    = situation state3 ∧
  max_pixel (new_traffic 100 (range_only 7 1852 1000) state3).2
    = max_pixel state3 ∧
  zerox (new_traffic 100 (range_only 7 1852 1000) state3).2 = zerox state3 ∧
  zeroy (new_traffic 100 (range_only 7 1852 1000) state3).2 = zeroy state3.
Proof.
  apply (new_traffic_frame 100 (range_only 7 1852 1000) state3 1).
  - reflexivity.
  - reflexivity.
  - cbn. congruence.
Defined.

(** X15.  Every radar message marks the table as changed, so that the next
    display pass redraws: a steering message, a control message that
    changes nothing, and a report on which [new_traffic] raises included. *)
Theorem new_traffic_flags_redraw now m s :
  aircraft_changed (new_traffic now m s).2 = true.
Proof.
  set (P := λ s : state, aircraft_changed s = true).
  enough (preserving P
            (if bool_decide (is_Some (msg_RadarRange m))
                || bool_decide (is_Some (msg_RadarLimits m))
             then control_update m
             else
               match Icao_addr m with
               | None => ret tt
               | Some icao =>
                   is_new <- track_bookkeeping now m icao ;;
                   position_valid <- getitem "Position_valid" (Position_valid m) ;;
                   sit <- gets situation ;;
                   if position_valid && gps_active sit
                   then adsb_update m icao
                   else modes_update m icao is_new
               end)) as Hp.
  { unfold new_traffic. step. by apply Hp. }
  unfold control_update, track_bookkeeping, adsb_update, modes_update,
    adsb_alert, modes_alert, speaktraffic, speak, ac_write.
  repeat first
    [ apply preserving_ret | apply preserving_raise | apply preserving_gets
    | apply preserving_getitem | apply preserving_pydiv
    | apply preserving_ac_read | apply preserving_ac_has
    | apply preserving_modify; by intros ? ?
    | apply preserving_bind; [|intros ?]
    | match goal with
      | |- preserving _ (if ?b then _ else _) => destruct b
      | |- preserving _ (match ?o with _ => _ end) => destruct o
      end ].
Qed.

(** ** Drawing the table *)

Lemma sort_keys_keyed items s :
  (∀ k t, (k, t) ∈ items → is_Some (gps_distance t)) →
  sort_keys items s = (Ok (keyed_items items), s).
Proof.
  induction items as [|[k t] rest IH]; intros Hd; [done|].
  destruct (Hd k t) as [d Hk]; [apply list_elem_of_here|].
  assert (sort_keys rest s = (Ok (keyed_items rest), s)) as Hrest.
  { apply IH. intros j u ?. apply (Hd j u). by apply list_elem_of_further. }
  simpl. rewrite Hk. step. by rewrite (bind_Ok _ _ _ _ _ Hrest).
Qed.

Lemma insert_desc_perm e l : insert_desc e l ≡ₚ e :: l.
Proof.
  induction l as [|e' l IH]; [done|]. simpl.
  destruct (Rltb e.1 e'.1); [|done]. rewrite IH. apply Permutation_swap.
Qed.

Lemma sort_desc_perm l : sort_desc l ≡ₚ l.
Proof.
  induction l as [|e l IH]; [done|]. unfold sort_desc in *. simpl.
  by rewrite insert_desc_perm, IH.
Qed.




Lemma draw_modes_run l s :
  Forall (λ e : R * track, drawable_track e.2) l →
  draw_modes l s =
    (Ok (flat_map (λ e, modes_call (max_pixel s) e.2) l), s).
Proof.
  induction 1 as [|[d t] l Hd Hl IH]; [done|].
  cbn [snd] in Hd. destruct Hd as (_ & [h Hh] & _ & Harc & _).
  cbn [draw_modes flat_map snd]. step. unfold modes_call at 1. rewrite Hh.
  destruct (circradius t) as [r|] eqn:Hr.
  - destruct Harc as [a Ha]; [done|]. rewrite Ha.
    destruct (Rleb (IZR r) (max_pixel s / 2)).
    + rewrite (bind_Ok _ _ s [modesaircraft r h a] s) by done.
      by rewrite (bind_Ok _ _ _ _ _ IH).
    + step. by rewrite (bind_Ok _ _ _ _ _ IH).
  - step. by rewrite (bind_Ok _ _ _ _ _ IH).
Qed.

Lemma draw_adsb_cons d t rest s :
  drawable_track t →
  draw_adsb ((d, t) :: rest) s =
    (more <- draw_adsb rest ;; ret (adsb_call (max_pixel s) t ++ more)) s.
Proof.
  intros (_ & [h Hh] & [v Hv] & _ & Hxy).
  cbn [draw_adsb]. step. erewrite bind_Ok; [reflexivity|].
  unfold adsb_call. rewrite Hh, Hv.
  destruct (ac_x t) as [px|] eqn:Hx; [|done].
  destruct Hxy as [[py Hy] [dir Hdir]]; [done|]. rewrite Hy, Hdir.
  destruct (Rltb 0 (IZR px) && Rleb (IZR px) (max_pixel s)); [|done].
  cbn [andb]. rewrite (bind_Ok _ _ s py s) by done.
  by destruct (Rleb (IZR py) (max_pixel s)).
Qed.

Lemma draw_adsb_run l s :
  Forall (λ e : R * track, drawable_track e.2) l →
  draw_adsb l s =
    (Ok (flat_map (λ e, adsb_call (max_pixel s) e.2) l), s).
Proof.
  induction 1 as [|[d t] l Hd Hl IH]; [done|].
  rewrite draw_adsb_cons by done. by rewrite (bind_Ok _ _ _ _ _ IH).
Qed.

Lemma keyed_items_drawable tbl :
  drawable_table tbl →
  Forall (λ e : R * track, drawable_track e.2)
    (sort_desc (keyed_items (map_to_list tbl))).
Proof.
  intros Hd. rewrite sort_desc_perm. unfold keyed_items.
  apply Forall_map, Forall_forall. intros [k t] Hin%elem_of_map_to_list.
  by eapply Hd.
Qed.

(** On a table whose entries have the keys it reads, [draw_all_ac] returns
    the calls of the two loops over the sorted items. *)
Lemma draw_all_ac_run tbl s :
  drawable_table tbl →
  draw_all_ac tbl s =
    (Ok (flat_map (λ e, modes_call (max_pixel s) e.2)
           (sort_desc (keyed_items (map_to_list tbl)))
         ++ flat_map (λ e, adsb_call (max_pixel s) e.2)
              (sort_desc (keyed_items (map_to_list tbl)))), s).
Proof.
  intros Hd. unfold draw_all_ac.
  assert (sort_keys (map_to_list tbl) s = (Ok (keyed_items (map_to_list tbl)), s))
    as Hkeys.
  { apply sort_keys_keyed. intros k t Hin%elem_of_map_to_list.
    by destruct (Hd _ _ Hin) as (? & _). }
  rewrite (bind_Ok _ _ _ _ _ Hkeys).
  rewrite (bind_Ok _ _ _ _ _ (draw_modes_run _ s (keyed_items_drawable _ Hd))).
  by rewrite (bind_Ok _ _ _ _ _ (draw_adsb_run _ s (keyed_items_drawable _ Hd))).
Qed.

Lemma modes_call_shape mp t c :
  c ∈ modes_call mp t → ∃ r h a, c = modesaircraft r h a.
Proof.
  unfold modes_call.
  destruct (circradius t), (height t), (arcposition t);
    try (by intros ?%elem_of_nil).
  destruct (Rleb _ _); [|by intros ?%elem_of_nil].
  intros ->%list_elem_of_singleton. eauto.
Qed.

Lemma adsb_call_shape mp t c :
  c ∈ adsb_call mp t → ∃ px py d h v n, c = aircraft px py d h v n.
Proof.
  unfold adsb_call.
  destruct (ac_x t), (ac_y t), (direction t), (height t), (vspeed t);
    try (by intros ?%elem_of_nil).
  destruct (_ && _); [|by intros ?%elem_of_nil].
  intros ->%list_elem_of_singleton. eauto 10.
Qed.

Lemma keyed_sorted_elem tbl k t d :
  tbl !! k = Some t → gps_distance t = Some d →
  (d, t) ∈ sort_desc (keyed_items (map_to_list tbl)).
Proof.
  intros Hk Hd. rewrite sort_desc_perm. unfold keyed_items.
  apply list_elem_of_fmap. exists (k, t). cbn. rewrite Hd.
  split; [done|]. by apply elem_of_map_to_list.
Qed.

(** X16.  On a table whose entries have the keys it reads, [draw_all_ac] returns
    and changes nothing; all the circles of range-only entries come before
    all the symbols of positioned entries; and every entry that passes the
    test of its loop gets its call. *)
Theorem draw_all_ac_layers tbl s :
  drawable_table tbl →
  ∃ circles symbols,
    draw_all_ac tbl s = (Ok (circles ++ symbols), s) ∧
    Forall (λ c, ∃ r h a, c = modesaircraft r h a) circles ∧
    Forall (λ c, ∃ px py d h v n, c = aircraft px py d h v n) symbols ∧
    (∀ k t c, tbl !! k = Some t →
       (c ∈ modes_call (max_pixel s) t → c ∈ circles) ∧
       (c ∈ adsb_call (max_pixel s) t → c ∈ symbols)).
Proof.
  intros Hd. eexists _, _. split; [by apply draw_all_ac_run|]. split_and!.
  - apply Forall_forall. intros c (e & He & Hc)%list_elem_of_In%in_flat_map.
    eapply modes_call_shape. apply list_elem_of_In, Hc.
  - apply Forall_forall. intros c (e & He & Hc)%list_elem_of_In%in_flat_map.
    eapply adsb_call_shape. apply list_elem_of_In, Hc.
  - intros k t c Hk. destruct (Hd _ _ Hk) as ([d Hdist] & _).
    pose proof (keyed_sorted_elem _ _ _ _ Hk Hdist) as Hin.
    split; intros Hc; apply list_elem_of_In, in_flat_map;
      exists (d, t); split; by apply list_elem_of_In.
Qed.



Lemma sample_track_drawable ts : drawable_track (sample_track ts).
Proof. unfold drawable_track, sample_track. cbn. split_and!; eauto; by intros [? ?]. Qed.

Lemma adsb_track_drawable : drawable_track adsb_track.
Proof. unfold drawable_track, adsb_track. cbn. split_and!; eauto; by intros [? ?]. Qed.

Lemma state3_drawable : drawable_table (all_ac state3).
Proof.
  intros k t. cbn. destruct (decide (k = 1%Z)) as [->|H1].
  { rewrite lookup_insert_eq. intros [= <-]. apply sample_track_drawable. }
  rewrite lookup_insert_ne by done. destruct (decide (k = 2%Z)) as [->|H2].
  { rewrite lookup_insert_eq. intros [= <-]. apply adsb_track_drawable. }
  by rewrite lookup_insert_ne, lookup_empty.
Qed.

Lemma draw_all_ac_layers_witness :
  ∃ circles symbols,
    draw_all_ac (all_ac state3) state3 = (Ok (circles ++ symbols), state3) ∧
    Forall (λ c, ∃ r h a, c = modesaircraft r h a) circles ∧
    Forall (λ c, ∃ px py d h v n, c = aircraft px py d h v n) symbols ∧
    (∀ k t c, all_ac state3 !! k = Some t →
       (c ∈ modes_call (max_pixel state3) t → c ∈ circles) ∧
       (c ∈ adsb_call (max_pixel state3) t → c ∈ symbols)).
Proof. apply (draw_all_ac_layers (all_ac state3) state3), state3_drawable. Defined.


(** X18.  The first report of an aircraft with a valid position but without the
    key ['Track'] leaves an entry with a pixel and no [direction]; when the
    pixel is on the screen, the next [draw_all_ac] raises
    [KeyError: 'direction'] at line 105. *)
Theorem draw_without_track_raises now m s icao age agelast alt sv vvel lat lng :
  all_ac s = ∅ →
  aircraft_report m icao age agelast alt sv vvel true →
  gps_active (situation s) = true →
  Lat m = Some lat → Lng m = Some lng → Track m = None →
  in_limits (situation s) (calc_gps_distance (situation s) lat lng).1
    (rel_height alt s) = true →
  RadarRange (situation s) ≠ 0 →
  0 < IZR (screen_x (max_pixel s) (zerox s) (RadarRange (situation s))
             (course (situation s)) (calc_gps_distance (situation s) lat lng).1
             (calc_gps_distance (situation s) lat lng).2) <= max_pixel s →
  IZR (screen_y (max_pixel s) (zeroy s) (RadarRange (situation s))
         (course (situation s)) (calc_gps_distance (situation s) lat lng).1
         (calc_gps_distance (situation s) lat lng).2) <= max_pixel s →
  ∃ s', new_traffic now m s = (Ok tt, s') ∧
    draw_all_ac (all_ac s') s' = (Raise (KeyError "direction"), s').
Proof.
  intros Hempty Hrep Hgps Hlat Hlng Htrack Hlim Hrange Hx Hy.
  assert (complete_table (all_ac s)) as Hc
    by (rewrite Hempty; apply complete_table_empty).
  assert (ingested now m s
            (put_ac icao
               (adsb_tracked s m lat lng (found now m icao age agelast alt sv vvel s))
               (with_spoken
                  (λ l, l ++ adsb_said s lat lng
                               (found now m icao age agelast alt sv vvel s))
                  (with_aircraft_changed true s)))) as Hi.
  { apply (ingested_adsb now m s icao age agelast alt sv vvel lat lng);
      try done. rewrite (Reqb_false (RadarRange _) 0) by done.
    apply andb_false_r. }
  eexists. split; [by apply ingested_new_traffic|].
  set (t' := adsb_tracked s m lat lng (found now m icao age agelast alt sv vvel s)).
  pose proof (adsb_tracked_fields s m lat lng
                (found now m icao age agelast alt sv vvel s))
    as (Hgd & _ & _ & Hh & _ & Hvs & Hcr & _ & Hdir & Hpx & Hpy & _).
  pose proof (found_fields now m icao age agelast alt sv vvel s)
    as (Hh0 & _ & _ & _ & _ & Hdir0 & _ & _ & _ & _ & Hvs0 & _).
  cbv zeta in Hgd, Hh, Hvs, Hcr, Hdir, Hpx, Hpy, Hh0, Hdir0, Hvs0.
  rewrite height_found, Hlim in Hpx, Hpy.
  rewrite Htrack, Hdir0, Hempty, lookup_empty in Hdir. cbn in Hdir.
  fold t' in Hgd, Hh, Hvs, Hcr, Hdir, Hpx, Hpy.
  set (s' := put_ac icao t' _).
  assert (max_pixel s' = max_pixel s) as Hmp by done.
  assert (map_to_list (all_ac s') = [(icao, t')]) as Hlist.
  { cbn. rewrite Hempty, insert_empty. apply map_to_list_singleton. }
  unfold draw_all_ac. rewrite Hlist. cbn [sort_keys]. rewrite Hgd.
  rewrite (bind_Ok _ _ s' [(_, t')] s') by done.
  cbn [sort_desc foldr insert_desc draw_modes]. rewrite Hcr.
  rewrite (bind_Ok _ _ s' [] s') by done.
  apply bind_Raise. cbn [draw_adsb]. step. apply bind_Raise.
  rewrite Hpx, Hpy, Hmp, Hdir.
  rewrite Rltb_true, Rleb_true by lra. cbn [andb].
  step. by rewrite Rleb_true by lra.
Qed.

(** Seen from [state_b], a target one hundredth of a degree to the north
    is a quarter of the range straight ahead: pixel (100, 75). *)
Lemma sample_pixel :
  calc_gps_distance situation_b 0.01 0 = (boundary_range / 4, 0) ∧
  screen_x 200 100 boundary_range 0 (boundary_range / 4) 0 = 100%Z ∧
  screen_y 200 100 boundary_range 0 (boundary_range / 4) 0 = 75%Z.
Proof.
  pose proof boundary_range_pos as Hpos. split_and!.
  - unfold calc_gps_distance. cbn [latitude longitude situation_b].
    rewrite distance_and_bearing_north by lra. f_equal.
    unfold boundary_range. lra.
  - unfold screen_x, radians. replace ((0 - 0) * PI / 180) with 0 by lra.
    rewrite sin_0. apply py_round_near.
    replace (200 / 2 * (0 * (boundary_range / 4)) / boundary_range + 100)
      with 100 by (field; lra).
    lra.
  - unfold screen_y, radians. replace ((0 - 0) * PI / 180) with 0 by lra.
    rewrite cos_0. apply py_round_near.
    replace (200 / 2 * (- (1) * (boundary_range / 4)) / boundary_range + 100)
      with 75 by (field; lra).
    lra.
Qed.

Lemma draw_without_track_raises_witness :
  ∃ s', new_traffic 1 (positional 5 0.01 0 1000) state_b = (Ok tt, s') ∧
    draw_all_ac (all_ac s') s' = (Raise (KeyError "direction"), s').
Proof.
  destruct sample_pixel as (Hgeo & Hpx & Hpy).
  pose proof boundary_range_pos as Hpos.
  apply (draw_without_track_raises 1 (positional 5 0.01 0 1000) state_b
           5 0 1 1000 false 0 0.01 0).
  - reflexivity.
  - apply positional_report.
  - reflexivity.
  - reflexivity.
  - reflexivity.
  - reflexivity.
  - cbn [situation state_b]. rewrite Hgeo. cbn [fst].
    unfold in_limits, rel_height.
    cbn [situation state_b RadarRange RadarLimits own_altitude situation_b].
    replace ((1000 - 0) / 100) with (IZR 10) by lra. rewrite py_round_IZR.
    rewrite Rleb_true by lra. apply Rleb_true. change (10 <= 10000). lra.
  - cbn. lra.
  - cbn [situation state_b]. rewrite Hgeo.
    cbn [fst snd max_pixel zerox course RadarRange state_b situation_b].
    rewrite Hpx. lra.
  - cbn [situation state_b]. rewrite Hgeo.
    cbn [fst snd max_pixel zeroy course RadarRange state_b situation_b].
    rewrite Hpy. lra.
Defined.

Lemma drawable_table_insert (tbl : gmap Z track) k t :
  drawable_table tbl → drawable_track t → drawable_table (<[k := t]> tbl).
Proof.
  intros Hc Ht j u. destruct (decide (k = j)) as [->|Hne].
  - rewrite lookup_insert_eq. by intros [= <-].
  - rewrite lookup_insert_ne by done. apply Hc.
Qed.

Lemma found_drawable now m icao age agelast alt sv vvel s :
  drawable_table (all_ac s) →
  drawable_track (found now m icao age agelast alt sv vvel s).
Proof.
  intros Hd.
  pose proof (found_fields now m icao age agelast alt sv vvel s)
    as (Hh & _ & Hgd & Hcr & Harc & Hdir & Hx & Hy & _ & _ & Hvs & _).
  cbv zeta in *. unfold drawable_track.
  rewrite Hh, Hgd, Hcr, Harc, Hdir, Hx, Hy, Hvs.
  destruct (all_ac s !! icao) as [t|] eqn:Hk; cbn.
  - destruct (Hd _ _ Hk) as (? & _ & _ & ? & ?). split_and!; eauto.
  - split_and!; eauto; by intros [? ?].
Qed.

(** X19.  As long as every report with a valid position carries the key
    ['Track'], the keys [draw_all_ac] reads stay present: after every
    message that [new_traffic] accepts, [draw_all_ac] returns. *)
Theorem drawable_invariant now m s s' :
  complete_table (all_ac s) → drawable_table (all_ac s) →
  (Position_valid m = Some true → is_Some (Track m)) →
  new_traffic now m s = (Ok tt, s') →
  drawable_table (all_ac s') ∧
  ∃ calls, draw_all_ac (all_ac s') s' = (Ok calls, s').
Proof.
  intros Hc Hd Htrack Hrun. apply new_traffic_ingested in Hrun; [|done].
  assert (drawable_table (all_ac s')) as Hd'.
  { destruct Hrun as
      [ rr rl Hrr Hrl
      | Hrr Hrl Hicao
      | icao age agelast alt sv vvel lat lng Hrep Hgps Hlat Hlng Hlim
      | icao age agelast alt sv vvel pv de Hrep Hpath Hde Hskip
      | icao age agelast alt sv vvel pv de Hrep Hpath Hde Hde0 Halt0 Hrange ].
    - rewrite all_ac_control_applied. destruct (_ && _); [done|].
      intros k t Hk. by rewrite lookup_empty in Hk.
    - done.
    - apply drawable_table_insert; [done|].
      pose proof (found_drawable now m icao age agelast alt sv vvel s Hd)
        as (_ & Hh0 & Hvs0 & _).
      pose proof (adsb_tracked_fields s m lat lng
                    (found now m icao age agelast alt sv vvel s))
        as (Hgd & _ & _ & Hh & _ & Hvs & Hcr & _ & Hdir & Hx & Hy & _).
      cbv zeta in *. unfold drawable_track.
      rewrite Hgd, Hh, Hvs, Hcr, Hdir, Hx, Hy.
      destruct Hrep as (_ & _ & _ & _ & _ & _ & _ & _ & _ & Hpv).
      destruct (Htrack Hpv) as [tr ->].
      split_and!; eauto; by intros [? ?].
    - apply drawable_table_insert; [done|by apply found_drawable].
    - apply drawable_table_insert; [done|].
      pose proof (found_drawable now m icao age agelast alt sv vvel s Hd)
        as (_ & Hh0 & Hvs0 & Harc0 & Hxy0).
      pose proof (modes_tracked_fields s de
                    (found now m icao age agelast alt sv vvel s))
        as (Hgd & _ & _ & Hh & _ & Hvs & Hcr & Harc & Hdir & Hx & Hy & _).
      cbv zeta in *. unfold drawable_track.
      rewrite Hgd, Hh, Hvs, Hcr, Harc, Hdir, Hx, Hy.
      split_and!; eauto. intros _. case_bool_decide; eauto. }
  split; [done|]. eexists. by apply draw_all_ac_run.
Qed.

Lemma drawable_invariant_witness :
  ∃ s', new_traffic 100 (range_only 2 1852 3000)
          (with_situation (sit_set_gps_active false) state3) = (Ok tt, s') ∧
    drawable_table (all_ac s') ∧
    ∃ calls, draw_all_ac (all_ac s') s' = (Ok calls, s').
Proof.
  destruct sample_modes_run as [s' Hrun]. exists s'. split; [exact Hrun|].
  apply (drawable_invariant 100 (range_only 2 1852 3000)
           (with_situation (sit_set_gps_active false) state3) s').
  - apply state3_complete.
  - apply state3_drawable.
  - cbn. congruence.
  - exact Hrun.
Defined.

(** ** The circle of a range-only track *)







(** ** The shutdown countdown of [shutdownui.py] *)

Lemma idle_poll_running t_start t_check g :
  shutdownui.shutdown_time g ≠ 0 →
  shutdownui.user_input t_start 0 t_check g =
    (3%Z, if Rltb (shutdownui.shutdown_time g) t_check
          then shutdownui.set_clear_before_shutoff true g else g).
Proof.
  intros Hrun. unfold shutdownui.user_input.
  rewrite Reqb_false by done. by rewrite Rltb_false by lra.
Qed.

Lemma idle_polls_running polls g :
  shutdownui.shutdown_time g ≠ 0 →
  shutdownui.shutdown_time (shutdownui.idle_polls polls g)
    = shutdownui.shutdown_time g ∧
  (shutdownui.clear_before_shutoff (shutdownui.idle_polls polls g) = true ↔
   shutdownui.clear_before_shutoff g = true ∨
   ∃ p, p ∈ polls ∧ shutdownui.shutdown_time g < p.2).
Proof.
  intros Hrun. revert g Hrun.
  induction polls as [|[t1 t2] rest IH]; intros g Hrun.
  { cbn. split; [done|]. split; [by left|]. intros [?|(p & Hp & _)]; [done|].
    by apply elem_of_nil in Hp. }
  cbn [shutdownui.idle_polls]. rewrite idle_poll_running by done. cbn [snd].
  destruct (Rltb (shutdownui.shutdown_time g) t2) eqn:E;
    [apply Rltb_lt in E|apply Rltb_ge in E].
  - destruct (IH (shutdownui.set_clear_before_shutoff true g)) as [Ht Hc];
      [done|].
    split; [done|]. rewrite Hc. cbn. split; [|by left].
    intros _. right. exists (t1, t2). split; [apply list_elem_of_here|done].
  - destruct (IH g Hrun) as [Ht Hc]. split; [done|]. rewrite Hc.
    split; (intros [?|(p & Hp & Hlt)]; [by left|right]).
    + exists p. split; [by apply list_elem_of_further|done].
    + apply elem_of_cons in Hp as [->|Hp]; [cbn in Hlt; lra|eauto].
Qed.

(** X21.  The countdown.  From the initial globals, while no button is pressed,
    every poll returns 3 (stay in shutdown mode); the first poll fixes the
    shutdown time six seconds after its first clock reading and no later
    poll moves it; and the shutdown is granted ([clear_before_shutoff]
    set) exactly when some poll has read the clock, at line 75, after the
    shutdown time. *)
Theorem shutdown_countdown t0 t0' polls :
  0 <= t0 →
  let g := shutdownui.idle_polls ((t0, t0') :: polls) shutdownui.initial in
  shutdownui.shutdown_time g = t0 + 6 ∧
  (shutdownui.clear_before_shutoff g = true ↔
   ∃ p, p ∈ (t0, t0') :: polls ∧ t0 + 6 < p.2) ∧
  ∀ t1 t2, (shutdownui.user_input t1 0 t2 g).1 = 3%Z.
Proof.
  intros Ht0. cbv zeta. cbn [shutdownui.idle_polls].
  set (g1 := (shutdownui.user_input t0 0 t0' shutdownui.initial).2).
  assert (shutdownui.shutdown_time g1 = t0 + 6 ∧
          (shutdownui.clear_before_shutoff g1 = true ↔ t0 + 6 < t0')) as [Ht1 Hc1].
  { unfold g1, shutdownui.user_input, shutdownui.initial,
      shutdownui.SHUTDOWN_WAIT_TIME. cbn.
    rewrite (Reqb_true 0 0), (Rltb_false 0 0) by lra. cbn.
    destruct (Rltb (t0 + 6) t0') eqn:E;
      [apply Rltb_lt in E|apply Rltb_ge in E]; cbn; split; try done;
      split; try done; lra. }
  destruct (idle_polls_running polls g1) as [Ht Hc]; [lra|].
  rewrite Ht, Hc, Ht1, Hc1. split_and!; [done| |].
  - split.
    + intros [Hlt|(p & Hp & Hlt)].
      * exists (t0, t0'). split; [apply list_elem_of_here|done].
      * exists p. split; [by apply list_elem_of_further|done].
    + intros (p & Hp & Hlt). apply elem_of_cons in Hp as [->|Hp]; [by left|eauto].
  - intros t1 t2. unfold shutdownui.user_input.
    by rewrite (Rltb_false 0 0) by lra.
Qed.

Lemma shutdown_countdown_witness :
  let g := shutdownui.idle_polls [(100, 100); (103, 103); (107, 107)]
             shutdownui.initial in
  shutdownui.shutdown_time g = 100 + 6 ∧
  (shutdownui.clear_before_shutoff g = true ↔
   ∃ p, p ∈ [(100, 100); (103, 103); (107, 107)] ∧ 100 + 6 < p.2) ∧
  ∀ t1 t2, (shutdownui.user_input t1 0 t2 g).1 = 3%Z.
Proof. apply (shutdown_countdown 100 100 [(103, 103); (107, 107)]). lra. Defined.

(** X22.  A button press ends the countdown and sends the user interface back
    to radar mode (result 1), but it does not withdraw a shutdown that was
    already granted: [clear_before_shutoff] keeps its value, and if it was
    set the next [draw_shutdown] powers the system off without showing a
    countdown. *)
Theorem button_keeps_granted_shutdown t_start btime t_check now g :
  0 < btime →
  (shutdownui.user_input t_start btime t_check g).1 = 1%Z ∧
  shutdownui.shutdown_time (shutdownui.user_input t_start btime t_check g).2 = 0 ∧
  shutdownui.clear_before_shutoff
      (shutdownui.user_input t_start btime t_check g).2
    = shutdownui.clear_before_shutoff g ∧
  (shutdownui.clear_before_shutoff g = true →
   shutdownui.draw_shutdown now
       (shutdownui.user_input t_start btime t_check g).2
     = ([shutdownui.Cleanup; shutdownui.Poweroff], true, shutdownui.initial)).
Proof.
  intros Hb. unfold shutdownui.user_input. rewrite Rltb_true by done.
  cbn [fst snd]. split_and!; try done.
  - by destruct (Reqb _ _).
  - intros Hc. unfold shutdownui.draw_shutdown.
    destruct (Reqb _ _); cbn; rewrite (Rltb_false 0 0) by lra; by rewrite Hc.
Qed.

Lemma button_keeps_granted_shutdown_witness :
  let g := {| shutdownui.shutdown_time := 106;
              shutdownui.clear_before_shutoff := true |} in
  (shutdownui.user_input 108 1 108 g).1 = 1%Z ∧
  shutdownui.shutdown_time (shutdownui.user_input 108 1 108 g).2 = 0 ∧
  shutdownui.clear_before_shutoff (shutdownui.user_input 108 1 108 g).2
    = shutdownui.clear_before_shutoff g ∧
  (shutdownui.clear_before_shutoff g = true →
   shutdownui.draw_shutdown 200 (shutdownui.user_input 108 1 108 g).2
     = ([shutdownui.Cleanup; shutdownui.Poweroff], true, shutdownui.initial)).
Proof. apply (button_keeps_granted_shutdown 108 1 108 200). lra. Defined.

Lemma Int_part_floor v : IZR (Int_part v) <= v < IZR (Int_part v) + 1.
Proof.
  pose proof (base_fp v) as [H0 H1]. unfold frac_part in *. lra.
Qed.

(** X23.  The remaining time shown by [draw_shutdown] while a countdown runs is
    the whole number of seconds left, never negative: it is 0 once the
    shutdown time has passed. *)
Theorem draw_shutdown_rest_time now g :
  0 < shutdownui.shutdown_time g →
  ∃ rest more,
    (shutdownui.draw_shutdown now g).1.1 =
      shutdownui.Clear :: shutdownui.Shutdown rest :: shutdownui.Display :: more ∧
    (0 <= rest)%Z ∧
    (now <= shutdownui.shutdown_time g →
     IZR rest <= shutdownui.shutdown_time g - now < IZR rest + 1) ∧
    (shutdownui.shutdown_time g <= now → rest = 0%Z).
Proof.
  intros Hrun. unfold shutdownui.draw_shutdown. rewrite Rltb_true by done.
  set (d := shutdownui.shutdown_time g - now).
  assert (∃ rest,
            (if (shutdownui.py_int d <? 0)%Z then 0%Z else shutdownui.py_int d) = rest ∧
            (0 <= rest)%Z ∧ (0 <= d → IZR rest <= d < IZR rest + 1) ∧
            (d <= 0 → rest = 0%Z)) as (rest & -> & H0 & H1 & H2).
  { eexists. split; [done|]. unfold shutdownui.py_int.
    destruct (Rleb 0 d) eqn:E; [apply Rleb_le in E|apply Rleb_gt in E].
    - pose proof (Int_part_floor d) as [Hlo Hhi].
      assert (0 <= Int_part d)%Z as Hpos.
      { apply Z.lt_succ_r, lt_IZR. rewrite succ_IZR. lra. }
      rewrite (proj2 (Z.ltb_ge _ _) Hpos). split_and!; [done|done|].
      intros Hd. assert (d = 0) as Hd0 by lra.
      apply Z.le_antisymm; [|done]. apply Z.lt_succ_r, lt_IZR.
      rewrite succ_IZR. lra.
    - pose proof (Int_part_floor (- d)) as [Hlo Hhi].
      assert (0 <= Int_part (- d))%Z as Hpos.
      { apply Z.lt_succ_r, lt_IZR. rewrite succ_IZR. lra. }
      destruct (- Int_part (- d) <? 0)%Z eqn:Hneg.
      + split_and!; [done|lra|done].
      + apply Z.ltb_ge in Hneg. assert (Int_part (- d) = 0%Z) as -> by lia.
        cbn. split_and!; [done|lra|done]. }
  destruct (shutdownui.clear_before_shutoff g); cbn [fst];
    eexists _, _; (split; [reflexivity|]); split_and!; try done;
    intros; (apply H1 || apply H2); unfold d; lra.
Qed.

Lemma draw_shutdown_rest_time_witness :
  let g := {| shutdownui.shutdown_time := 106;
              shutdownui.clear_before_shutoff := false |} in
  ∃ rest more,
    (shutdownui.draw_shutdown 102.5 g).1.1 =
      shutdownui.Clear :: shutdownui.Shutdown rest :: shutdownui.Display :: more ∧
    (0 <= rest)%Z ∧
    (102.5 <= shutdownui.shutdown_time g →
     IZR rest <= shutdownui.shutdown_time g - 102.5 < IZR rest + 1) ∧
    (shutdownui.shutdown_time g <= 102.5 → rest = 0%Z).
Proof.
  apply (draw_shutdown_rest_time 102.5
           {| shutdownui.shutdown_time := 106;
              shutdownui.clear_before_shutoff := false |}).
  cbn. lra.
Defined.

(** X24.  [draw_shutdown] powers the system off exactly when the shutdown was
    granted, and takes the grant back: it returns [True] and issues
    [cleanup] and the power-off command once, and the call after that
    returns [False] and issues neither. *)
Theorem draw_shutdown_once now now' g :
  (shutdownui.draw_shutdown now g).1.2 = shutdownui.clear_before_shutoff g ∧
  (shutdownui.Poweroff ∈ (shutdownui.draw_shutdown now g).1.1 ↔
   shutdownui.clear_before_shutoff g = true) ∧
  shutdownui.shutdown_time (shutdownui.draw_shutdown now g).2
    = shutdownui.shutdown_time g ∧
  (shutdownui.draw_shutdown now' (shutdownui.draw_shutdown now g).2).1.2 = false ∧
  shutdownui.Poweroff ∉
    (shutdownui.draw_shutdown now' (shutdownui.draw_shutdown now g).2).1.1.
Proof.
  assert (∀ t h, shutdownui.clear_before_shutoff h = false →
            (shutdownui.draw_shutdown t h).1.2 = false ∧
            shutdownui.Poweroff ∉ (shutdownui.draw_shutdown t h).1.1) as Hoff.
  { intros t h Hh. unfold shutdownui.draw_shutdown. rewrite Hh. cbn.
    split; [done|]. destruct (Rltb _ _); [|by intros ?%elem_of_nil].
    intros Hin. repeat (apply elem_of_cons in Hin as [?|Hin]; [done|]).
    by apply elem_of_nil in Hin. }
  destruct (shutdownui.clear_before_shutoff g) eqn:Hg.
  - assert (shutdownui.draw_shutdown now g =
              ((if Rltb 0 (shutdownui.shutdown_time g)
                then [shutdownui.Clear;
                      shutdownui.Shutdown
                        (if (shutdownui.py_int (shutdownui.shutdown_time g - now) <? 0)%Z
                         then 0%Z
                         else shutdownui.py_int (shutdownui.shutdown_time g - now));
                      shutdownui.Display]
                else []) ++ [shutdownui.Cleanup; shutdownui.Poweroff], true,
               shutdownui.set_clear_before_shutoff false g)) as ->.
    { unfold shutdownui.draw_shutdown. by rewrite Hg. }
    cbn [fst snd]. split_and!; try done; try (by apply Hoff).
    split; [done|]. intros _. apply elem_of_app. right.
    apply list_elem_of_further, list_elem_of_here.
  - destruct (Hoff now g Hg) as [H1 H2].
    assert ((shutdownui.draw_shutdown now g).2 = g) as Hsame.
    { unfold shutdownui.draw_shutdown. by rewrite Hg. }
    rewrite Hsame. split_and!; try done; by apply Hoff.
Qed.

(** ** Redrawing on change *)

(** X25.  On a table whose entries have the keys [draw_all_ac] reads,
    [draw_display] returns.  With no change flag set it makes no call and
    changes nothing.  With a flag set it clears the screen, draws the
    situation and the tracks and shows the result, and it resets the three
    flags; the table is untouched.  A second pass right after it makes no
    call. *)
Theorem draw_display_on_change a :
  drawable_table (all_ac (core a)) →
  ∃ calls a', draw_display a = (Ok calls, a') ∧
    (needs_redraw a = false → calls = [] ∧ a' = a) ∧
    (needs_redraw a = true →
     ∃ tracks,
       draw_all_ac (all_ac (core a)) (core a) = (Ok tracks, core a) ∧
       calls =
         d_clear
         :: d_situation (connected (situation (core a)))
              (gps_active (situation (core a)))
              (own_altitude (situation (core a))) (course (situation (core a)))
              (RadarRange (situation (core a))) (RadarLimits (situation (core a)))
              (bt_devices a) (sound_on a)
         :: map d_track tracks ++ [d_display]) ∧
    needs_redraw a' = false ∧
    all_ac (core a') = all_ac (core a) ∧
    draw_display a' = (Ok [], a').
Proof.
  intros Hd. unfold draw_display.
  destruct (needs_redraw a) eqn:Hn.
  - rewrite (draw_all_ac_run _ _ Hd). eexists _, _. split; [reflexivity|].
    split_and!; try done.
    intros _. by eexists.
  - eexists _, _. split; [reflexivity|]. split_and!; try done.
    by rewrite Hn.
Qed.

Lemma draw_display_on_change_witness :
  let a := {| core := state3; ui_changed := true; bt_devices := 0;
              sound_on := true |} in
  ∃ calls a', draw_display a = (Ok calls, a') ∧
    (needs_redraw a = false → calls = [] ∧ a' = a) ∧
    (needs_redraw a = true →
     ∃ tracks,
       draw_all_ac (all_ac (core a)) (core a) = (Ok tracks, core a) ∧
       calls =
         d_clear
         :: d_situation (connected (situation (core a)))
              (gps_active (situation (core a)))
              (own_altitude (situation (core a))) (course (situation (core a)))
              (RadarRange (situation (core a))) (RadarLimits (situation (core a)))
              (bt_devices a) (sound_on a)
         :: map d_track tracks ++ [d_display]) ∧
    needs_redraw a' = false ∧
    all_ac (core a') = all_ac (core a) ∧
    draw_display a' = (Ok [], a').
Proof.
  apply (draw_display_on_change
           {| core := state3; ui_changed := true; bt_devices := 0;
              sound_on := true |}).
  apply state3_drawable.
Defined.

(** [draw_all_ac] only reads the globals. *)
Lemma preserving_sort_keys P items : preserving P (sort_keys items).
Proof.
  induction items as [|[k t] rest IH]; [apply preserving_ret|].
  cbn [sort_keys]. apply preserving_bind; [apply preserving_getitem|intros ?].
  apply preserving_bind; [done|intros ?; apply preserving_ret].
Qed.

Lemma preserving_draw_modes P l : preserving P (draw_modes l).
Proof.
  induction l as [|[d t] rest IH]; [apply preserving_ret|].
  cbn [draw_modes]. apply preserving_bind; [apply preserving_gets|intros mp].
  apply preserving_bind.
  { destruct (circradius t); [|apply preserving_ret].
    destruct (Rleb _ _); [|apply preserving_ret].
    apply preserving_bind; [apply preserving_getitem|intros ?].
    apply preserving_bind; [apply preserving_getitem|intros ?].
    apply preserving_ret. }
  intros ?. apply preserving_bind; [done|intros ?; apply preserving_ret].
Qed.

Lemma preserving_draw_adsb P l : preserving P (draw_adsb l).
Proof.
  induction l as [|[d t] rest IH]; [apply preserving_ret|].
  cbn [draw_adsb]. apply preserving_bind; [apply preserving_gets|intros mp].
  apply preserving_bind.
  { destruct (ac_x t); [|apply preserving_ret].
    destruct (_ && _); [|apply preserving_ret].
    apply preserving_bind; [apply preserving_getitem|intros ?].
    destruct (Rleb _ _); [|apply preserving_ret].
    apply preserving_bind; [apply preserving_getitem|intros ?].
    apply preserving_bind; [apply preserving_getitem|intros ?].
    apply preserving_bind; [apply preserving_getitem|intros ?].
    apply preserving_ret. }
  intros ?. apply preserving_bind; [done|intros ?; apply preserving_ret].
Qed.

Lemma draw_all_ac_state tbl s : (draw_all_ac tbl s).2 = s.
Proof.
  enough (preserving (λ x, x = s) (draw_all_ac tbl)) as Hp by by apply Hp.
  unfold draw_all_ac.
  apply preserving_bind; [apply preserving_sort_keys|intros ?].
  apply preserving_bind; [apply preserving_draw_modes|intros ?].
  apply preserving_bind; [apply preserving_draw_adsb|intros ?].
  apply preserving_ret.
Qed.

(** X26.  When a change flag is set and [draw_all_ac] raises, [draw_display]
    raises the same exception and leaves every global as it was, the
    change flags included: the next pass draws again and raises again. *)
Theorem draw_display_failure a e s' :
  needs_redraw a = true →
  draw_all_ac (all_ac (core a)) (core a) = (Raise e, s') →
  draw_display a = (Raise e, a).
Proof.
  intros Hn Hraise. unfold draw_display. rewrite Hn, Hraise.
  pose proof (draw_all_ac_state (all_ac (core a)) (core a)) as Hs.
  rewrite Hraise in Hs. cbn in Hs. subst s'. by destruct a.
Qed.

Lemma untracked_draw_raises :
  draw_all_ac (all_ac untracked_state) untracked_state =
    (Raise (KeyError "direction"), untracked_state).
Proof.
  unfold draw_all_ac, untracked_state. cbn [all_ac with_all_ac].
  rewrite insert_empty, map_to_list_singleton. cbn [sort_keys untracked gps_distance].
  rewrite (bind_Ok _ _ _ [(1, untracked)] _) by done.
  cbn [sort_desc foldr insert_desc draw_modes].
  rewrite (bind_Ok _ _ _ [] _) by done.
  apply bind_Raise. cbn [draw_adsb]. step. apply bind_Raise.
  cbn [ac_x ac_y direction untracked max_pixel with_all_ac state0].
  rewrite (Rltb_true 0 (IZR 100)), (Rleb_true (IZR 100) 200)
    by (change (IZR 100) with 100; lra).
  cbn [andb]. step.
  by rewrite (Rleb_true (IZR 75) 200) by (change (IZR 75) with 75; lra).
Qed.

Lemma draw_display_failure_witness :
  let a := {| core := untracked_state; ui_changed := true; bt_devices := 0;
              sound_on := true |} in
  draw_display a = (Raise (KeyError "direction"), a).
Proof.
  apply (draw_display_failure
           {| core := untracked_state; ui_changed := true; bt_devices := 0;
              sound_on := true |} (KeyError "direction") untracked_state).
  - unfold needs_redraw. cbn [ui_changed]. apply orb_true_r.
  - apply untracked_draw_raises.
Defined.
